(** * ay23: browser-automated session acquisition — a shallow embedding

    The development follows the JavaScript sources, with the line numbers
    of the files as they are stored:

    - [src/checkin/checkin-github.js]: the GitHub sign-in driver and, below
      it, the LinuxDo driver;
    - [unnamed/part_000] (playwright-stealth.js): the stealth init payload;
    - [src/changePassword/change-password.js]: one password change;
    - [src/utils/notify.js], its second half (batch-change-password.js):
      the batch of password changes and its command line; its first
      half: the notifier;
    - [src/utils/idcard-generator.js] and
      [src/utils/random-string-generator.js]: two of the generators of
      test data.

    Part I holds the models (one module per source unit), Part II the
    facts proved about them.  Effectful code is written in a small
    state-and-exit monad over an explicit world; everything the program
    cannot decide itself (the remote site, the backend record store, the
    clock's drift, [Math.random]) is an oracle of an environment record
    that the theorems quantify over. *)

From stdpp Require Import base gmap strings list.
From Stdlib Require Import ZArith Lia String Ascii List Bool.
From Stdlib Require Import DecimalString FunctionalExtensionality.
Import ListNotations.

Set Warnings "-register-all".

Local Open Scope Z_scope.
Local Open Scope string_scope.

(* ===================================================================== *)
(** * Part I — models *)
(* ===================================================================== *)

(** ** JavaScript values, strings and truthiness *)

Module JS.

(** [s.includes(sub)] *)
Fixpoint includes (s sub : string) : bool :=
  String.prefix sub s
  || match s with
     | EmptyString => false
     | String _ s' => includes s' sub
     end.

(** [s.endsWith(suffix)] *)
Fixpoint endsWith (s suffix : string) : bool :=
  String.eqb s suffix
  || match s with
     | EmptyString => false
     | String _ s' => endsWith s' suffix
     end.

(** The code units [String.prototype.trim] strips (WhiteSpace and
    LineTerminator), for strings of code units below 256: TAB, LF, VT, FF,
    CR, SPACE and NBSP. *)
Definition is_space (c : ascii) : bool :=
  let n := nat_of_ascii c in
  (Nat.eqb n 9 || Nat.eqb n 10 || Nat.eqb n 11 || Nat.eqb n 12
   || Nat.eqb n 13 || Nat.eqb n 32 || Nat.eqb n 160)%bool.

Fixpoint trimStart (s : string) : string :=
  match s with
  | EmptyString => EmptyString
  | String c s' => if is_space c then trimStart s' else s
  end.

(** Drops trailing white space: a character is kept when it is not a
    space or when something is kept after it. *)
Fixpoint trimEnd (s : string) : string :=
  match s with
  | EmptyString => EmptyString
  | String c s' =>
      match trimEnd s' with
      | EmptyString => if is_space c then EmptyString else String c EmptyString
      | rest => String c rest
      end
  end.

(** [s.trim()] *)
Definition trim (s : string) : string := trimEnd (trimStart s).

(** Some code unit of [s] is not white space. *)
Fixpoint has_nonspace (s : string) : bool :=
  match s with
  | EmptyString => false
  | String c s' => negb (is_space c) || has_nonspace s'
  end.

(** A string in a boolean position: only [''] is falsy. *)
Definition truthy_str (s : string) : bool := negb (String.eqb s "").

(** JSON-shaped values.  Numbers are the integers, which is what
    identifiers are; [String] prints them in plain decimal. *)
Inductive Val : Type :=
| VUndefined
| VNull
| VBool (b : bool)
| VNum (n : Z)
| VStr (s : string)
| VArr (xs : list Val)
| VObj (fields : list (string * Val)).

(** A value in a boolean position. *)
Definition truthy (v : Val) : bool :=
  match v with
  | VUndefined | VNull => false
  | VBool b => b
  | VNum n => negb (Z.eqb n 0)
  | VStr s => truthy_str s
  | VArr _ | VObj _ => true
  end.

Fixpoint assoc (k : string) (fields : list (string * Val)) : Val :=
  match fields with
  | [] => VUndefined
  | (k', v) :: rest => if String.eqb k k' then v else assoc k rest
  end.

(** [v.k] for a key that no primitive wrapper or array defines (such as
    [id], [data]): [None] is the TypeError raised on [null] and
    [undefined]. *)
Definition get (v : Val) (k : string) : option Val :=
  match v with
  | VUndefined | VNull => None
  | VObj fields => Some (assoc k fields)
  | _ => Some VUndefined
  end.

(** [v === true] *)
Definition is_true (v : Val) : bool :=
  match v with
  | VBool true => true
  | _ => false
  end.

Definition join (sep : string) (parts : list string) : string :=
  match parts with
  | [] => ""
  | p :: ps => fold_left (fun acc q => acc ++ sep ++ q) ps p
  end.

(** [String(v)] *)
Fixpoint String_ (v : Val) : string :=
  match v with
  | VUndefined => "undefined"
  | VNull => "null"
  | VBool true => "true"
  | VBool false => "false"
  | VNum n => NilZero.string_of_int (Z.to_int n)
  | VStr s => s
  | VArr xs =>
      join "," (map (fun x => match x with
                              | VUndefined | VNull => ""
                              | _ => String_ x
                              end) xs)
  | VObj _ => "[object Object]"
  end.

(** A value of [Math.random()]: a fraction [num/den] in [0, 1). *)
Record UnitFrac : Type := {
  num : Z;
  den : Z;
  in_unit : 0 <= num < den
}.

(** [getRandomDelay(min, max)]:
    [Math.floor(Math.random() * (max - min + 1)) + min]
    (checkin-github.js:45, change-password.js:28). *)
Definition getRandomDelay (r : UnitFrac) (min max : Z) : Z :=
  (num r * (max - min + 1)) / den r + min.

End JS.

(** ** The sign-in drivers (checkin-github.js) *)

Module Checkin.
Import JS.

(** *** Data *)

(** A cookie of the browser context, as [context.cookies()] lists it. *)
Record Cookie : Type := {
  name : string;
  value : string;
  domain : string;
  path : string
}.

(** The non-null result of a run: [{ session, apiUser, userInfo }]. *)
Record SessionResult : Type := {
  session : string;
  apiUser : string;
  userInfo : Val
}.

(** Page elements the drivers address, with the locator the source uses. *)
Inductive Target : Type :=
| Dialog              (* 'div[role="dialog"]' *)
| CloseNoticeButton   (* getByRole('button', { name: close-announcement }) *)
| GitHubButton        (* getByRole('button', { name: continue-with-GitHub }) *)
| LoginField          (* '#login_field' *)
| PasswordField       (* '#password' *)
| SignInButton        (* 'input[type="submit"][value="Sign in"]' *)
| AppTotp             (* '#app_totp' *)
| VerifyButton        (* 'button[type="submit"]:has-text("Verify")' *)
| DontAskAgain        (* 'input.btn-link[type="submit"][value="Don't ask again ..."]' *)
| Otp                 (* '#otp' *)
| LinuxDoButton       (* getByRole('button', { name: continue-with-LinuxDO }) *)
| AccountName         (* '#login-account-name' *)
| AccountPassword     (* '#login-account-password' *)
| LoginButton         (* '#login-button' *)
| ApproveLink         (* 'a[href*="/oauth2/approve/"]' *)
| AllowLink.          (* getByRole('link', { name: allow }) *)

(** Calls into Playwright, the file system and the notifier.  Each takes
    time and may throw. *)
Inductive Call : Type :=
| EnsureStorageDir                         (* getUserDataDir: fs.existsSync / mkdirSync *)
| LaunchPersistentContext (dir : string)   (* chromium.launchPersistentContext *)
| Launch                                   (* chromium.launch *)
| NewContext                               (* browser.newContext *)
| ApplyStealth                             (* applyStealthToContext *)
| NewPage                                  (* context.newPage *)
| Goto (url : string)                      (* page.goto *)
| Reload                                   (* page.reload *)
| WaitForSelector (t : Target)             (* page.waitForSelector *)
| WaitForURL (pattern : string)            (* page.waitForURL *)
| WaitForPopup                             (* await context.waitForEvent('page') *)
| WaitForLoadState                         (* newPage.waitForLoadState *)
| IsVisible (t : Target)                   (* locator.isVisible *)
| Click (t : Target)                       (* locator.click *)
| KeyboardType (c : ascii)                 (* page.keyboard.type *)
| Fill (t : Target) (text : string)        (* locator.fill *)
| LocatorWaitFor (t : Target)              (* locator.waitFor *)
| GetLocalStorageUser                      (* page.evaluate(() => localStorage.getItem('user')) *)
| SendEmail (to : string)                  (* notifier.sendEmail *)
| Screenshot                               (* page.screenshot *)
| ReadTempFile                             (* fs.readFile *)
| UnlinkTempFile                           (* fs.unlink *)
| ContextCookies                           (* context.cookies *)
| ClearCookies                             (* context.clearCookies *)
| AddCookies (cs : list Cookie)            (* context.addCookies *)
| ClearStorage                             (* page.evaluate(localStorage.clear, sessionStorage.clear) *)
| PageClose                                (* page.close *)
| ContextClose                             (* context.close *)
| BrowserClose.                            (* browser.close *)

(** Requests to the backend record store (../api/index.js, which is not
    among the sources).  A request that resolves answers with a structured
    result, [{ success, data }]. *)
Inductive Request : Type :=
| AddAccountLoginInfo (account_id : string)
| GetAccountLoginInfo (login_info_id account_id : string)
| UploadImage.

(** The console reports that mark a decision of the flow. *)
Inductive Msg : Type :=
| LogAlreadySignedIn          (* :148 *)
| LogUserSelfTimeout          (* :168, :510 *)
| LogNotSignedIn              (* :174 *)
| LogUnexpectedPage (url : string)   (* :176, :472, :478 *)
| LogNoAnnouncement           (* :198 *)
| LogAfterLoginUrl (url : string)    (* :318 *)
| LogTwofaSecretMissing       (* :323 *)
| LogTotpGenerated (code : string)   (* :329 *)
| LogTotpFailed               (* :366 *)
| LogTotpPassed               (* :370 *)
| LogDeviceVerification       (* :375 *)
| LogEmailSent                (* :403 *)
| LogEmailSkipped             (* :405 *)
| LogEmailFailed              (* :408 *)
| LogPollingStart             (* :416 *)
| LogDeviceCodeDetected (code : string)  (* :435 *)
| LogPollRetry                (* :452 *)
| LogVerificationTimeout      (* :457 *)
| LogAddLoginInfoFailed       (* :465 *)
| LogAuthorizePage            (* :470, :476 *)
| LogSessionCookieFound       (* :556 *)
| LogSuccess                  (* :571 *)
| LogIncomplete               (* :578 *)
| LogParseFailed              (* :545 *)
| LogError                    (* :584 *)
| LogCleanAgentRouter         (* :592 *)
| LogCookiesCleared (n : nat) (* :610 *)
| LogStorageCleared           (* :622 *)
| LogStateSaved               (* :628 *)
| LogCleanupWarning           (* :630 *)
| LogScreenshot (m : string)  (* captureAndUploadScreenshot *)
| LogNextAccount (i n : nat)  (* :645 *)
| LogWaitNextAccount.         (* :663 *)

(** What a run does to the outside, in order. *)
Inductive Event : Type :=
| Called (c : Call)
| Requested (r : Request)
| Slept (ms : Z)                       (* setTimeout(resolve, ms) *)
| Logged (m : Msg)
| Persisted (cookies : list Cookie).   (* the jar a context.close() flushed *)

(** *** The world *)

Record World : Type := {
  clock : Z;             (* Date.now(), in ms *)
  jar : list Cookie;     (* the cookie jar of the browser context *)
  browser : bool;        (* the variable [browser] is not null *)
  context : bool;        (* the variable [context] is not null *)
  page : bool;           (* the variable [page] is not null *)
  trace : list Event
}.

Definition advance (ms : Z) (w : World) : World :=
  {| clock := clock w + ms; jar := jar w; browser := browser w;
     context := context w; page := page w; trace := trace w |}.

Definition emit (e : Event) (w : World) : World :=
  {| clock := clock w; jar := jar w; browser := browser w;
     context := context w; page := page w; trace := trace w ++ [e] |}.

Definition set_jar (j : list Cookie) (w : World) : World :=
  {| clock := clock w; jar := j; browser := browser w;
     context := context w; page := page w; trace := trace w |}.

Definition set_browser (w : World) : World :=
  {| clock := clock w; jar := jar w; browser := true;
     context := context w; page := page w; trace := trace w |}.

Definition set_context (w : World) : World :=
  {| clock := clock w; jar := jar w; browser := browser w;
     context := true; page := page w; trace := trace w |}.

Definition set_page (w : World) : World :=
  {| clock := clock w; jar := jar w; browser := browser w;
     context := context w; page := true; trace := trace w |}.

(** [addAccountLoginInfo]'s answer. *)
Record LoginInfoData : Type := {
  login_info_id : string;
  expire_time : Z
}.

Record AddResult : Type := {
  add_success : bool;
  add_data : option LoginInfoData
}.

(** [getAccountLoginInfo]'s answer; [github_device_code] is a string or
    absent. *)
Record LoginInfo : Type := {
  github_device_code : option string
}.

Record GetResult : Type := {
  get_success : bool;
  get_data : option LoginInfo
}.

(** Everything a run depends on and does not decide.  Each oracle reads
    the world at the moment it is asked, history included. *)
Record Env : Type := {
  Math_random : World -> UnitFrac;
  timer_lag : World -> N;                 (* how late a timer fires *)
  compute_lag : World -> N;               (* time spent since the last await *)
  elapsed : Call -> World -> N;           (* duration of a call *)
  throws : Call -> World -> bool;         (* the call rejects *)
  site_cookies : Call -> World -> list Cookie;  (* the jar once the site has answered *)
  request_elapsed : Request -> World -> N;
  request_throws : Request -> World -> bool;     (* the request rejects *)
  page_url : World -> string;             (* page.url() *)
  visible : Target -> World -> bool;      (* what isVisible() resolved to *)
  has_pages : World -> bool;              (* context.pages().length > 0 *)
  page_isClosed : World -> bool;          (* page.isClosed() *)
  userSelfResponse : World -> Val;        (* the variable the response listener sets *)
  userSelf_wait : World -> option N;      (* when the /api/user/self signal arrives *)
  localStorage_user : World -> option string;
  JSON_parse : string -> option Val;      (* None: SyntaxError *)
  addAccountLoginInfo : World -> AddResult;
  getAccountLoginInfo : World -> GetResult;
  uploadImage_ok : World -> bool;
  generateTOTP : string -> World -> option string;   (* ../utils/twofa.js *)
  EMAIL_TO : string                       (* process.env.EMAIL_TO, '' if unset *)
}.

(** *** The monad: state, [return null] and exceptions *)

Inductive Outcome (A : Type) : Type :=
| Ok (a : A)      (* the statement ran to its end *)
| ReturnNull      (* `return null;` was executed *)
| Throw.          (* an exception is propagating *)

Arguments Ok {A} a.
Arguments ReturnNull {A}.
Arguments Throw {A}.

Definition M (A : Type) : Type := World -> Outcome A * World.

Definition ret {A} (a : A) : M A := fun w => (Ok a, w).

Definition bind {A B} (m : M A) (k : A -> M B) : M B :=
  fun w =>
    match m w with
    | (Ok a, w') => k a w'
    | (ReturnNull, w') => (ReturnNull, w')
    | (Throw, w') => (Throw, w')
    end.

Definition return_null {A} : M A := fun w => (ReturnNull, w).

Definition throw {A} : M A := fun w => (Throw, w).

(** [try { m } catch { handler }]: a [return] inside [m] leaves both. *)
Definition try_catch {A} (m handler : M A) : M A :=
  fun w =>
    match m w with
    | (Throw, w') => handler w'
    | r => r
    end.

Declare Scope js_scope.
Delimit Scope js_scope with js.
Notation "x <- m ;; k" := (bind m (fun x => k))
  (at level 100, m at next level, right associativity) : js_scope.
Notation "m ;; k" := (bind m (fun _ => k))
  (at level 100, right associativity) : js_scope.
Local Open Scope js_scope.

Definition when (b : bool) (m : M unit) : M unit := if b then m else ret tt.

(** *** Primitive steps *)

Section Driver.

Variable env : Env.

(** The jar after a call.  The context-management calls act on it as the
    Playwright API says (a rejected call leaves it alone); during any
    other call the site may rewrite it. *)
Definition jar_after (c : Call) (failed : bool) (w : World) : list Cookie :=
  match c with
  | ClearCookies => if failed then jar w else []
  | AddCookies cs => if failed then jar w else jar w ++ cs
  | ContextCookies | ClearStorage | PageClose | ContextClose | BrowserClose
  | EnsureStorageDir | SendEmail _ | Screenshot | ReadTempFile
  | UnlinkTempFile => jar w
  | _ => site_cookies env c w
  end.

(** [await <call>]: time passes, the call is on record, and it either
    resolves or rejects.  A [context.close()] that resolves has flushed
    the jar to the profile directory. *)
Definition call (c : Call) : M unit :=
  fun w =>
    let failed := throws env c w in
    let w1 := emit (Called c)
                (set_jar (jar_after c failed w)
                   (advance (Z.of_N (elapsed env c w)) w)) in
    if failed then (Throw, w1)
    else (Ok tt, match c with
                 | ContextClose => emit (Persisted (jar w1)) w1
                 | _ => w1
                 end).

(** [await <backend request>]: it resolves, and its answer is read from
    the environment, or it rejects. *)
Definition request (r : Request) : M unit :=
  fun w =>
    let w1 := emit (Requested r)
                (advance (Z.of_N (request_elapsed env r w)) w) in
    if request_throws env r w then (Throw, w1) else (Ok tt, w1).

(** Reading a variable or a synchronous property. *)
Definition read {A} (f : World -> A) : M A := fun w => (Ok (f w), w).

Definition assign (f : World -> World) : M unit := fun w => (Ok tt, f w).

(** [console.log] *)
Definition log (m : Msg) : M unit := fun w => (Ok tt, emit (Logged m) w).

(** [Date.now()] *)
Definition Date_now : M Z :=
  fun w =>
    let w' := advance (Z.of_N (compute_lag env w)) w in
    (Ok (clock w'), w').

(** [randomDelay(min, max)] (:52): the timer fires no earlier than asked. *)
Definition randomDelay (min max : Z) : M unit :=
  fun w =>
    let delay := getRandomDelay (Math_random env w) min max in
    (Ok tt, emit (Slept delay)
              (advance (Z.max 0 delay + Z.of_N (timer_lag env w)) w)).

(** [locator.isVisible()] *)
Definition isVisible (t : Target) : M bool :=
  call (IsVisible t) ;; read (visible env t).

(** [Promise.race([userSelfPromise, timeout(10000)])] and the warning
    that follows a lost race (:162-169, :504-511). *)
Definition awaitUserSelf : M unit :=
  fun w =>
    match userSelf_wait env w with
    | Some d =>
        if N.ltb d 10000 then (Ok tt, advance (Z.of_N d) w)
        else log LogUserSelfTimeout (advance 10000 w)
    | None => log LogUserSelfTimeout (advance 10000 w)
    end.

(** [for (const char of s) { await page.keyboard.type(char);
    await this.randomDelay(min, max); }] *)
Fixpoint typeChars (s : string) (min max : Z) : M unit :=
  match s with
  | EmptyString => ret tt
  | String c s' =>
      call (KeyboardType c) ;; randomDelay min max ;; typeChars s' min max
  end.

(** The announcement dialog (:183-199, again :215-230). *)
Definition closeAnnouncement : M unit :=
  try_catch
    (call (WaitForSelector Dialog) ;;
     randomDelay 500 1000 ;;
     shown <- isVisible CloseNoticeButton ;;
     when shown (call (Click CloseNoticeButton) ;; randomDelay 500 1000))
    (log LogNoAnnouncement).

(** *** The GitHub driver *)

Record Args : Type := {
  baseUrl : string;
  accountId : string;
  username : string;
  password : string;
  noticeEmail : option string;   (* null by default *)
  twofaSecret : option string    (* null by default *)
}.

(** [x || y] and [!x] on a string that may be null. *)
Definition or_else (x : option string) (y : string) : string :=
  match x with
  | Some s => if truthy_str s then s else y
  | None => y
  end.

Definition given (x : option string) : option string :=
  match x with
  | Some s => if truthy_str s then Some s else None
  | None => None
  end.

(** Step 5a, the TOTP challenge (:321-371). *)
Definition twoFactorChallenge (a : Args) (afterLoginUrl : string) : M unit :=
  when (includes afterLoginUrl "/sessions/two-factor")
    (match given (twofaSecret a) with
     | None => log LogTwofaSecretMissing ;; return_null
     | Some secret =>
         generated <- read (generateTOTP env secret) ;;
         match generated with
         | None => throw
         | Some totpCode =>
             log (LogTotpGenerated totpCode) ;;
             randomDelay 1000 2000 ;;
             call (LocatorWaitFor AppTotp) ;;
             call (Click AppTotp) ;;
             randomDelay 300 600 ;;
             typeChars totpCode 50 100 ;;
             randomDelay 2000 3000 ;;
             url1 <- read (page_url env) ;;
             when (includes url1 "/sessions/two-factor")
               (isVerifyVisible <- try_catch (isVisible VerifyButton) (ret false) ;;
                when isVerifyVisible
                  (call (Click VerifyButton) ;; randomDelay 3000 5000)) ;;
             url2 <- read (page_url env) ;;
             when (includes url2 "/sessions/trusted-device")
               (call (LocatorWaitFor DontAskAgain) ;;
                call (Click DontAskAgain) ;;
                randomDelay 3000 5000) ;;
             finalTotpUrl <- read (page_url env) ;;
             if includes finalTotpUrl "/sessions/two-factor"
                || includes finalTotpUrl "/login"
             then log LogTotpFailed ;; return_null
             else log LogTotpPassed
         end
     end).

(** [getResult.success && getResult.data] and then
    [loginInfo.github_device_code &&
     loginInfo.github_device_code.trim() !== ''] (:430-434): the code the
    loop acts on, if any. *)
Definition device_code (r : GetResult) : option string :=
  if get_success r then
    match get_data r with
    | Some loginInfo =>
        match github_device_code loginInfo with
        | Some code =>
            if truthy_str code && negb (String.eqb (trim code) "")
            then Some code else None
        | None => None
        end
    | None => None
    end
  else None.

(** The polling loop (:423-454); its value is [deviceCodeFilled].  Every
    turn that does not end the loop sleeps 5 s or more, so the turns are
    bounded by the time left; [None] marks a loop cut short by [fuel] (see
    [pollFuel]). *)
Fixpoint pollLoop (fuel : nat) (loginInfoId account : string)
    (startTime maxPollingTime : Z) : M (option bool) :=
  match fuel with
  | O => ret None
  | S fuel' =>
      t <- Date_now ;;
      if Z.ltb (t - startTime) maxPollingTime then
        request (GetAccountLoginInfo loginInfoId account) ;;
        getResult <- read (getAccountLoginInfo env) ;;
        match device_code getResult with
        | Some code =>
            log (LogDeviceCodeDetected code) ;;
            call (Click Otp) ;;
            randomDelay 300 600 ;;
            call (Fill Otp code) ;;
            randomDelay 1000 2000 ;;
            ret (Some true)
        | None =>
            log LogPollRetry ;;
            randomDelay 5000 (5000 + 500) ;;
            pollLoop fuel' loginInfoId account startTime maxPollingTime
        end
      else ret (Some false)
  end.

(** Turns that always suffice for a loop with [maxPollingTime] to go. *)
Definition pollFuel (maxPollingTime : Z) : nat :=
  S (S (Z.to_nat (maxPollingTime / 5000))).

(** The e-mail notice (:393-409), best effort. *)
Definition notifyOperator (a : Args) : M unit :=
  try_catch
    (let emailTo := or_else (noticeEmail a) (EMAIL_TO env) in
     if truthy_str emailTo
     then call (SendEmail emailTo) ;; log LogEmailSent
     else log LogEmailSkipped)
    (log LogEmailFailed).

(** Polling for the operator's code and what follows it (:415-463). *)
Definition awaitDeviceCode (account loginInfoId : string) (expireTime : Z)
  : M unit :=
  log LogPollingStart ;;
  now <- Date_now ;;
  let maxPollingTime := expireTime - now in
  startTime <- Date_now ;;
  deviceCodeFilled <-
    pollLoop (pollFuel maxPollingTime) loginInfoId account
      startTime maxPollingTime ;;
  match deviceCodeFilled with
  | Some true => randomDelay 5000 7000
  | Some false => log LogVerificationTimeout ;; return_null
  | None => throw   (* not reached: [pollFuel] suffices *)
  end.

(** Step 5b, device verification (:374-473). *)
Definition deviceVerification (a : Args) (afterLoginUrl : string) : M unit :=
  if includes afterLoginUrl "github.com/sessions/verified-device" then
    log LogDeviceVerification ;;
    request (AddAccountLoginInfo (accountId a)) ;;
    addResult <- read (addAccountLoginInfo env) ;;
    if add_success addResult then
      match add_data addResult with
      | None => throw      (* addResult.data.login_info_id on undefined *)
      | Some data =>
          notifyOperator a ;;
          call (WaitForSelector Otp) ;;
          awaitDeviceCode (accountId a) (login_info_id data) (expire_time data)
      end
    else log LogAddLoginInfoFailed ;; return_null
  else if includes afterLoginUrl "oauth/authorize" then log LogAuthorizePage
  else log (LogUnexpectedPage afterLoginUrl).

(** Step 4, the GitHub credentials form (:273-473). *)
Definition githubCredentials (a : Args) : M unit :=
  call (WaitForSelector LoginField) ;;
  randomDelay 500 1000 ;;
  call (Click LoginField) ;;
  randomDelay 300 600 ;;
  typeChars (username a) 50 150 ;;
  call (Click PasswordField) ;;
  randomDelay 300 600 ;;
  typeChars (password a) 50 150 ;;
  randomDelay 500 1000 ;;
  call (Click SignInButton) ;;
  randomDelay 3000 5000 ;;
  afterLoginUrl <- read (page_url env) ;;
  log (LogAfterLoginUrl afterLoginUrl) ;;
  twoFactorChallenge a afterLoginUrl ;;
  deviceVerification a afterLoginUrl.

(** Step 6, back at the target (:482-511). *)
Definition awaitCallback (base : string) : M unit :=
  randomDelay 3000 5000 ;;
  finalUrl <- read (page_url env) ;;
  when (includes finalUrl "/console/token")
    (call (Goto (base ++ "/console")) ;; randomDelay 2000 3000) ;;
  awaitUserSelf.

(** Steps 2 to 6, run only from the login page (:180-512). *)
Definition thirdPartyLogin (a : Args) : M unit :=
  closeAnnouncement ;;
  isButtonVisible <- try_catch (isVisible GitHubButton) (ret false) ;;
  when (negb isButtonVisible)
    (call Reload ;; randomDelay 1000 2000 ;; closeAnnouncement) ;;
  call (Click GitHubButton) ;;
  call WaitForPopup ;;
  call WaitForLoadState ;;
  assign set_page ;;
  randomDelay 1000 2000 ;;
  currentUrl <- read (page_url env) ;;
  (if includes currentUrl "github.com/login" then githubCredentials a
   else if includes currentUrl "oauth/authorize" then log LogAuthorizePage
   else log (LogUnexpectedPage currentUrl)) ;;
  awaitCallback (baseUrl a).

(** The fast path of an already authenticated profile (:147-177). *)
Definition detectExistingSession (base currentPageUrl : string)
    (onLogin : bool) : M unit :=
  if includes currentPageUrl "/console" then
    log LogAlreadySignedIn ;;
    when (negb (endsWith currentPageUrl "/console"))
      (call (Goto (base ++ "/console")) ;; randomDelay 2000 3000) ;;
    awaitUserSelf
  else if onLogin then log LogNotSignedIn
  else log (LogUnexpectedPage currentPageUrl).

(** [userData.id ? String(userData.id) : null]; [None] is the TypeError
    on a null [userData]. *)
Definition userIdOf (userData : Val) : option (option string) :=
  match get userData "id" with
  | None => None
  | Some id => Some (if truthy id then Some (String_ id) else None)
  end.

(** Step 7, first half (:518-548): [(userData, apiUser)] from the captured
    response or, failing that, from the page's local storage. *)
Definition readUser : M (Val * option string) :=
  response <- read (userSelfResponse env) ;;
  let data := match get response "data" with
              | Some d => d
              | None => VUndefined
              end in
  if truthy response && truthy data then
    match userIdOf data with
    | Some apiUser => ret (data, apiUser)
    | None => throw
    end
  else
    call GetLocalStorageUser ;;
    userDataStr <- read (localStorage_user env) ;;
    match given userDataStr with
    | Some str =>
        match JSON_parse env str with
        | Some userData =>
            match userIdOf userData with
            | Some apiUser => ret (userData, apiUser)
            | None => log LogParseFailed ;; ret (userData, None)
            end
        | None => log LogParseFailed ;; ret (VNull, None)
        end
    | None => ret (VNull, None)
    end.

(** [cookies.find((c) => c.name === 'session')] and its value (:552-557). *)
Definition sessionCookieOf (cookies : list Cookie) : option string :=
  match find (fun c => String.eqb (name c) "session") cookies with
  | Some c => Some (value c)
  | None => None
  end.

(** The final test (:570-582): [sessionCookie && apiUser]. *)
Definition sessionResult (userData : Val) (apiUser sessionCookie : option string)
  : option SessionResult :=
  match given sessionCookie, given apiUser with
  | Some s, Some u => Some {| session := s; apiUser := u; userInfo := userData |}
  | _, _ => None
  end.

(** Step 7 (:514-582).  [onIncomplete] is what a driver does before it
    gives up: nothing here, a screenshot in the LinuxDo driver. *)
Definition extractSession (onIncomplete : M unit) : M SessionResult :=
  user <- readUser ;;
  call ContextCookies ;;
  cookies <- read jar ;;
  let sessionCookie := sessionCookieOf cookies in
  when (match sessionCookie with Some _ => true | None => false end)
    (log LogSessionCookieFound) ;;
  match sessionResult (fst user) (snd user) sessionCookie with
  | Some result => log LogSuccess ;; ret result
  | None => log LogIncomplete ;; onIncomplete ;; return_null
  end.

(** Launch and steps 1 to 6 (:73-512). *)
Definition signIn (a : Args) : M unit :=
  call EnsureStorageDir ;;
  call (LaunchPersistentContext ("github_" ++ username a)) ;;
  assign set_context ;;
  call ApplyStealth ;;
  reuse <- read (has_pages env) ;;
  when (negb reuse) (call NewPage) ;;
  assign set_page ;;
  call (Goto (baseUrl a ++ "/login")) ;;
  randomDelay 1000 2000 ;;
  currentPageUrl <- read (page_url env) ;;
  let onLogin := includes currentPageUrl "/login" in
  detectExistingSession (baseUrl a) currentPageUrl onLogin ;;
  when onLogin (thirdPartyLogin a).

(** The [try] block of [loginAndGetSession] (:73-582). *)
Definition body (a : Args) : M SessionResult :=
  signIn a ;;
  extractSession (ret tt).

(** [cookie.domain.includes('agentrouter.org')] *)
Definition isAgentRouter (c : Cookie) : bool :=
  includes (domain c) "agentrouter.org".

(** [page && !page.isClosed()] *)
Definition pageOpen : M bool :=
  p <- read page ;;
  closed <- read (page_isClosed env) ;;
  ret (p && negb closed).

(** The non-sticky provider's extra cleanup (:591-624). *)
Definition cleanAgentRouter : M unit :=
  log LogCleanAgentRouter ;;
  hasContext <- read context ;;
  when hasContext
    (call ContextCookies ;;
     allCookies <- read jar ;;
     let agentRouterCookies := List.filter isAgentRouter allCookies in
     when (Nat.ltb 0 (List.length agentRouterCookies))
       (call ClearCookies ;;
        let otherCookies :=
          List.filter (fun c => negb (isAgentRouter c)) allCookies in
        when (Nat.ltb 0 (List.length otherCookies))
          (call (AddCookies otherCookies)) ;;
        log (LogCookiesCleared (List.length agentRouterCookies)))) ;;
  open <- pageOpen ;;
  when open
    (try_catch (call ClearStorage) (ret tt) ;;
     log LogStorageCleared).

(** The [finally] block (:588-631), with its own [try]/[catch]. *)
Definition cleanup (base : string) : M unit :=
  try_catch
    (when (includes base "agentrouter.org") cleanAgentRouter ;;
     open <- pageOpen ;;
     when open (call PageClose) ;;
     hasContext <- read context ;;
     when hasContext (call ContextClose) ;;
     log LogStateSaved)
    (log LogCleanupWarning).

(** [try { body } catch { log; return null } finally { cleanup }] *)
Definition finish {A} (o : Outcome A * World) (onError cleaning : M unit)
  : option A * World :=
  match o with
  | (Ok result, w) => (Some result, snd (cleaning w))
  | (ReturnNull, w) => (None, snd (cleaning w))
  | (Throw, w) => (None, snd (cleaning (snd (onError w))))
  end.

(** [let context = null; let page = null;] (:70-71): a run declares its
    handles anew. *)
Definition declare_context_page (w : World) : World :=
  {| clock := clock w; jar := jar w; browser := browser w;
     context := false; page := false; trace := trace w |}.

(** [AnyRouterGitHubSignIn.loginAndGetSession] (:66-633). *)
Definition loginAndGetSession (a : Args) (w : World)
  : option SessionResult * World :=
  finish (body a (declare_context_page w)) (log LogError) (cleanup (baseUrl a)).







(** *** The LinuxDo driver *)

(** [captureAndUploadScreenshot] (:696-758); it never throws, and its
    value, a URL or null, is only printed. *)
Definition captureAndUploadScreenshot : M unit :=
  try_catch
    (open <- pageOpen ;;
     if negb open then log (LogScreenshot "page closed")
     else
       Date_now ;;
       call Screenshot ;;
       call ReadTempFile ;;
       request UploadImage ;;
       uploaded <- read (uploadImage_ok env) ;;
       try_catch (call UnlinkTempFile) (log (LogScreenshot "unlink failed")) ;;
       if uploaded then log (LogScreenshot "uploaded")
       else log (LogScreenshot "upload failed"))
    (log (LogScreenshot "error")).

(** [waitWithScreenshot] (:767-781): screenshot, then rethrow. *)
Definition waitWithScreenshot {A} (waitFn : M A) : M A :=
  try_catch waitFn (captureAndUploadScreenshot ;; throw).

(** [try { if (page && !page.isClosed()) screenshot } catch { log }]
    (:1210-1222, :1231-1240) *)
Definition screenshotIfOpen : M unit :=
  try_catch
    (open <- pageOpen ;; when open captureAndUploadScreenshot)
    (log (LogScreenshot "failed")).

Record LinuxDoArgs : Type := {
  ld_baseUrl : string;
  ld_username : string;
  ld_password : string
}.

(** Steps 2 to 6 of the LinuxDo driver (:915-1139). *)
Definition linuxDoLogin (a : LinuxDoArgs) : M unit :=
  closeAnnouncement ;;
  isButtonVisible <- try_catch (isVisible LinuxDoButton) (ret false) ;;
  when (negb isButtonVisible)
    (call Reload ;; randomDelay 1000 2000 ;; closeAnnouncement) ;;
  call (Click LinuxDoButton) ;;
  call WaitForPopup ;;
  call WaitForLoadState ;;
  assign set_page ;;
  try_catch
    (currentUrl <- read (page_url env) ;;
     when (negb (includes currentUrl "linux.do/login"))
       (call (WaitForURL "linux.do/login")) ;;
     call (WaitForSelector AccountName) ;;
     randomDelay 1000 2000)
    (captureAndUploadScreenshot ;; throw) ;;
  randomDelay 500 1000 ;;
  call (Click AccountName) ;;
  randomDelay 300 600 ;;
  typeChars (ld_username a) 50 150 ;;
  call (Click AccountPassword) ;;
  randomDelay 300 600 ;;
  typeChars (ld_password a) 50 150 ;;
  randomDelay 500 1000 ;;
  call (Click LoginButton) ;;
  waitWithScreenshot (call (WaitForURL "**/oauth2/authorize**")) ;;
  randomDelay 1000 2000 ;;
  waitWithScreenshot (call (WaitForSelector ApproveLink)) ;;
  randomDelay 500 1000 ;;
  call (Click AllowLink) ;;
  awaitCallback (ld_baseUrl a).

(** Launch and steps 1 to 6 of the LinuxDo driver (:811-1139). *)
Definition linuxDoSignIn (a : LinuxDoArgs) : M unit :=
  call Launch ;;
  assign set_browser ;;
  call NewContext ;;
  assign set_context ;;
  call NewPage ;;
  assign set_page ;;
  call (Goto (ld_baseUrl a ++ "/login")) ;;
  randomDelay 1000 2000 ;;
  currentPageUrl <- read (page_url env) ;;
  let onLogin := includes currentPageUrl "/login"
                 || includes currentPageUrl "/register?aff=" in
  detectExistingSession (ld_baseUrl a) currentPageUrl onLogin ;;
  when onLogin (linuxDoLogin a).

(** The [try] block of the LinuxDo [loginAndGetSession] (:811-1225). *)
Definition linuxDoBody (a : LinuxDoArgs) : M SessionResult :=
  linuxDoSignIn a ;;
  extractSession screenshotIfOpen.

(** Its [finally] block (:1243-1253). *)
Definition linuxDoCleanup : M unit :=
  try_catch
    (open <- pageOpen ;;
     when open (call PageClose) ;;
     hasContext <- read context ;;
     when hasContext (call ContextClose) ;;
     hasBrowser <- read browser ;;
     when hasBrowser (call BrowserClose) ;;
     log LogStateSaved)
    (log LogCleanupWarning).

(** [let browser = null; let context = null; let page = null;]
    (:807-809) *)
Definition declare_handles (w : World) : World :=
  {| clock := clock w; jar := jar w; browser := false;
     context := false; page := false; trace := trace w |}.

(** [AnyRouterLinuxDoSignIn.loginAndGetSession] (:804-1254). *)
Definition linuxDoLoginAndGetSession (a : LinuxDoArgs) (w : World)
  : option SessionResult * World :=
  finish (linuxDoBody a (declare_handles w)) (log LogError ;; screenshotIfOpen)
    linuxDoCleanup.

End Driver.

(** *** Sample environments *)

(** [Math.random()] returning 0. *)
Definition zero_frac : UnitFrac :=
  {| num := 0; den := 1; in_unit := conj (Z.le_refl 0) Z.lt_0_1 |}.

Definition no_record : GetResult := {| get_success := true; get_data := Some {| github_device_code := None |} |}.
Definition record_with (code : string) : GetResult :=
  {| get_success := true; get_data := Some {| github_device_code := Some code |} |}.

(** An environment without latency, lag or failures, on a page at [url],
    whose backend answers [record]. *)
Definition calm_env (url : string) (record : World -> GetResult)
    (rejects : Call -> bool) : Env :=
  {| Math_random := fun _ => zero_frac;
     timer_lag := fun _ => 0%N;
     compute_lag := fun _ => 0%N;
     elapsed := fun _ _ => 0%N;
     throws := fun c _ => rejects c;
     site_cookies := fun _ w => jar w;
     request_elapsed := fun _ _ => 0%N;
     request_throws := fun _ _ => false;
     page_url := fun _ => url;
     visible := fun _ _ => true;
     has_pages := fun _ => true;
     page_isClosed := fun _ => false;
     userSelfResponse := fun _ => VNull;
     userSelf_wait := fun _ => Some 0%N;
     localStorage_user := fun _ => None;
     JSON_parse := fun _ => None;
     addAccountLoginInfo := fun _ => {| add_success := false; add_data := None |};
     getAccountLoginInfo := record;
     uploadImage_ok := fun _ => false;
     generateTOTP := fun _ _ => None;
     EMAIL_TO := "" |}.

Definition start_world : World :=
  {| clock := 0; jar := []; browser := false; context := false; page := false;
     trace := [] |}.

Definition stored_at (t0 : Z) (code : string) (w : World) : GetResult :=
  if Z.ltb (clock w) t0 then no_record else record_with code.

Definition late_env : Env := calm_env "" (stored_at 5500 "123456") (fun _ => false).
Definition blank_env : Env := calm_env "" (stored_at 0 "  ") (fun _ => false).
Definition stuck_env : Env :=
  calm_env "" (stored_at 0 "123456")
    (fun c => match c with Click Otp => true | _ => false end).

(** An environment whose record never holds a code. *)
Definition idle_env : Env := calm_env "" (fun _ => no_record) (fun _ => false).

Definition sample_args (base : string) : Args :=
  {| baseUrl := base; accountId := "7"; username := "octo"; password := "pw";
     noticeEmail := None; twofaSecret := None |}.

(** [e] with a record store that rejects every request made at or
    after [since]. *)
Definition rejecting (since : Z) (e : Env) : Env :=
  {| Math_random := Math_random e;
     timer_lag := timer_lag e;
     compute_lag := compute_lag e;
     elapsed := elapsed e;
     throws := throws e;
     site_cookies := site_cookies e;
     request_elapsed := request_elapsed e;
     request_throws := fun _ w => Z.leb since (clock w);
     page_url := page_url e;
     visible := visible e;
     has_pages := has_pages e;
     page_isClosed := page_isClosed e;
     userSelfResponse := userSelfResponse e;
     userSelf_wait := userSelf_wait e;
     localStorage_user := localStorage_user e;
     JSON_parse := JSON_parse e;
     addAccountLoginInfo := addAccountLoginInfo e;
     getAccountLoginInfo := getAccountLoginInfo e;
     uploadImage_ok := uploadImage_ok e;
     generateTOTP := generateTOTP e;
     EMAIL_TO := EMAIL_TO e |}.

(** A record store that is down, and one that goes down after 5 s while
    the record holds a blank code. *)
Definition down_env : Env := rejecting 0 idle_env.
Definition blank_then_down_env : Env := rejecting 5000 blank_env.

(** [e] with a captured [/api/user/self] response. *)
Definition answering (response : Val) (e : Env) : Env :=
  {| Math_random := Math_random e;
     timer_lag := timer_lag e;
     compute_lag := compute_lag e;
     elapsed := elapsed e;
     throws := throws e;
     site_cookies := site_cookies e;
     request_elapsed := request_elapsed e;
     request_throws := request_throws e;
     page_url := page_url e;
     visible := visible e;
     has_pages := has_pages e;
     page_isClosed := page_isClosed e;
     userSelfResponse := fun _ => response;
     userSelf_wait := userSelf_wait e;
     localStorage_user := localStorage_user e;
     JSON_parse := JSON_parse e;
     addAccountLoginInfo := addAccountLoginInfo e;
     getAccountLoginInfo := getAccountLoginInfo e;
     uploadImage_ok := uploadImage_ok e;
     generateTOTP := generateTOTP e;
     EMAIL_TO := EMAIL_TO e |}.

(** A profile that is signed in: the console opens and the site answers
    with the user 42. *)
Definition member_env : Env :=
  answering (VObj [("success", VBool true); ("data", VObj [("id", VNum 42)])])
    (calm_env "https://agentrouter.org/console" (fun _ => no_record)
       (fun _ => false)).

(** A profile with a cookie of the non-sticky provider and one of
    GitHub. *)
Definition agent_cookie : Cookie :=
  {| name := "session"; value := "s1"; domain := ".agentrouter.org"; path := "/" |}.

Definition other_cookie : Cookie :=
  {| name := "user_session"; value := "g1"; domain := "github.com"; path := "/" |}.

Definition cookie_world : World :=
  {| clock := 0; jar := [agent_cookie; other_cookie]; browser := false;
     context := false; page := false; trace := [] |}.


End Checkin.

(** ** Password change (change-password.js; batch-change-password.js, which
    is the second half of the stored [utils/notify.js], cited as [batch]) *)

Module ChangePassword.
Import JS.

(** What [updatePasswordChange] is told.  [increment_error_count] is
    absent from the success report. *)
Record Report : Type := {
  record_id : string;
  status : Z;                           (* 2: changed, 3: failed *)
  increment_error_count : option bool
}.

(** Why a change failed; the source builds a message for each. *)
Inductive Reason : Type :=
| NothingToChange          (* change-password.js:137 *)
| BrowserNotInitialized    (* :148 *)
| LoginCallFailed          (* :224 *)
| LoginRejected            (* :235 *)
| NoUserId                 (* :246 *)
| ChangeCallFailed         (* :309 *)
| ChangeRejected           (* :319 *)
| OperationFailed          (* :388 *)
| BrowserInitFailed        (* :92, batch :130 *)
| ExecutionException.      (* batch :205 *)

(** The value of [changePassword]. *)
Record ChangeResult : Type := {
  cr_success : bool;
  cr_reason : option Reason;     (* the message, when the change failed *)
  cr_userInfo : Val;
  is_api_error : Val             (* undefined on success *)
}.

(** The value of [executeSingleChangePassword]. *)
Record SingleResult : Type := {
  sr_success : bool;
  sr_reason : option Reason;
  sr_userInfo : option Val
}.

Inductive Step : Type :=
| LaunchBrowser | NewContext | ApplyStealth | NewPage    (* initialize *)
| GotoHome                                               (* page.goto(baseUrl) *)
| EvaluateLogin | EvaluateChange | EvaluateUserInfo      (* page.evaluate(fetch ...) *)
| ClearCookies | ClearStorage                            (* clearBrowserData *)
| ClosePage | CloseContext | CloseBrowser.               (* cleanup *)

Inductive Event : Type :=
| Did (s : Step)
| Reported (r : Report)        (* updatePasswordChange(r) was called *)
| Slept (ms : Z)               (* the changer's randomDelay(min, max) *)
| Paused (ms : Z).             (* the batch's randomDelay() *)

Record State : Type := {
  browser : bool;      (* this.browser / this.context / this.page are set *)
  context : bool;
  page : bool;
  trace : list Event
}.

(** What [page.evaluate] hands back from inside the page:
    [{ success, data }], [data] the parsed body. *)
Record Fetched : Type := {
  f_success : bool;
  f_data : Val
}.

Record Env : Type := {
  Math_random : State -> UnitFrac;
  throws : Step -> State -> bool;
  page_isClosed : State -> bool;
  loginResult : State -> Fetched;
  changeResult : State -> Fetched;
  userInfoResult : State -> Fetched;
  report_throws : Report -> State -> bool;   (* updatePasswordChange rejects *)
  report_success : Report -> State -> bool   (* its answer's [success] *)
}.

(** State and exceptions: [None] is a propagating exception. *)
Definition T (A : Type) : Type := State -> option A * State.

Definition ret {A} (a : A) : T A := fun s => (Some a, s).

Definition bind {A B} (m : T A) (k : A -> T B) : T B :=
  fun s =>
    match m s with
    | (Some a, s') => k a s'
    | (None, s') => (None, s')
    end.

Definition try_catch {A} (m handler : T A) : T A :=
  fun s =>
    match m s with
    | (None, s') => handler s'
    | r => r
    end.

(** [try { m } finally { f }] for an [f] that does not throw. *)
Definition try_finally {A} (m : T A) (f : State -> State) : T A :=
  fun s => let (r, s') := m s in (r, f s').

Declare Scope cp_scope.
Delimit Scope cp_scope with cp.
Notation "x <- m ;; k" := (bind m (fun x => k))
  (at level 100, m at next level, right associativity) : cp_scope.
Notation "m ;; k" := (bind m (fun _ => k))
  (at level 100, right associativity) : cp_scope.
Local Open Scope cp_scope.

Definition emit (e : Event) (s : State) : State :=
  {| browser := browser s; context := context s; page := page s;
     trace := trace s ++ [e] |}.

Definition set_handles (b c p : bool) (s : State) : State :=
  {| browser := b; context := c; page := p; trace := trace s |}.

Section Changer.

Variable env : Env.

Definition step (x : Step) : T unit :=
  fun s =>
    let s' := emit (Did x) s in
    if throws env x s then (None, s') else (Some tt, s').

Definition read {A} (f : State -> A) : T A := fun s => (Some (f s), s).

Definition assign (f : State -> State) : T unit := fun s => (Some tt, f s).

Definition when (b : bool) (m : T unit) : T unit := if b then m else ret tt.

(** [getRandomDelay] then [setTimeout] (change-password.js:35). *)
Definition randomDelay (min max : Z) : T unit :=
  fun s => (Some tt, emit (Slept (getRandomDelay (Math_random env s) min max)) s).

(** [updatePasswordChange(r)]; its value is the answer's [success]. *)
Definition updatePasswordChange (r : Report) : T bool :=
  fun s =>
    let s' := emit (Reported r) s in
    if report_throws env r s then (None, s')
    else (Some (report_success env r s), s').

(** [initialize] (change-password.js:44-95); its value is
    [initResult.success]. *)
Definition initialize : T bool :=
  try_catch
    (step LaunchBrowser ;;
     assign (fun s => set_handles true (context s) (page s) s) ;;
     step NewContext ;;
     assign (fun s => set_handles (browser s) true (page s) s) ;;
     step ApplyStealth ;;
     step NewPage ;;
     assign (fun s => set_handles (browser s) (context s) true s) ;;
     ret true)
    (ret false).

(** [clearBrowserData] (:100-119) *)
Definition clearBrowserData : T unit :=
  try_catch
    (c <- read context ;;
     when c (step ClearCookies) ;;
     p <- read page ;;
     closed <- read (page_isClosed env) ;;
     when (p && negb closed) (step ClearStorage))
    (ret tt).

Definition refusal (why : Reason) (api : bool) : ChangeResult :=
  {| cr_success := false; cr_reason := Some why; cr_userInfo := VNull;
     is_api_error := VBool api |}.

(** A string argument that may be null, in a boolean position. *)
Definition provided (x : option string) : bool :=
  match x with
  | Some s => truthy_str s
  | None => false
  end.

(** [v.k]; the TypeError on null is an exception. *)
Definition field (v : Val) (k : string) : T Val :=
  fun s => (get v k, s).

(** [changePassword] (:129-393) *)
Definition changePassword (newUsername newPassword : option string)
  : T ChangeResult :=
  if negb (provided newUsername) && negb (provided newPassword)
  then ret (refusal NothingToChange false)
  else
      b <- read browser ;; c <- read context ;; p <- read page ;;
      if negb b || negb c || negb p then ret (refusal BrowserNotInitialized false)
      else
        try_catch
          (step GotoHome ;;
           randomDelay 2000 3000 ;;
           step EvaluateLogin ;;
           login <- read (loginResult env) ;;
           if negb (f_success login) then ret (refusal LoginCallFailed false)
           else
             ok <- field (f_data login) "success" ;;
             if negb (truthy ok) then ret (refusal LoginRejected true)
             else
               inner <- field (f_data login) "data" ;;
               let apiUser := match get inner "id" with
                              | Some id => id
                              | None => VUndefined   (* data?.id *)
                              end in
               if negb (truthy apiUser) then ret (refusal NoUserId false)
               else
                 step EvaluateChange ;;
                 change <- read (changeResult env) ;;
                 if negb (f_success change) then ret (refusal ChangeCallFailed false)
                 else
                   changed <- field (f_data change) "success" ;;
                   if negb (truthy changed) then ret (refusal ChangeRejected true)
                   else
                     randomDelay 1000 2000 ;;
                     step EvaluateUserInfo ;;
                     info <- read (userInfoResult env) ;;
                     infoOk <- (if f_success info
                                then v <- field (f_data info) "success" ;; ret (truthy v)
                                else ret false) ;;
                     userData <- (if infoOk : bool
                                  then d <- field (f_data info) "data" ;;
                                       field d "id" ;;      (* the report of userData.id *)
                                       ret d
                                  else ret VNull) ;;
                     clearBrowserData ;;
                     ret {| cr_success := true; cr_reason := None;
                            cr_userInfo := userData;
                            is_api_error := VUndefined |})
          (ret (refusal OperationFailed false)).

(** [cleanup] (:399-433): it never throws. *)
Definition cleanup : State -> State :=
  fun s =>
    snd (try_catch
           (p <- read page ;;
            closed <- read (page_isClosed env) ;;
            when (p && negb closed) (step ClosePage) ;;
            c <- read context ;;
            when c (step CloseContext) ;;
            b <- read browser ;;
            when b (step CloseBrowser) ;;
            assign (set_handles false false false))
           (ret tt) s).

(** One entry of the batch's input. *)
Record PasswordChangeData : Type := {
  pc_record_id : string;
  old_username : string;
  old_password : string;
  new_username : option string;
  new_password : option string
}.

Definition report (d : PasswordChangeData) (st : Z) (count : option bool)
  : Report :=
  {| record_id := pc_record_id d; status := st;
     increment_error_count := count |}.

Definition failure (why : option Reason) : SingleResult :=
  {| sr_success := false; sr_reason := why; sr_userInfo := None |}.

(** [executeSingleChangePassword] (batch-change-password.js:100-219).
    [changer] is a new instance: its handles start out null. *)
Definition executeSingleChangePassword (d : PasswordChangeData)
  : T SingleResult :=
  assign (set_handles false false false) ;;
  try_finally
    (try_catch
       (initOk <- initialize ;;
        if negb initOk then
          updatePasswordChange (report d 3 (Some false)) ;;
          ret (failure (Some BrowserInitFailed))
        else
          changeResult <- changePassword (new_username d) (new_password d) ;;
          if cr_success changeResult then
            updatePasswordChange (report d 2 None) ;;
            ret {| sr_success := true; sr_reason := None;
                   sr_userInfo := Some (cr_userInfo changeResult) |}
          else
            let isApiError := is_true (is_api_error changeResult) in
            updatePasswordChange (report d 3 (Some isApiError)) ;;
            ret (failure (cr_reason changeResult)))
       (updatePasswordChange (report d 3 (Some false)) ;;
        ret (failure (Some ExecutionException))))
    cleanup.

(** The batch's [randomDelay] (batch :83-87):
    [Math.floor(Math.random() * 5000) + 5000]. *)
Definition batchDelay (r : UnitFrac) : Z := (num r * 5000) / den r + 5000.

Definition randomDelay5to10 : T unit :=
  fun s => (Some tt, emit (Paused (batchDelay (Math_random env s))) s).

(** [{ record_id, old_username, ...result }] *)
Record BatchEntry : Type := {
  be_record_id : string;
  be_old_username : string;
  be_result : SingleResult
}.

Record BatchSummary : Type := {
  total : nat;
  success : nat;
  failed : nat;
  results : list BatchEntry
}.

(** The loop of [executeBatchChangePassword] (batch :258-279); the
    accumulator is [results], [successCount], [failedCount]. *)
Fixpoint batchLoop (i n : nat) (accountList : list PasswordChangeData)
    (acc : list BatchEntry * nat * nat)
  : T (list BatchEntry * nat * nat) :=
  match accountList with
  | [] => ret acc
  | account :: rest =>
      result <- executeSingleChangePassword account ;;
      let '(results, successCount, failedCount) := acc in
      let entry := {| be_record_id := pc_record_id account;
                      be_old_username := old_username account;
                      be_result := result |} in
      let acc' := if sr_success result
                  then ((results ++ [entry])%list, S successCount, failedCount)
                  else ((results ++ [entry])%list, successCount, S failedCount) in
      when (Nat.ltb i (n - 1)) randomDelay5to10 ;;
      batchLoop (S i) n rest acc'
  end.

(** [executeBatchChangePassword] (batch :250-290) *)
Definition executeBatchChangePassword (accountList : list PasswordChangeData)
  : T BatchSummary :=
  acc <- batchLoop 0 (List.length accountList) accountList ([], 0%nat, 0%nat) ;;
  let '(results, successCount, failedCount) := acc in
  ret {| total := List.length accountList;
         success := successCount;
         failed := failedCount;
         results := results |}.

End Changer.

End ChangePassword.

(** ** The stealth init payload (playwright-stealth.js) *)

Module Stealth.

(** What [Function.prototype.toString] can return. *)
Inductive Source : Type :=
| NativeCode (name : string)    (* [function name() { [native code] }] *)
| Written (line : nat).         (* the text of the function expression
                                   that starts at this line of the payload *)

(** The values a page script can read from the surfaces the payload
    touches.  A function the payload writes is constant: it is given by
    its [name], its text and the value a call returns. *)
Inductive Val : Type :=
| Undefined
| Boolean (b : bool)
| Number (n : Z)
| Infinity
| Seconds                        (* [Date.now() / 1000] when the call is made *)
| Str (s : string)
| Arr (items : list Val)
| Obj (fields : list (string * Val))
| Fun (name : string) (text : Source) (returns : Val)
| Promise (resolved : Val)
| Builtin (what : string).       (* an object of the browser's own *)

Fixpoint assoc (k : string) (fields : list (string * Val)) : Val :=
  match fields with
  | [] => Undefined
  | (k', v) :: rest => if String.eqb k k' then v else assoc k rest
  end.

(** [v.k] *)
Definition field (v : Val) (k : string) : Val :=
  match v with
  | Obj fields => assoc k fields
  | _ => Undefined
  end.

(** An own property: what reading it gives, and whether it may be
    redefined. *)
Record Slot : Type := { configurable : bool; value : Val }.

(** [navigator], [document] and [screen]: the object's own properties and
    those of its prototype. *)
Record Host : Type := {
  own : gmap string Slot;
  prototype : gmap string Slot
}.

(** A function that wraps another one is given by what a call computes. *)
Record Function (B : Type) : Type := {
  fn_name : string;
  fn_text : Source;
  call : B
}.
Arguments fn_name {B} _.
Arguments fn_text {B} _.
Arguments call {B} _.

(** The [thisArg] of a call of [Function.prototype.toString]. *)
Record Callee : Type := {
  is_query : bool;        (* it is [navigator.permissions.query] *)
  is_toString : bool;     (* it is [Function.prototype.toString] *)
  callee_name : string;
  callee_text : Source
}.

(** [Function.prototype.toString].  [apply permissions thisArg]:
    [permissions] tells whether [navigator.permissions] is defined when the
    call is made; [None] is a TypeError. *)
Record ToString : Type := {
  proxied : bool;
  apply : bool -> Callee -> option Source
}.

Record Device : Type := { kind : string; label : string }.

(** [query]'s arguments: whether it is called as a method of
    [navigator.permissions], [window.Notification] when the call is made,
    and [parameters.name]. *)
Definition Query : Type := Function (bool -> option Val -> string -> option Val).
Definition GetParameter : Type := Function (Z -> option Val).

(** The page's global environment, as far as the payload reads or
    writes it.  [None] is [undefined].  What the payload writes without
    [Object.defineProperty] has a field of its own: [navigator.getBattery],
    the [query] of [navigator.permissions] and the [enumerateDevices] of
    [navigator.mediaDevices] are the fields [getBattery], [query] and
    [enumerateDevices], and the maps of [navigator] stand for its other
    properties. *)
Record Page : Type := {
  navigator : Host;
  document : Host;
  screen : Host;
  chrome : option (gmap string Val);          (* window.chrome *)
  query : option Query;                       (* navigator.permissions, its query *)
  WebGLRenderingContext : option GetParameter;   (* its prototype.getParameter *)
  WebGL2RenderingContext : option GetParameter;
  toString : ToString;                        (* Function.prototype.toString *)
  getBattery : option Val;                    (* navigator.getBattery *)
  Notification : option Val;                  (* window.Notification *)
  enumerateDevices : option (Function (list Device));
                                  (* navigator.mediaDevices.enumerateDevices *)
  getTimezoneOffset : Val                     (* Date.prototype.getTimezoneOffset *)
}.

Definition with_navigator (h : Host) (p : Page) : Page :=
  {| navigator := h; document := document p; screen := screen p;
     chrome := chrome p; query := query p;
     WebGLRenderingContext := WebGLRenderingContext p;
     WebGL2RenderingContext := WebGL2RenderingContext p;
     toString := toString p; getBattery := getBattery p;
     Notification := Notification p; enumerateDevices := enumerateDevices p;
     getTimezoneOffset := getTimezoneOffset p |}.

Definition with_document (h : Host) (p : Page) : Page :=
  {| navigator := navigator p; document := h; screen := screen p;
     chrome := chrome p; query := query p;
     WebGLRenderingContext := WebGLRenderingContext p;
     WebGL2RenderingContext := WebGL2RenderingContext p;
     toString := toString p; getBattery := getBattery p;
     Notification := Notification p; enumerateDevices := enumerateDevices p;
     getTimezoneOffset := getTimezoneOffset p |}.

Definition with_screen (h : Host) (p : Page) : Page :=
  {| navigator := navigator p; document := document p; screen := h;
     chrome := chrome p; query := query p;
     WebGLRenderingContext := WebGLRenderingContext p;
     WebGL2RenderingContext := WebGL2RenderingContext p;
     toString := toString p; getBattery := getBattery p;
     Notification := Notification p; enumerateDevices := enumerateDevices p;
     getTimezoneOffset := getTimezoneOffset p |}.

Definition with_chrome (c : option (gmap string Val)) (p : Page) : Page :=
  {| navigator := navigator p; document := document p; screen := screen p;
     chrome := c; query := query p;
     WebGLRenderingContext := WebGLRenderingContext p;
     WebGL2RenderingContext := WebGL2RenderingContext p;
     toString := toString p; getBattery := getBattery p;
     Notification := Notification p; enumerateDevices := enumerateDevices p;
     getTimezoneOffset := getTimezoneOffset p |}.

Definition with_query (q : option Query) (p : Page) : Page :=
  {| navigator := navigator p; document := document p; screen := screen p;
     chrome := chrome p; query := q;
     WebGLRenderingContext := WebGLRenderingContext p;
     WebGL2RenderingContext := WebGL2RenderingContext p;
     toString := toString p; getBattery := getBattery p;
     Notification := Notification p; enumerateDevices := enumerateDevices p;
     getTimezoneOffset := getTimezoneOffset p |}.

Definition with_WebGLRenderingContext (g : option GetParameter) (p : Page) : Page :=
  {| navigator := navigator p; document := document p; screen := screen p;
     chrome := chrome p; query := query p;
     WebGLRenderingContext := g;
     WebGL2RenderingContext := WebGL2RenderingContext p;
     toString := toString p; getBattery := getBattery p;
     Notification := Notification p; enumerateDevices := enumerateDevices p;
     getTimezoneOffset := getTimezoneOffset p |}.

Definition with_WebGL2RenderingContext (g : option GetParameter) (p : Page) : Page :=
  {| navigator := navigator p; document := document p; screen := screen p;
     chrome := chrome p; query := query p;
     WebGLRenderingContext := WebGLRenderingContext p;
     WebGL2RenderingContext := g;
     toString := toString p; getBattery := getBattery p;
     Notification := Notification p; enumerateDevices := enumerateDevices p;
     getTimezoneOffset := getTimezoneOffset p |}.

Definition with_toString (t : ToString) (p : Page) : Page :=
  {| navigator := navigator p; document := document p; screen := screen p;
     chrome := chrome p; query := query p;
     WebGLRenderingContext := WebGLRenderingContext p;
     WebGL2RenderingContext := WebGL2RenderingContext p;
     toString := t; getBattery := getBattery p;
     Notification := Notification p; enumerateDevices := enumerateDevices p;
     getTimezoneOffset := getTimezoneOffset p |}.

Definition with_getBattery (b : option Val) (p : Page) : Page :=
  {| navigator := navigator p; document := document p; screen := screen p;
     chrome := chrome p; query := query p;
     WebGLRenderingContext := WebGLRenderingContext p;
     WebGL2RenderingContext := WebGL2RenderingContext p;
     toString := toString p; getBattery := b;
     Notification := Notification p; enumerateDevices := enumerateDevices p;
     getTimezoneOffset := getTimezoneOffset p |}.

Definition with_Notification (n : option Val) (p : Page) : Page :=
  {| navigator := navigator p; document := document p; screen := screen p;
     chrome := chrome p; query := query p;
     WebGLRenderingContext := WebGLRenderingContext p;
     WebGL2RenderingContext := WebGL2RenderingContext p;
     toString := toString p; getBattery := getBattery p;
     Notification := n; enumerateDevices := enumerateDevices p;
     getTimezoneOffset := getTimezoneOffset p |}.

Definition with_enumerateDevices (e : option (Function (list Device))) (p : Page)
  : Page :=
  {| navigator := navigator p; document := document p; screen := screen p;
     chrome := chrome p; query := query p;
     WebGLRenderingContext := WebGLRenderingContext p;
     WebGL2RenderingContext := WebGL2RenderingContext p;
     toString := toString p; getBattery := getBattery p;
     Notification := Notification p; enumerateDevices := e;
     getTimezoneOffset := getTimezoneOffset p |}.

Definition with_getTimezoneOffset (f : Val) (p : Page) : Page :=
  {| navigator := navigator p; document := document p; screen := screen p;
     chrome := chrome p; query := query p;
     WebGLRenderingContext := WebGLRenderingContext p;
     WebGL2RenderingContext := WebGL2RenderingContext p;
     toString := toString p; getBattery := getBattery p;
     Notification := Notification p; enumerateDevices := enumerateDevices p;
     getTimezoneOffset := f |}.

(** One statement of the payload: [None] is an exception, which leaves
    the page as the statement found it. *)
Definition Stmt : Type := Page -> option Page.

Inductive HostName : Type := Navigator | Document | Screen.

Definition host (o : HostName) (p : Page) : Host :=
  match o with
  | Navigator => navigator p
  | Document => document p
  | Screen => screen p
  end.

Definition with_host (o : HostName) (h : Host) (p : Page) : Page :=
  match o with
  | Navigator => with_navigator h p
  | Document => with_document h p
  | Screen => with_screen h p
  end.

(** [o.name]: the own property, else the prototype's. *)
Definition read (o : HostName) (name : string) (p : Page) : Val :=
  match own (host o p) !! name with
  | Some slot => value slot
  | None =>
      match prototype (host o p) !! name with
      | Some slot => value slot
      | None => Undefined
      end
  end.

(** [delete Object.getPrototypeOf(navigator).webdriver] (:11).  The payload
    reaches the page as text and is evaluated there as a script: [delete]
    on a property that is not configurable gives [false] and no error. *)
Definition delete_webdriver : Stmt :=
  fun p =>
    let nav := navigator p in
    match prototype nav !! "webdriver" with
    | Some slot =>
        if configurable slot
        then Some (with_navigator
                     {| own := own nav;
                        prototype := delete "webdriver" (prototype nav) |} p)
        else Some p
    | None => Some p
    end.

(** [Object.defineProperty(o, name, { get: () => v })]: a new property is
    not configurable; a configurable one stays so; one that is not
    configurable cannot get another getter (TypeError). *)
Definition defineProperty (o : HostName) (name : string) (v : Val) : Stmt :=
  fun p =>
    let h := host o p in
    let defined c :=
      with_host o {| own := <[name := {| configurable := c; value := v |}]> (own h);
                     prototype := prototype h |} p in
    match own h !! name with
    | None => Some (defined false)
    | Some slot => if configurable slot then Some (defined true) else None
    end.

(** [if (!window.chrome) { window.chrome = {}; }] (:17) *)
Definition ensure_chrome : Stmt :=
  fun p =>
    match chrome p with
    | None => Some (with_chrome (Some ∅) p)
    | Some _ => Some p
    end.

(** [window.chrome.name = v] *)
Definition set_chrome (name : string) (v : Val) : Stmt :=
  fun p =>
    match chrome p with
    | None => None
    | Some c => Some (with_chrome (Some (<[name := v]> c)) p)
    end.

Definition listeners (line : nat) : Val :=
  Obj [("addListener", Fun "addListener" (Written line) Undefined);
       ("removeListener", Fun "removeListener" (Written (line + 1)) Undefined);
       ("hasListener", Fun "hasListener" (Written (line + 2)) (Boolean false))].

Definition runtime : Val :=
  Obj [("connect", Fun "connect" (Written 21) Undefined);
       ("sendMessage", Fun "sendMessage" (Written 22) Undefined);
       ("onMessage", listeners 24);
       ("getURL", Fun "getURL" (Written 28) (Str EmptyString));
       ("id", Str "dfhodfhdfhdfhdfhdfhdfhdfhdfhdfhdf");
       ("onConnect", listeners 31);
       ("onMessageExternal", listeners 36)].

Definition loadTimes : Val :=
  Fun EmptyString (Written 41)
    (Obj [("commitLoadTime", Seconds);
          ("connectionInfo", Str "http/1.1");
          ("finishDocumentLoadTime", Seconds);
          ("finishLoadTime", Seconds);
          ("firstPaintAfterLoadTime", Number 0);
          ("firstPaintTime", Seconds);
          ("navigationType", Str "Other");
          ("npnNegotiatedProtocol", Str "http/1.1");
          ("redirectCount", Number 0);
          ("requestTime", Seconds);
          ("startLoadTime", Seconds);
          ("wasAlternateProtocolAvailable", Boolean false);
          ("wasFetchedViaSpdy", Boolean false);
          ("wasNpnNegotiated", Boolean true)]).

Definition csi : Val := Fun EmptyString (Written 57) (Obj []).

Definition app : Val := Obj [("isInstalled", Boolean false)].

Definition connection : Val :=
  Obj [("effectiveType", Str "4g"); ("rtt", Number 50);
       ("downlink", Number 10); ("saveData", Boolean false)].

Definition mimeType (type suffixes description : string) : Val :=
  Obj [("type", Str type); ("suffixes", Str suffixes);
       ("description", Str description)].

Definition plugin (name description filename : string) (first second : Val) : Val :=
  Obj [("name", Str name); ("description", Str description);
       ("filename", Str filename); ("length", Number 2);
       ("0", first); ("1", second)].

Definition pluginArray : Val :=
  Arr [plugin "PDF Viewer" "Portable Document Format" "internal-pdf-viewer"
         (mimeType "application/pdf" "pdf" "Portable Document Format")
         (mimeType "text/pdf" "pdf" "Portable Document Format");
       plugin "Chrome PDF Viewer" "Portable Document Format"
         "mhjfbmdgcfjbbpaeojofohoefgiehjai"
         (mimeType "application/pdf" "pdf" "Portable Document Format")
         (mimeType "text/pdf" "pdf" "Portable Document Format");
       plugin "Native Client" "Native Client Executable" "internal-nacl-plugin"
         (mimeType "application/x-nacl" "nexe" "Native Client Executable")
         (mimeType "application/x-pnacl" "pexe" "Portable Native Client Executable")].

Definition languages : Val := Arr [Str "zh-CN"; Str "zh"; Str "en-US"; Str "en"].

(** The function that replaces [query] (:132-137).  It is an arrow
    function; it calls [originalQuery] as a plain function. *)
Definition patched_query (originalQuery : Query) : Query :=
  {| fn_name := EmptyString;
     fn_text := Written 132;
     call := fun _ notification name =>
       if String.eqb name "notifications" then
         match notification with
         | Some n => Some (Promise (Obj [("state", field n "permission")]))
         | None => None
         end
       else call originalQuery false notification name |}.

(** Section 6 (:131-137): a TypeError when [navigator.permissions] is
    undefined. *)
Definition patch_query : Stmt :=
  fun p =>
    match query p with
    | None => None
    | Some originalQuery => Some (with_query (Some (patched_query originalQuery)) p)
    end.

(** The function that replaces [getParameter] (:141-149, :152-160). *)
Definition patched_getParameter (line : nat) (getParameter : GetParameter)
  : GetParameter :=
  {| fn_name := EmptyString;
     fn_text := Written line;
     call := fun parameter =>
       if Z.eqb parameter 37445 then Some (Str "Intel Inc.")
       else if Z.eqb parameter 37446 then Some (Str "Intel(R) Iris(R) Xe Graphics")
       else call getParameter parameter |}.

(** Section 7: a ReferenceError when the page has no
    [WebGLRenderingContext] or no [WebGL2RenderingContext]. *)
Definition patch_getParameter : Stmt :=
  fun p =>
    match WebGLRenderingContext p with
    | None => None
    | Some getParameter =>
        Some (with_WebGLRenderingContext
                (Some (patched_getParameter 141 getParameter)) p)
    end.

Definition patch_getParameter2 : Stmt :=
  fun p =>
    match WebGL2RenderingContext p with
    | None => None
    | Some getParameter2 =>
        Some (with_WebGL2RenderingContext
                (Some (patched_getParameter 152 getParameter2)) p)
    end.

(** [Function.prototype.toString] as a [thisArg]: a Proxy has its
    target's name, and its text is that of a native function without
    one. *)
Definition itself (t : ToString) : Callee :=
  {| is_query := false;
     is_toString := true;
     callee_name := "toString";
     callee_text := if proxied t then NativeCode EmptyString
                    else NativeCode "toString" |}.

(** The Proxy of section 8 (:166-179).  Its handler reads
    [window.navigator.permissions.query] and [Function.prototype.toString]
    when it is called. *)
Definition proxy (target : ToString) (nativeToStringFunctionString : Source)
  : ToString :=
  {| proxied := true;
     apply := fun permissions thisArg =>
       if negb permissions then None
       else if is_query thisArg then Some (NativeCode "query")
       else if String.eqb (callee_name thisArg) "sendMessage"
            then Some (NativeCode "sendMessage")
       else if is_toString thisArg then Some nativeToStringFunctionString
       else apply target permissions thisArg |}.

Definition has_permissions (p : Page) : bool :=
  match query p with Some _ => true | None => false end.

(** Section 8 (:163-179) *)
Definition patch_toString : Stmt :=
  fun p =>
    match apply (toString p) (has_permissions p) (itself (toString p)) with
    | None => None
    | Some nativeToStringFunctionString =>
        Some (with_toString (proxy (toString p) nativeToStringFunctionString) p)
    end.

Definition batteryStub : Val :=
  Fun EmptyString (Written 191)
    (Promise
       (Obj [("charging", Boolean true);
             ("chargingTime", Number 0);
             ("dischargingTime", Infinity);
             ("level", Number 1);
             ("addEventListener", Fun "addEventListener" (Written 197) Undefined);
             ("removeEventListener",
              Fun "removeEventListener" (Written 198) Undefined)])).

(** Section 10 (:190-200): [if (navigator.getBattery) { ... }] *)
Definition stub_getBattery : Stmt :=
  fun p =>
    match getBattery p with
    | Some _ => Some (with_getBattery (Some batteryStub) p)
    | None => Some p
    end.

Definition notificationStub : Val :=
  Obj [("permission", Str "default");
       ("requestPermission",
        Fun "requestPermission" (Written 206) (Promise (Str "default")))].

(** Section 11 (:203-208): [if (!window.Notification) { ... }] *)
Definition stub_Notification : Stmt :=
  fun p =>
    match Notification p with
    | None => Some (with_Notification (Some notificationStub) p)
    | Some _ => Some p
    end.

Definition not_a_recorder (device : Device) : bool :=
  negb (String.eqb (kind device) "audioinput")
  && negb (String.eqb (kind device) "videoinput").

Definition patched_enumerateDevices
    (originalEnumerateDevices : Function (list Device)) : Function (list Device) :=
  {| fn_name := EmptyString;
     fn_text := Written 213;
     call := List.filter not_a_recorder (call originalEnumerateDevices) |}.

(** Section 12 (:211-220) *)
Definition patch_enumerateDevices : Stmt :=
  fun p =>
    match enumerateDevices p with
    | Some originalEnumerateDevices =>
        Some (with_enumerateDevices
                (Some (patched_enumerateDevices originalEnumerateDevices)) p)
    | None => Some p
    end.

(** Section 14 (:231) *)
Definition set_getTimezoneOffset : Stmt :=
  fun p =>
    Some (with_getTimezoneOffset (Fun EmptyString (Written 231) (Number (-480))) p).

(** [stealthScript] (:9-234), statement by statement; the properties of
    [Object.defineProperties] (:63) are defined in the order they are
    written.  The line it prints at the end is not part of the page. *)
Definition stealthScript : list Stmt :=
  [ delete_webdriver;
    defineProperty Navigator "webdriver" Undefined;
    ensure_chrome;
    set_chrome "runtime" runtime;
    set_chrome "loadTimes" loadTimes;
    set_chrome "csi" csi;
    set_chrome "app" app;
    defineProperty Navigator "platform" (Str "Win32");
    defineProperty Navigator "vendor" (Str "Google Inc.");
    defineProperty Navigator "productSub" (Str "20030107");
    defineProperty Navigator "maxTouchPoints" (Number 0);
    defineProperty Navigator "hardwareConcurrency" (Number 8);
    defineProperty Navigator "deviceMemory" (Number 8);
    defineProperty Navigator "connection" connection;
    defineProperty Navigator "plugins" pluginArray;
    defineProperty Navigator "languages" languages;
    defineProperty Navigator "language" (Str "zh-CN");
    patch_query;
    patch_getParameter;
    patch_getParameter2;
    patch_toString;
    defineProperty Document "hidden" (Boolean false);
    defineProperty Document "visibilityState" (Str "visible");
    stub_getBattery;
    stub_Notification;
    patch_enumerateDevices;
    defineProperty Screen "availWidth" (Number 1920);
    defineProperty Screen "availHeight" (Number 1040);
    defineProperty Screen "width" (Number 1920);
    defineProperty Screen "height" (Number 1080);
    defineProperty Screen "colorDepth" (Number 24);
    defineProperty Screen "pixelDepth" (Number 24);
    set_getTimezoneOffset ].

(** Evaluating a script: statement after statement, until one throws. *)
Fixpoint evaluate (script : list Stmt) (p : Page) : option unit * Page :=
  match script with
  | [] => (Some tt, p)
  | statement :: rest =>
      match statement p with
      | Some p' => evaluate rest p'
      | None => (None, p)
      end
  end.

(** What a page script can look at. *)
Inductive Callable : Type :=
| TheQuery                      (* navigator.permissions.query *)
| TheToString                   (* Function.prototype.toString *)
| Another (name : string) (text : Source).

Inductive Probe : Type :=
| Read (o : HostName) (name : string)            (* o.name *)
| OwnConfigurable (o : HostName) (name : string)
                      (* Object.getOwnPropertyDescriptor(o, name).configurable *)
| Chrome (name : string)                         (* window.chrome.name *)
| PermissionsQuery (name : string)       (* navigator.permissions.query({ name }) *)
| GetParameter1 (parameter : Z)
| GetParameter2 (parameter : Z)
| Stringify (f : Callable)             (* Function.prototype.toString.call(f) *)
| GetBattery                                     (* navigator.getBattery *)
| TheNotification                                (* window.Notification *)
| EnumerateDevices
| GetTimezoneOffset.

Inductive Seen : Type :=
| Value (v : Val)
| Code (text : Source)
| Devices (found : list Device)
| Thrown.

Definition seen (v : option Val) : Seen :=
  match v with Some v => Value v | None => Thrown end.

Definition or_undefined (v : option Val) : Seen :=
  match v with Some v => Value v | None => Value Undefined end.

Definition callee (p : Page) (f : Callable) : option Callee :=
  match f with
  | TheQuery =>
      match query p with
      | Some q => Some {| is_query := true; is_toString := false;
                          callee_name := fn_name q; callee_text := fn_text q |}
      | None => None
      end
  | TheToString => Some (itself (toString p))
  | Another name text =>
      Some {| is_query := false; is_toString := false;
              callee_name := name; callee_text := text |}
  end.

Definition observe (p : Page) (probe : Probe) : Seen :=
  match probe with
  | Read o name => Value (read o name p)
  | OwnConfigurable o name =>
      match own (host o p) !! name with
      | Some slot => Value (Boolean (configurable slot))
      | None => Thrown
      end
  | Chrome name =>
      match chrome p with
      | Some c => or_undefined (c !! name)
      | None => Thrown
      end
  | PermissionsQuery name =>
      match query p with
      | Some q => seen (call q true (Notification p) name)
      | None => Thrown
      end
  | GetParameter1 parameter =>
      match WebGLRenderingContext p with
      | Some g => seen (call g parameter)
      | None => Thrown
      end
  | GetParameter2 parameter =>
      match WebGL2RenderingContext p with
      | Some g => seen (call g parameter)
      | None => Thrown
      end
  | Stringify f =>
      match callee p f with
      | Some thisArg =>
          match apply (toString p) (has_permissions p) thisArg with
          | Some text => Code text
          | None => Thrown
          end
      | None => Thrown
      end
  | GetBattery => or_undefined (getBattery p)
  | TheNotification => or_undefined (Notification p)
  | EnumerateDevices =>
      match enumerateDevices p with
      | Some e => Devices (call e)
      | None => Thrown
      end
  | GetTimezoneOffset =>
      match getTimezoneOffset p with
      | Fun _ _ returns => Value returns
      | _ => Thrown
      end
  end.

(** *** A sample page *)

Definition browser_function {B} (name : string) (f : B) : Function B :=
  {| fn_name := name; fn_text := NativeCode name; call := f |}.

Definition native_toString : ToString :=
  {| proxied := false; apply := fun _ thisArg => Some (callee_text thisArg) |}.

Definition no_properties : Host := {| own := ∅; prototype := ∅ |}.

(** A page of a browser that has neither the battery API nor
    notifications. *)
Definition plain_page : Page :=
  {| navigator :=
       {| own := ∅;
          prototype := {[ "webdriver" := {| configurable := true;
                                            value := Boolean true |} ]} |};
     document := no_properties;
     screen := no_properties;
     chrome := None;
     query := Some (browser_function "query"
                      (fun bound _ _ =>
                         if bound : bool
                         then Some (Promise (Obj [("state", Str "prompt")]))
                         else None));
     WebGLRenderingContext :=
       Some (browser_function "getParameter" (fun _ => Some Undefined));
     WebGL2RenderingContext :=
       Some (browser_function "getParameter" (fun _ => Some Undefined));
     toString := native_toString;
     getBattery := None;
     Notification := None;
     enumerateDevices := None;
     getTimezoneOffset := Builtin "getTimezoneOffset" |}.

End Stealth.

(** ** The command line of the batch (batch-change-password.js, the second
    half of the stored [utils/notify.js]: [validateAccountData] :227-243 and
    the main block :296-357) *)

Module BatchMain.
Import JS.

(** The [error] of a failed validation; the source builds a message of
    the index and, for a missing field, its name. *)
Inductive ValidationError : Type :=
| MissingField (index : nat) (field : string)   (* :231 *)
| NothingNew (index : nat).                      (* :236-239 *)

(** [{ valid: true }] or [{ valid: false, error }] *)
Inductive Validation : Type :=
| Valid
| Invalid (error : ValidationError).

Definition requiredFields : list string :=
  ["record_id"; "old_username"; "old_password"].

(** The loop over [requiredFields] (:229-233): the first field that is
    falsy, if any.  The outer [None] is the TypeError of [data[field]] on
    [null] and [undefined]. *)
Fixpoint firstMissing (data : Val) (fields : list string) : option (option string) :=
  match fields with
  | [] => Some None
  | field :: rest =>
      match get data field with
      | None => None
      | Some v => if negb (truthy v) then Some (Some field) else firstMissing data rest
      end
  end.

(** [validateAccountData(data, index)] (:227-243) *)
Definition validateAccountData (data : Val) (index : nat) : option Validation :=
  match firstMissing data requiredFields with
  | None => None
  | Some (Some field) => Some (Invalid (MissingField index field))
  | Some None =>
      match get data "new_username", get data "new_password" with
      | Some newUsername, Some newPassword =>
          if negb (truthy newUsername) && negb (truthy newPassword)
          then Some (Invalid (NothingNew index))
          else Some Valid
      | _, _ => None
      end
  end.

(** [process.exit(code)] *)
Inductive Exit : Type := Exit0 | Exit1.

(** [Array.isArray(inputData) ? inputData : [inputData]] (:316) *)
Definition accountListOf (inputData : Val) : list Val :=
  match inputData with
  | VArr xs => xs
  | v => [v]
  end.

(** The validation loop (:327-333), from index [i] on: the first error, if
    any.  The outer [None] is a TypeError. *)
Fixpoint validateFrom (i : nat) (accountList : list Val)
  : option (option ValidationError) :=
  match accountList with
  | [] => Some None
  | data :: rest =>
      match validateAccountData data i with
      | None => None
      | Some (Invalid error) => Some (Some error)
      | Some Valid => validateFrom (S i) rest
      end
  end.

Section Main.

(** [JSON.parse]; [None] is a SyntaxError. *)
Variable JSON_parse : string -> option Val.

(** The world [executeBatchChangePassword] acts on, and the batch itself:
    its value is [result.failed], [None] a rejection. *)
Variable World : Type.
Variable executeBatchChangePassword : list Val -> World -> option nat * World.

(** The main block (:299-356), given [process.argv[2]]. *)
Definition main (argv2 : option string) (w : World) : Exit * World :=
  match argv2 with
  | None => (Exit1, w)
  | Some inputJson =>
      if negb (truthy_str inputJson) then (Exit1, w)
      else
        match JSON_parse inputJson with
        | None => (Exit1, w)
        | Some inputData =>
            let accountList := accountListOf inputData in
            if Nat.eqb (List.length accountList) 0 then (Exit1, w)
            else
              match validateFrom 0 accountList with
              | None => (Exit1, w)
              | Some (Some _) => (Exit1, w)
              | Some None =>
                  match executeBatchChangePassword accountList w with
                  | (Some failed, w') =>
                      if Nat.ltb 0 failed then (Exit1, w') else (Exit0, w')
                  | (None, w') => (Exit1, w')
                  end
              end
        end
  end.

End Main.

End BatchMain.

(** ** The notifier (utils/notify.js:1-70) *)

Module Notify.
Import JS.

(** [this.emailUser], [this.emailPass], [this.emailTo] *)
Record NotificationKit : Type := {
  emailUser : string;
  emailPass : string;
  emailTo : string
}.

(** [process.env.X || ''] *)
Definition or_empty (x : option string) : string :=
  match x with
  | Some s => s
  | None => ""
  end.

(** The constructor (:8-12), given the three environment variables. *)
Definition new (EMAIL_USER EMAIL_PASS EMAIL_TO : option string) : NotificationKit :=
  {| emailUser := or_empty EMAIL_USER;
     emailPass := or_empty EMAIL_PASS;
     emailTo := or_empty EMAIL_TO |}.

(** [s.split('@')] *)
Fixpoint split_at (s : string) : list string :=
  match s with
  | EmptyString => [EmptyString]
  | String c s' =>
      if Ascii.eqb c "@" then EmptyString :: split_at s'
      else
        match split_at s' with
        | piece :: pieces => String c piece :: pieces
        | [] => [String c EmptyString]
        end
  end.

(** A value in a template literal. *)
Definition interpolated (x : option string) : string :=
  match x with
  | Some s => s
  | None => "undefined"
  end.

(** The argument of [nodemailer.createTransport] (:28-36). *)
Record Transport : Type := {
  host : string;
  port : Z;
  secure : bool;
  auth_user : string;
  auth_pass : string
}.

(** [mailOptions] (:38-48); an absent key is [None]. *)
Record MailOptions : Type := {
  from : string;
  to : string;
  subject : string;
  html : option string;
  text : option string
}.

(** What a call of [sendEmail] comes to. *)
Inductive Sent (R : Type) : Type :=
| NotConfigured                                      (* the Error of :25 *)
| Rejected (t : Transport) (m : MailOptions)         (* sendMail rejected *)
| Delivered (t : Transport) (m : MailOptions) (result : R).

Arguments NotConfigured {R}.
Arguments Rejected {R} t m.
Arguments Delivered {R} t m result.

Section Kit.

Variable R : Type.

(** [transporter.sendMail]; [None] is a rejection. *)
Variable sendMail : Transport -> MailOptions -> option R.

(** [customEmailTo || this.emailTo] *)
Definition recipient (kit : NotificationKit) (customEmailTo : option string) : string :=
  match customEmailTo with
  | Some s => if truthy_str s then s else emailTo kit
  | None => emailTo kit
  end.

(** [sendEmail(title, content, msgType = 'text', customEmailTo = null)]
    (:21-52); a [msgType] that is not given is [None]. *)
Definition sendEmail (kit : NotificationKit) (title content : string)
    (msgType customEmailTo : option string) : Sent R :=
  let msgType := match msgType with Some t => t | None => "text" end in
  let emailTo := recipient kit customEmailTo in
  if negb (truthy_str (emailUser kit)) || negb (truthy_str (emailPass kit))
     || negb (truthy_str emailTo)
  then NotConfigured
  else
    let transporter :=
      {| host := "smtp." ++ interpolated (nth_error (split_at (emailUser kit)) 1);
         port := 465;
         secure := true;
         auth_user := emailUser kit;
         auth_pass := emailPass kit |} in
    let mailOptions :=
      {| from := "AnyRouter Assistant <" ++ emailUser kit ++ ">";
         to := emailTo;
         subject := title;
         html := if String.eqb msgType "html" then Some content else None;
         text := if String.eqb msgType "html" then None else Some content |} in
    match sendMail transporter mailOptions with
    | Some result => Delivered transporter mailOptions result
    | None => Rejected transporter mailOptions
    end.

End Kit.

End Notify.

(** ** Identity card numbers (utils/idcard-generator.js) *)

Module IdCard.
Import JS.

(** Strings are strings of ASCII characters, as the generator makes
    them. *)

Definition AREA_CODES : list string :=
  [ "110101"; "110102"; "110105"; "110106";
    "310101"; "310104"; "310105"; "310106"; "310107";
    "440101"; "440103"; "440104"; "440105"; "440106"; "440111";
    "440303"; "440304"; "440305"; "440306";
    "330101"; "330102"; "330103"; "330104"; "330105";
    "320101"; "320102"; "320103"; "320104";
    "420101"; "420102"; "420103"; "420104";
    "510101"; "510104"; "510105"; "510106";
    "610101"; "610102"; "610103"; "610104" ].

Definition WEIGHT_FACTORS : list Z :=
  [7; 9; 10; 5; 8; 4; 2; 1; 6; 3; 7; 9; 10; 5; 8; 4; 2].

Definition CHECK_CODE_MAP : list ascii :=
  ["1"; "0"; "X"; "9"; "8"; "7"; "6"; "5"; "4"; "3"; "2"]%char.

(** [/\d/] *)
Definition is_digit (c : ascii) : bool :=
  (Nat.leb 48 (nat_of_ascii c) && Nat.leb (nat_of_ascii c) 57)%bool.

(** [parseInt(c)] for a string of one character; [None] is NaN. *)
Definition digit (c : ascii) : option Z :=
  if is_digit c then Some (Z.of_nat (nat_of_ascii c) - 48) else None.

(** The loop of [calculateCheckCode] (:124-126) over the weights that are
    left; [None] is NaN, which a character that is no digit, or a string
    that is too short, makes of the sum. *)
Fixpoint weightedSum (idCard17 : string) (weights : list Z) {struct weights}
  : option Z :=
  match weights with
  | [] => Some 0
  | weight :: weights' =>
      match idCard17 with
      | EmptyString => None
      | String c rest =>
          match digit c, weightedSum rest weights' with
          | Some d, Some sum => Some (d * weight + sum)
          | _, _ => None
          end
      end
  end.

(** [calculateCheckCode] (:122-129); [None] is [undefined]. *)
Definition calculateCheckCode (idCard17 : string) : option ascii :=
  match weightedSum idCard17 WEIGHT_FACTORS with
  | Some sum => nth_error CHECK_CODE_MAP (Z.to_nat (sum mod 11))
  | None => None
  end.

(** [isLeapYear] (:136-138) *)
Definition isLeapYear (year : Z) : bool :=
  (Z.eqb (year mod 4) 0 && negb (Z.eqb (year mod 100) 0)
   || Z.eqb (year mod 400) 0)%bool.

Definition daysInMonth : list Z := [31; 28; 31; 30; 31; 30; 31; 31; 30; 31; 30; 31].

(** [getDaysInMonth] (:146-152); [None] is [undefined]. *)
Definition getDaysInMonth (year month : Z) : option Z :=
  if (Z.eqb month 2 && isLeapYear year)%bool then Some 29
  else if Z.ltb (month - 1) 0 then None
  else nth_error daysInMonth (Z.to_nat (month - 1)).

(** [Math.floor(Math.random() * k)] *)
Definition randomBelow (r : UnitFrac) (k : Z) : Z := (num r * k) / den r.

(** [n.toString()] *)
Definition toString (n : Z) : string := NilZero.string_of_int (Z.to_int n).

Fixpoint replicate (n : nat) (c : ascii) : string :=
  match n with
  | O => EmptyString
  | S n' => String c (replicate n' c)
  end.

(** [s.padStart(targetLength, '0')] *)
Definition padStart (targetLength : nat) (s : string) : string :=
  replicate (targetLength - String.length s) "0" ++ s.

(** [randomBirthDate] (:158-165), given the three values of
    [Math.random()] in the order they are drawn. *)
Definition randomBirthDate (r1 r2 r3 : UnitFrac) : string :=
  let year := randomBelow r1 (2005 - 1980 + 1) + 1980 in
  let month := randomBelow r2 12 + 1 in
  let day :=
    match getDaysInMonth year month with
    | Some maxDay => toString (randomBelow r3 maxDay + 1)
    | None => "NaN"
    end in
  toString year ++ padStart 2 (toString month) ++ padStart 2 day.

(** [randomSequenceCode] (:171-174) *)
Definition randomSequenceCode (r : UnitFrac) : string :=
  padStart 3 (toString (randomBelow r 999 + 1)).

(** [randomChoice(array)] (:113-115), stringified as a concatenation
    stringifies it. *)
Definition randomChoice (r : UnitFrac) (array : list string) : string :=
  nth (Z.to_nat (randomBelow r (Z.of_nat (List.length array)))) array "undefined".

(** Five values of [Math.random()], in the order one turn of the loop of
    [generateNext] draws them. *)
Record Draw : Type := {
  forArea : UnitFrac;
  forYear : UnitFrac;
  forMonth : UnitFrac;
  forDay : UnitFrac;
  forSequence : UnitFrac
}.

(** The first 17 characters a turn makes (:189-193). *)
Definition idCard17Of (d : Draw) : string :=
  randomChoice (forArea d) AREA_CODES
  ++ randomBirthDate (forYear d) (forMonth d) (forDay d)
  ++ randomSequenceCode (forSequence d).

(** [idCard17 + checkCode] (:196-197) *)
Definition withCheckCode (idCard17 : string) : string :=
  idCard17 ++ match calculateCheckCode idCard17 with
              | Some checkCode => String checkCode EmptyString
              | None => "undefined"
              end.

Definition idCardOf (d : Draw) : string := withCheckCode (idCard17Of d).

(** [c.toUpperCase()] for an ASCII character. *)
Definition toUpperCase (c : ascii) : ascii :=
  let n := nat_of_ascii c in
  if (Nat.leb 97 n && Nat.leb n 122)%bool then ascii_of_nat (n - 32) else c.

Fixpoint all_digits (s : string) : bool :=
  match s with
  | EmptyString => true
  | String c rest => is_digit c && all_digits rest
  end.

(** [validate] (:248-264) *)
Definition validate (idCard : string) : bool :=
  if negb (Nat.eqb (String.length idCard) 18) then false
  else
    let idCard17 := String.substring 0 17 idCard in
    match String.get 17 idCard with
    | None => false
    | Some checkCode =>
        if negb (all_digits idCard17) then false
        else
          match calculateCheckCode idCard17 with
          | Some calculatedCheckCode =>
              Ascii.eqb calculatedCheckCode (toUpperCase checkCode)
          | None => false
          end
    end.

(** The value of the digits [s] begins with, after [acc]. *)
Fixpoint leadingDigits (s : string) (acc : Z) : Z :=
  match s with
  | EmptyString => acc
  | String c rest =>
      match digit c with
      | Some d => leadingDigits rest (10 * acc + d)
      | None => acc
      end
  end.

(** [parseInt(s)] for a string that begins neither with white space, nor
    with a sign, nor with [0x]; [None] is NaN. *)
Definition parseInt (s : string) : option Z :=
  match s with
  | EmptyString => None
  | String c _ => if is_digit c then Some (leadingDigits s 0) else None
  end.

Inductive Gender : Type := Male | Female.

Record IdCardInfo : Type := {
  areaCode : string;
  birthDate : string;
  year : option Z;
  month : option Z;
  day : option Z;
  sequenceCode : string;
  checkCode : option ascii;
  gender : Gender
}.

(** [parseIdCard] (:271-297); [None] is [null]. *)
Definition parseIdCard (idCard : string) : option IdCardInfo :=
  if negb (validate idCard) then None
  else
    let year := String.substring 6 4 idCard in
    let month := String.substring 10 2 idCard in
    let day := String.substring 12 2 idCard in
    let sequenceCode := String.substring 14 3 idCard in
    let genderCode :=
      match String.get 2 sequenceCode with
      | Some c => digit c
      | None => None
      end in
    Some {| areaCode := String.substring 0 6 idCard;
            birthDate := year ++ "-" ++ month ++ "-" ++ day;
            year := parseInt year;
            month := parseInt month;
            day := parseInt day;
            sequenceCode := sequenceCode;
            checkCode := String.get 17 idCard;
            gender := match genderCode with
                      | Some g => if Z.eqb (g mod 2) 1 then Male else Female
                      | None => Female
                      end |}.

(** *** The record of what has been generated *)

(** [this.generatedIdCards], a [Set] (its elements in the order they
    were added), [this.loaded], and the data file ([None]: it is missing
    or cannot be parsed). *)
Record Generator : Type := {
  generatedIdCards : list string;
  loaded : bool;
  dataFile : option (list string);
  drawn : nat                     (* turns of the loop made so far *)
}.

(** What a generator does not decide. *)
Record Env : Type := {
  Math_random : nat -> Draw;               (* the draws of each turn *)
  writeFile_fails : Generator -> bool      (* fs.mkdir or fs.writeFile rejects *)
}.

Definition has (idCard : string) (generated : list string) : bool :=
  existsb (String.eqb idCard) generated.

(** [set.add(x)] *)
Definition add (idCard : string) (generated : list string) : list string :=
  if has idCard generated then generated else (generated ++ [idCard])%list.

(** [new Set(array)] *)
Definition Set_of (array : list string) : list string :=
  fold_left (fun set x => add x set) array [].

(** [loadGenerated] (:73-86) *)
Definition loadGenerated (g : Generator) : Generator :=
  if loaded g then g
  else
    {| generatedIdCards := match dataFile g with
                           | Some idCards => Set_of idCards
                           | None => []
                           end;
       loaded := true;
       dataFile := dataFile g;
       drawn := drawn g |}.

Section Generating.

Variable env : Env.

(** [saveGenerated] (:91-108); [None] is the error it rethrows. *)
Definition saveGenerated (g : Generator) : option unit * Generator :=
  if writeFile_fails env g then (None, g)
  else (Some tt, {| generatedIdCards := generatedIdCards g;
                    loaded := loaded g;
                    dataFile := Some (generatedIdCards g);
                    drawn := drawn g |}).

(** The loop of [generateNext] (:184-208) with [retries] turns to go;
    [None] is the Error thrown after the last one, or that of
    [saveGenerated]. *)
Fixpoint attempt (retries : nat) (g : Generator) : option string * Generator :=
  match retries with
  | O => (None, g)
  | S retries' =>
      let idCard := idCardOf (Math_random env (drawn g)) in
      let g1 := {| generatedIdCards := generatedIdCards g;
                   loaded := loaded g;
                   dataFile := dataFile g;
                   drawn := S (drawn g) |} in
      if negb (has idCard (generatedIdCards g1)) then
        let g2 := {| generatedIdCards := add idCard (generatedIdCards g1);
                     loaded := loaded g1;
                     dataFile := dataFile g1;
                     drawn := drawn g1 |} in
        match saveGenerated g2 with
        | (Some _, g3) => (Some idCard, g3)
        | (None, g3) => (None, g3)
        end
      else attempt retries' g1
  end.

(** [generateNext(maxRetries = 100)] (:181-211); its value is
    [result.idCard]. *)
Definition generateNext (maxRetries : option nat) (g : Generator)
  : option string * Generator :=
  attempt (match maxRetries with Some n => n | None => 100%nat end)
          (loadGenerated g).

(** [generateBatch(count)] (:218-225) *)
Fixpoint generateBatch (count : nat) (g : Generator)
  : option (list string) * Generator :=
  match count with
  | O => (Some [], g)
  | S count' =>
      match generateNext None g with
      | (Some idCard, g1) =>
          match generateBatch count' g1 with
          | (Some idCards, g2) => (Some (idCard :: idCards), g2)
          | (None, g2) => (None, g2)
          end
      | (None, g1) => (None, g1)
      end
  end.

End Generating.

End IdCard.

(** ** Random strings (utils/random-string-generator.js) *)

Module RandomString.
Import JS.

Definition CHARS : string := "abcdefghijklmnopqrstuvwxyz0123456789".

(** [s.charAt(i)]: the empty string when [i] is out of range. *)
Definition charAt (s : string) (i : Z) : string :=
  if Z.ltb i 0 then EmptyString
  else match String.get (Z.to_nat i) s with
       | Some c => String c EmptyString
       | None => EmptyString
       end.

(** [this.generatedStrings] (a [Set], in the order of insertion),
    [this.loaded], the data file ([None]: missing or unreadable) and the
    number of calls of [Math.random()] so far. *)
Record Generator : Type := {
  generatedStrings : list string;
  loaded : bool;
  dataFile : option (list string);
  calls : nat
}.

Record Env : Type := {
  Math_random : nat -> UnitFrac;           (* the value of each call *)
  writeFile_fails : Generator -> bool      (* fs.mkdir or fs.writeFile rejects *)
}.

Definition has (str : string) (generated : list string) : bool :=
  existsb (String.eqb str) generated.

Definition add (str : string) (generated : list string) : list string :=
  if has str generated then generated else (generated ++ [str])%list.

Definition Set_of (array : list string) : list string :=
  fold_left (fun set x => add x set) array [].

(** [loadGenerated] (:26-39) *)
Definition loadGenerated (g : Generator) : Generator :=
  if loaded g then g
  else
    {| generatedStrings := match dataFile g with
                           | Some strings => Set_of strings
                           | None => []
                           end;
       loaded := true;
       dataFile := dataFile g;
       calls := calls g |}.

Section Generating.

Variable env : Env.

(** [Math.floor(Math.random() * k)], with the call that is due. *)
Definition randomBelow (k : Z) (g : Generator) : Z * Generator :=
  let r := Math_random env (calls g) in
  ((num r * k) / den r,
   {| generatedStrings := generatedStrings g; loaded := loaded g;
      dataFile := dataFile g; calls := S (calls g) |}).

(** The loop of [generateRandomString] (:68-74) with [todo] characters to
    go, after [result]. *)
Fixpoint generateRandomStringFrom (todo : nat) (result : string) (g : Generator)
  : string * Generator :=
  match todo with
  | O => (result, g)
  | S todo' =>
      let (i, g1) := randomBelow (Z.of_nat (String.length CHARS)) g in
      generateRandomStringFrom todo' (result ++ charAt CHARS i) g1
  end.

(** [generateRandomString(length)] for an integer [length] *)
Definition generateRandomString (length : Z) (g : Generator) : string * Generator :=
  generateRandomStringFrom (Z.to_nat length) EmptyString g.

(** [saveGenerated] (:44-61); [None] is the error it rethrows. *)
Definition saveGenerated (g : Generator) : option unit * Generator :=
  if writeFile_fails env g then (None, g)
  else (Some tt, {| generatedStrings := generatedStrings g;
                    loaded := loaded g;
                    dataFile := Some (generatedStrings g);
                    calls := calls g |}).

(** The loop of [generateNext] (:89-109) with [retries] turns to go; its
    value is [result.string]. *)
Fixpoint attempt (length : option Z) (retries : nat) (g : Generator)
  : option string * Generator :=
  match retries with
  | O => (None, g)
  | S retries' =>
      let (actualLength, g1) :=
        match length with
        | Some l => (l, g)
        | None => let (n, g') := randomBelow 6 g in (n + 1, g')
        end in
      let (str, g2) := generateRandomString actualLength g1 in
      if negb (has str (generatedStrings g2)) then
        let g3 := {| generatedStrings := add str (generatedStrings g2);
                     loaded := loaded g2;
                     dataFile := dataFile g2;
                     calls := calls g2 |} in
        match saveGenerated g3 with
        | (Some _, g4) => (Some str, g4)
        | (None, g4) => (None, g4)
        end
      else attempt length retries' g2
  end.

(** [generateNext(length = null, maxRetries = 1000)] (:82-112), for a
    [length] that is null or an integer. *)
Definition generateNext (length : option Z) (maxRetries : option nat) (g : Generator)
  : option string * Generator :=
  let g0 := loadGenerated g in
  match length with
  | Some l =>
      if Z.ltb l 1 || Z.ltb 6 l then (None, g0)
      else attempt length (match maxRetries with Some n => n | None => 1000%nat end) g0
  | None =>
      attempt length (match maxRetries with Some n => n | None => 1000%nat end) g0
  end.

End Generating.

End RandomString.

(* ===================================================================== *)
(** * Part II — facts *)
(* ===================================================================== *)

(** ** Delays and strings *)

Module JSFacts.
Import JS.

Lemma getRandomDelay_range (r : UnitFrac) (min max : Z) :
  min <= max -> min <= getRandomDelay r min max <= max.
Proof.
  intros Hle. unfold getRandomDelay.
  destruct r as [n d Hnd]; simpl.
  assert (Hd : 0 < d) by lia.
  assert (H0 : 0 <= n * (max - min + 1) / d).
  { apply Z.div_pos; nia. }
  assert (H1 : n * (max - min + 1) / d < max - min + 1).
  { apply Z.div_lt_upper_bound; nia. }
  lia.
Qed.

Lemma trimStart_nonspace s : has_nonspace (trimStart s) = has_nonspace s.
Proof.
  induction s as [|c s IH]; simpl; [reflexivity|].
  destruct (is_space c) eqn:E; simpl; [exact IH| now rewrite E].
Qed.

Lemma trimEnd_empty s : trimEnd s = "" <-> has_nonspace s = false.
Proof.
  induction s as [|c s IH]; simpl; [tauto|].
  destruct (trimEnd s) eqn:Et.
  - destruct (is_space c); simpl.
    + split; intros _; [apply IH; reflexivity | reflexivity].
    + split; intros H; discriminate.
  - split; intros H; [discriminate|].
    apply orb_false_iff in H as [_ H]. apply IH in H. discriminate.
Qed.

Lemma trim_empty s : trim s = "" <-> has_nonspace s = false.
Proof.
  unfold trim. rewrite trimEnd_empty, trimStart_nonspace. tauto.
Qed.

Lemma has_nonspace_truthy s : has_nonspace s = true -> truthy_str s = true.
Proof. destruct s; simpl; [discriminate | reflexivity]. Qed.

End JSFacts.

(** ** The sign-in drivers *)

Module CheckinFacts.
Import JS Checkin JSFacts.
Local Open Scope js_scope.

(** *** What a block can leave on the trace *)

Section Emits.

Variable env : Env.
Variable P : Event -> Prop.

Definition emits {A} (m : M A) : Prop :=
  forall w, exists l, trace (snd (m w)) = (trace w ++ l)%list /\ Forall P l.

Lemma emits_ret {A} (a : A) : emits (ret a).
Proof. intros w. exists []. simpl. rewrite app_nil_r. auto. Qed.

Lemma emits_bind {A B} (m : M A) (k : A -> M B) :
  emits m -> (forall a, emits (k a)) -> emits (bind m k).
Proof.
  intros Hm Hk w. unfold bind.
  destruct (Hm w) as (l1 & E1 & F1).
  destruct (m w) as [[a| |] w1] eqn:Em; simpl in *.
  - destruct (Hk a w1) as (l2 & E2 & F2).
    exists (l1 ++ l2)%list. rewrite E2, E1, app_assoc. split; [reflexivity|].
    apply Forall_app; auto.
  - eauto.
  - eauto.
Qed.

Lemma emits_try_catch {A} (m h : M A) :
  emits m -> emits h -> emits (try_catch m h).
Proof.
  intros Hm Hh w. unfold try_catch.
  destruct (Hm w) as (l1 & E1 & F1).
  destruct (m w) as [[a| |] w1] eqn:Em; simpl in *; eauto.
  destruct (Hh w1) as (l2 & E2 & F2).
  exists (l1 ++ l2)%list. rewrite E2, E1, app_assoc. split; [reflexivity|].
  apply Forall_app; auto.
Qed.

Lemma emits_return_null {A} : emits (@return_null A).
Proof. intros w. exists []. simpl. rewrite app_nil_r. auto. Qed.

Lemma emits_throw {A} : emits (@throw A).
Proof. intros w. exists []. simpl. rewrite app_nil_r. auto. Qed.

Lemma emits_read {A} (f : World -> A) : emits (read f).
Proof. intros w. exists []. simpl. rewrite app_nil_r. auto. Qed.

Lemma emits_assign (f : World -> World) :
  (forall w, trace (f w) = trace w) -> emits (assign f).
Proof. intros H w. exists []. simpl. rewrite app_nil_r, H. auto. Qed.

Lemma emits_log m : P (Logged m) -> emits (log m).
Proof. intros H w. exists [Logged m]. simpl. auto. Qed.

Lemma emits_Date_now : emits (Date_now env).
Proof. intros w. exists []. simpl. rewrite app_nil_r. auto. Qed.

Lemma emits_randomDelay a b : (forall d, P (Slept d)) -> emits (randomDelay env a b).
Proof. intros H w. eexists [_]. simpl. split; [reflexivity|]. auto. Qed.

Lemma emits_request r : P (Requested r) -> emits (request env r).
Proof.
  intros H w. exists [Requested r]. unfold request.
  destruct (request_throws env r w); simpl; auto.
Qed.

Lemma emits_call c :
  P (Called c) -> (c = ContextClose -> forall j, P (Persisted j)) ->
  emits (call env c).
Proof.
  intros H HC w. unfold call.
  destruct (throws env c w); simpl.
  - exists [Called c]. auto.
  - destruct c; simpl;
      try (eexists [_]; split; [reflexivity | repeat constructor; auto]; fail).
    eexists [_; _]. split; [rewrite <- app_assoc; reflexivity|].
    repeat constructor; auto.
Qed.

Lemma emits_awaitUserSelf : P (Logged LogUserSelfTimeout) -> emits (awaitUserSelf env).
Proof.
  intros H w. unfold awaitUserSelf.
  destruct (userSelf_wait env w) as [d|]; [destruct (N.ltb d 10000)|]; simpl;
    try (exists []; rewrite app_nil_r; auto; fail);
    exists [Logged LogUserSelfTimeout]; auto.
Qed.


Lemma emits_when (b : bool) (m : M unit) : emits m -> emits (when b m).
Proof. intros H. destruct b; simpl; [exact H | apply emits_ret]. Qed.

Lemma emits_isVisible t :
  P (Called (IsVisible t)) -> emits (isVisible env t).
Proof.
  intros H. unfold isVisible. apply emits_bind; [|intros _; apply emits_read].
  apply emits_call; [exact H | discriminate].
Qed.

Lemma emits_typeChars s a b :
  (forall c, P (Called (KeyboardType c))) -> (forall d, P (Slept d)) ->
  emits (typeChars env s a b).
Proof.
  intros Hc Hs. induction s as [|c s IH]; simpl.
  - apply emits_ret.
  - apply emits_bind; [apply emits_call; [auto | discriminate]|intros _].
    apply emits_bind; [apply emits_randomDelay; auto | intros _; exact IH].
Qed.

Lemma emits_pollLoop fuel id acct start max :
  (forall c, P (Called c)) -> (forall d, P (Slept d)) ->
  (forall r, P (Requested r)) ->
  (forall c, P (Logged (LogDeviceCodeDetected c))) -> P (Logged LogPollRetry) ->
  emits (pollLoop env fuel id acct start max).
Proof.
  intros Hc Hs Hr Hd Hp. induction fuel as [|fuel IH]; simpl.
  - apply emits_ret.
  - apply emits_bind; [apply emits_Date_now | intros t].
    destruct (Z.ltb (t - start) max); [|apply emits_ret].
    apply emits_bind; [apply emits_request; auto | intros _].
    apply emits_bind; [apply emits_read | intros r].
    destruct (device_code r).
    + repeat (apply emits_bind; [|intros _]);
        first [apply emits_log; auto | apply emits_call; [auto|discriminate]
              | apply emits_randomDelay; auto | apply emits_ret].
    + repeat (apply emits_bind; [|intros _]);
        first [apply emits_log; auto | apply emits_randomDelay; auto | exact IH].
Qed.

End Emits.

Create HintDb checkin_blocks.
#[export] Hint Unfold body signIn linuxDoSignIn extractSession readUser thirdPartyLogin
  detectExistingSession awaitCallback githubCredentials deviceVerification
  notifyOperator awaitDeviceCode twoFactorChallenge closeAnnouncement cleanup cleanAgentRouter
  pageOpen linuxDoBody linuxDoLogin linuxDoCleanup screenshotIfOpen
  waitWithScreenshot captureAndUploadScreenshot : checkin_blocks.

Ltac emits_step :=
  lazymatch goal with
  | |- emits _ (ret _) => apply emits_ret
  | |- emits _ return_null => apply emits_return_null
  | |- emits _ throw => apply emits_throw
  | |- emits _ (read _) => apply emits_read
  | |- emits _ (assign _) => apply emits_assign; intros; reflexivity
  | |- emits _ (Date_now _) => apply emits_Date_now
  | |- emits _ (bind _ _) => apply emits_bind; [|intros ?]
  | |- emits _ (try_catch _ _) => apply emits_try_catch
  | |- emits _ (log _) => apply emits_log
  | |- emits _ (randomDelay _ _ _) => apply emits_randomDelay; intros
  | |- emits _ (request _ _) => apply emits_request
  | |- emits _ (call _ _) => apply emits_call; [|try discriminate]
  | |- emits _ (awaitUserSelf _) => apply emits_awaitUserSelf
  | |- emits _ (when _ _) => apply emits_when
  | |- emits _ (isVisible _ _) => apply emits_isVisible
  | |- emits _ (typeChars _ _ _ _) => apply emits_typeChars; intros
  | |- emits _ (pollLoop _ _ _ _ _ _) => apply emits_pollLoop; intros
  | |- emits _ (if ?b then _ else _) => destruct b
  | |- emits _ (match ?x with _ => _ end) => destruct x
  | |- emits _ (let _ := _ in _) => cbv zeta
  | |- emits _ _ => progress (autounfold with checkin_blocks)
  end.

Definition not_persisted (e : Event) : Prop :=
  match e with Persisted _ => False | _ => True end.

Lemma body_not_persisted env a : emits not_persisted (body env a).
Proof.
  repeat emits_step; exact I.
Qed.

(** *** Runs that stop at a marked event *)

Section Guarded.

Variable quiet : Event -> Prop.
Variable halted : list Event -> Prop.
Hypothesis halted_after : forall l1 l2,
  Forall quiet l1 -> halted l2 -> halted (l1 ++ l2)%list.

Definition guarded {A} (m : M A) : Prop :=
  forall w, exists l, trace (snd (m w)) = (trace w ++ l)%list /\
    (Forall quiet l \/ (fst (m w) = ReturnNull /\ halted l)).

Lemma guarded_of_emits {A} (m : M A) : emits quiet m -> guarded m.
Proof. intros H w. destruct (H w) as (l & E & F). eauto. Qed.

Lemma guarded_bind {A B} (m : M A) (k : A -> M B) :
  guarded m -> (forall a, guarded (k a)) -> guarded (bind m k).
Proof.
  intros Hm Hk w. unfold bind.
  destruct (Hm w) as (l1 & E1 & H1).
  destruct (m w) as [[a| |] w1] eqn:Em; simpl in *.
  - destruct H1 as [F1|[? _]]; [|discriminate].
    destruct (Hk a w1) as (l2 & E2 & H2).
    exists (l1 ++ l2)%list. rewrite E2, E1, app_assoc. split; [reflexivity|].
    destruct H2 as [F2|[R2 G2]]; [left; apply Forall_app; auto | right; auto].
  - exists l1. split; [assumption|]. destruct H1 as [?|[? ?]]; auto.
  - destruct H1 as [F1|[? _]]; [eauto | discriminate].
Qed.

Lemma guarded_try_catch {A} (m h : M A) :
  guarded m -> guarded h -> guarded (try_catch m h).
Proof.
  intros Hm Hh w. unfold try_catch.
  destruct (Hm w) as (l1 & E1 & H1).
  destruct (m w) as [[a| |] w1] eqn:Em; simpl in *;
    try (exists l1; split; [assumption|]; destruct H1 as [?|[? ?]]; auto; fail).
  destruct H1 as [F1|[? _]]; [|discriminate].
  destruct (Hh w1) as (l2 & E2 & H2).
  exists (l1 ++ l2)%list. rewrite E2, E1, app_assoc. split; [reflexivity|].
  destruct H2 as [F2|[R2 G2]]; [left; apply Forall_app; auto | right; auto].
Qed.

Lemma guarded_when (b : bool) (m : M unit) : guarded m -> guarded (when b m).
Proof.
  intros H. destruct b; simpl; [exact H|].
  apply guarded_of_emits, emits_ret.
Qed.

End Guarded.

Ltac guarded_step closed solve_quiet :=
  first
    [ solve [apply guarded_of_emits; repeat emits_step; solve_quiet]
    | lazymatch goal with
      | |- guarded _ _ (bind _ _) => apply (guarded_bind _ _ closed); [|intros ?]
      | |- guarded _ _ (try_catch _ _) => apply (guarded_try_catch _ _ closed)
      | |- guarded _ _ (when _ _) => apply guarded_when
      | |- guarded _ _ (if ?b then _ else _) => destruct b eqn:?
      | |- guarded _ _ (match ?x with _ => _ end) => destruct x eqn:?
      end ].

Ltac guarded_go closed special side :=
  repeat first
    [ special
    | guarded_step closed side
    | progress (autounfold with checkin_blocks) ].

Definition is2fa (url : string) : bool := includes url "/sessions/two-factor".

Definition quiet6 (e : Event) : Prop :=
  match e with
  | Logged (LogAfterLoginUrl u) => is2fa u = false
  | _ => True
  end.

Definition halted6 (l : list Event) : Prop :=
  exists pre u,
    l = (pre ++ [Logged (LogAfterLoginUrl u); Logged LogTwofaSecretMissing])%list
    /\ is2fa u = true /\ Forall quiet6 pre.

Lemma halted6_after l1 l2 : Forall quiet6 l1 -> halted6 l2 -> halted6 (l1 ++ l2)%list.
Proof.
  intros F (pre & u & -> & Hu & Fp). exists (l1 ++ pre)%list, u.
  rewrite app_assoc. repeat split; auto. apply Forall_app; auto.
Qed.

Ltac quiet6_side := simpl; try exact I; auto.

Lemma guarded6_after_login env a u :
  given (twofaSecret a) = None ->
  guarded quiet6 halted6
    (log (LogAfterLoginUrl u) ;; twoFactorChallenge env a u ;; deviceVerification env a u).
Proof.
  intros Hs. destruct (is2fa u) eqn:Hu.
  - intros w. unfold twoFactorChallenge. fold (is2fa u). rewrite Hu, Hs. simpl.
    eexists [_; _]. split; [rewrite <- app_assoc; reflexivity|].
    right. split; [reflexivity|]. exists [], u. simpl. auto.
  - apply guarded_of_emits.
    unfold twoFactorChallenge, deviceVerification, notifyOperator.
    fold (is2fa u). rewrite Hu.
    repeat emits_step; quiet6_side.
Qed.

Lemma guarded6_body env a :
  given (twofaSecret a) = None -> guarded quiet6 halted6 (body env a).
Proof.
  intros Hs.
  guarded_go halted6_after ltac:(apply guarded6_after_login; exact Hs) quiet6_side.
Qed.

(** *** The polling loop *)

Section Polling.

Variable env : Env.
Variables (loginInfoId account : string) (startTime maxPollingTime : Z).

Let poll (fuel : nat) : M (option bool) :=
  pollLoop env fuel loginInfoId account startTime maxPollingTime.

(** The world when a turn of the loop reads the clock. *)
Definition poll_head (w : World) : World :=
  advance (Z.of_N (compute_lag env w)) w.

(** The record store answers every fetch of the loop. *)
Definition answers : Prop :=
  forall w, request_throws env (GetAccountLoginInfo loginInfoId account) w = false.

(** The world when that turn's fetch has answered. *)
Definition answered (w : World) : World :=
  snd (request env (GetAccountLoginInfo loginInfoId account) (poll_head w)).

(** The code that turn sees. *)
Definition seen (w : World) : option string :=
  device_code (getAccountLoginInfo env (answered w)).

(** The world at the next turn, after a turn that saw no code. *)
Definition retry (w : World) : World :=
  snd ((log LogPollRetry ;; randomDelay env 5000 5500) (answered w)).

(** What the loop does once it has seen [code]. *)
Definition fillCode (code : string) : M (option bool) :=
  log (LogDeviceCodeDetected code) ;;
  call env (Click Otp) ;;
  randomDelay env 300 600 ;;
  call env (Fill Otp code) ;;
  randomDelay env 1000 2000 ;;
  ret (Some true).

Definition in_time (w : World) : bool :=
  Z.ltb (clock (poll_head w) - startTime) maxPollingTime.

Lemma pollLoop_turn fuel w :
  answers ->
  poll (S fuel) w =
    if in_time w then
      match seen w with
      | Some code => fillCode code (answered w)
      | None => poll fuel (retry w)
      end
    else (Ok (Some false), poll_head w).
Proof.
  intros Hans.
  unfold poll, in_time, seen, retry, answered, fillCode. simpl. unfold bind at 1. simpl.
  destruct (Z.ltb _ _); [|reflexivity].
  unfold bind at 1. unfold request. rewrite !Hans. simpl.
  unfold bind at 1. simpl.
  destruct (device_code _); reflexivity.
Qed.

(** Whether it resolves or rejects, a fetch leaves the same world. *)
Lemma answered_eq w :
  answered w =
    emit (Requested (GetAccountLoginInfo loginInfoId account))
      (advance (Z.of_N (request_elapsed env (GetAccountLoginInfo loginInfoId account)
                          (poll_head w)))
         (poll_head w)).
Proof. unfold answered, request. destruct (request_throws _ _ _); reflexivity. Qed.

Lemma clock_poll_head w : clock w <= clock (poll_head w).
Proof. unfold poll_head; simpl. lia. Qed.

Lemma clock_answered w : clock (poll_head w) <= clock (answered w).
Proof. rewrite answered_eq; simpl. lia. Qed.

(** One turn without a code: what it leaves on record, and how long it takes. *)
Lemma retry_spec w :
  exists d,
    5000 <= d <= 5500 /\
    trace (retry w) =
      (trace w ++ [Requested (GetAccountLoginInfo loginInfoId account);
                   Logged LogPollRetry; Slept d])%list /\
    clock (retry w) =
      clock (answered w) + d
      + Z.of_N (timer_lag env (emit (Logged LogPollRetry) (answered w))).
Proof.
  unfold retry. rewrite answered_eq. simpl.
  set (r := Math_random env _).
  exists (getRandomDelay r 5000 5500).
  pose proof (getRandomDelay_range r 5000 5500 ltac:(lia)) as Hr.
  split; [exact Hr|]. split.
  - rewrite <- !app_assoc. reflexivity.
  - lia.
Qed.

Lemma clock_retry w : clock w + 5000 <= clock (retry w).
Proof.
  destruct (retry_spec w) as (d & Hd & _ & ->).
  pose proof (clock_poll_head w). pose proof (clock_answered w). lia.
Qed.


(** The world after [k] turns that saw no code. *)
Fixpoint after_retries (k : nat) (w : World) : World :=
  match k with
  | O => w
  | S k' => after_retries k' (retry w)
  end.

(** What such turns leave on record. *)
Definition retry_event (e : Event) : Prop :=
  match e with
  | Requested (GetAccountLoginInfo _ _) => True
  | Logged LogPollRetry => True
  | Slept d => 5000 <= d <= 5500
  | _ => False
  end.

Lemma after_retries_trace k w :
  exists l, trace (after_retries k w) = (trace w ++ l)%list /\ Forall retry_event l.
Proof.
  revert w. induction k as [|k IH]; intros w; simpl.
  - exists []. rewrite app_nil_r. auto.
  - destruct (IH (retry w)) as (l & E & F).
    destruct (retry_spec w) as (d & Hd & Et & _).
    eexists. rewrite E, Et, <- app_assoc. split; [reflexivity|].
    apply Forall_app; split; [|exact F]. repeat constructor; simpl; auto; lia.
Qed.

Lemma after_retries_clock k w : clock w <= clock (after_retries k w).
Proof.
  revert w. induction k as [|k IH]; intros w; simpl; [lia|].
  pose proof (IH (retry w)). pose proof (clock_retry w). lia.
Qed.

(** The loop in normal form: some turns see no code, then one turn either
    finds the time up or sees a code and fills it in. *)
Lemma pollLoop_normal_form n w :
  answers ->
  maxPollingTime - (clock w - startTime) <= 5000 * Z.of_nat n ->
  exists k,
    (forall i, (i < k)%nat ->
       in_time (after_retries i w) = true /\ seen (after_retries i w) = None) /\
    ((in_time (after_retries k w) = false /\
      poll (S n) w = (Ok (Some false), poll_head (after_retries k w)))
     \/
     (in_time (after_retries k w) = true /\
      exists code, seen (after_retries k w) = Some code /\
        poll (S n) w = fillCode code (answered (after_retries k w)))).
Proof.
  intros Hans. revert w. induction n as [|n IH]; intros w Hfuel.
  - exists 0%nat. split; [intros i Hi; lia|]. left.
    assert (Hout : in_time w = false).
    { unfold in_time. apply Z.ltb_ge. pose proof (clock_poll_head w). lia. }
    simpl. rewrite (pollLoop_turn _ _ Hans), Hout. auto.
  - rewrite (pollLoop_turn _ _ Hans).
    destruct (in_time w) eqn:Hin.
    + destruct (seen w) as [code|] eqn:Hseen.
      * exists 0%nat. split; [intros i Hi; lia|]. right. simpl. eauto.
      * destruct (IH (retry w)) as (k & Hbefore & Hend).
        { pose proof (clock_retry w). lia. }
        exists (S k). split.
        -- intros [|i] Hi; simpl; [auto | apply Hbefore; lia].
        -- simpl. exact Hend.
    + exists 0%nat. split; [intros i Hi; lia|]. left. simpl. auto.
Qed.

(** The fetch of the turn that starts in [w] is rejected. *)
Definition rejected (w : World) : bool :=
  request_throws env (GetAccountLoginInfo loginInfoId account) (poll_head w).

(** A turn of the loop, whether or not the fetch resolves. *)
Lemma pollLoop_any_turn fuel w :
  poll (S fuel) w =
    if in_time w then
      if request_throws env (GetAccountLoginInfo loginInfoId account) (poll_head w)
      then (Throw, answered w)
      else
        match seen w with
        | Some code => fillCode code (answered w)
        | None => poll fuel (retry w)
        end
    else (Ok (Some false), poll_head w).
Proof.
  unfold poll, in_time, seen, retry, answered, fillCode.
  cbn [pollLoop]. unfold bind at 1. unfold Date_now at 1. cbv zeta.
  fold (poll_head w).
  destruct (Z.ltb _ _); [|reflexivity].
  unfold bind at 1. unfold request.
  destruct (request_throws env _ (poll_head w)); [reflexivity|].
  cbv zeta. unfold bind at 1. unfold read at 1.
  destruct (device_code _); reflexivity.
Qed.

(** The loop in normal form when a fetch may be rejected: some turns see
    no code, then one turn finds the time up, or has its fetch rejected,
    or sees a code and fills it in. *)
Lemma pollLoop_runs n w :
  maxPollingTime - (clock w - startTime) <= 5000 * Z.of_nat n ->
  exists k,
    (forall i, (i < k)%nat ->
       in_time (after_retries i w) = true /\
       rejected (after_retries i w) = false /\
       seen (after_retries i w) = None) /\
    ((in_time (after_retries k w) = false /\
      poll (S n) w = (Ok (Some false), poll_head (after_retries k w)))
     \/
     (in_time (after_retries k w) = true /\
      rejected (after_retries k w) = true /\
      poll (S n) w = (Throw, answered (after_retries k w)))
     \/
     (in_time (after_retries k w) = true /\
      rejected (after_retries k w) = false /\
      exists code, seen (after_retries k w) = Some code /\
        poll (S n) w = fillCode code (answered (after_retries k w)))).
Proof.
  revert w. induction n as [|n IH]; intros w Hfuel.
  - exists 0%nat. split; [intros i Hi; lia|]. left.
    assert (Hout : in_time w = false).
    { unfold in_time. apply Z.ltb_ge. pose proof (clock_poll_head w). lia. }
    cbn [after_retries]. rewrite pollLoop_any_turn, Hout. auto.
  - rewrite pollLoop_any_turn. fold (rejected w).
    destruct (in_time w) eqn:Hin.
    2:{ exists 0%nat. split; [intros i Hi; lia|]. left. cbn [after_retries]. auto. }
    destruct (rejected w) eqn:Hrej.
    { exists 0%nat. split; [intros i Hi; lia|]. right. left.
      cbn [after_retries]. auto. }
    destruct (seen w) as [code|] eqn:Hseen.
    + exists 0%nat. split; [intros i Hi; lia|]. right. right.
      cbn [after_retries]. eauto.
    + destruct (IH (retry w)) as (k & Hbefore & Hend).
      { pose proof (clock_retry w). lia. }
      exists (S k). split.
      * intros [|i] Hi; cbn [after_retries]; [auto | apply Hbefore; lia].
      * cbn [after_retries]. exact Hend.
Qed.

(** [pollFuel] is enough for a loop that starts once [startTime] is read. *)
Lemma pollFuel_enough w :
  startTime <= clock w ->
  exists n, pollFuel maxPollingTime = S n /\
    maxPollingTime - (clock w - startTime) <= 5000 * Z.of_nat n.
Proof.
  intros Hs. unfold pollFuel. eexists; split; [reflexivity|].
  rewrite Nat2Z.inj_succ.
  destruct (Z.le_gt_cases 0 maxPollingTime) as [Hpos|Hneg].
  - rewrite Z2Nat.id by (apply Z.div_pos; lia).
    pose proof (Z.mul_succ_div_gt maxPollingTime 5000 ltac:(lia)). lia.
  - assert (0 <= Z.of_nat (Z.to_nat (maxPollingTime / 5000))) by lia. lia.
Qed.

(** Filling in the code: what is on record whether or not the page takes it. *)
Lemma fillCode_trace code w :
  exists rest,
    trace (snd (fillCode code w)) =
      (trace w ++ Logged (LogDeviceCodeDetected code) :: Called (Click Otp) :: rest)%list
    /\ (fst (fillCode code w) = Ok (Some true) \/ fst (fillCode code w) = Throw).
Proof.
  unfold fillCode, bind, log, call, randomDelay, ret; simpl.
  destruct (throws env (Click Otp) _); simpl.
  - exists []. rewrite <- app_assoc. auto.
  - destruct (throws env (Fill Otp code) _); simpl;
      eexists; rewrite <- !app_assoc; simpl; split; [reflexivity | auto | reflexivity | auto].
Qed.

Lemma fillCode_accepted code w :
  (forall w', throws env (Click Otp) w' = false) ->
  (forall w', throws env (Fill Otp code) w' = false) ->
  exists d1 d2 w',
    fillCode code w = (Ok (Some true), w') /\
    trace w' =
      (trace w ++ [Logged (LogDeviceCodeDetected code); Called (Click Otp);
                   Slept d1; Called (Fill Otp code); Slept d2])%list.
Proof.
  intros Hc Hf.
  unfold fillCode, bind, log, call, randomDelay, ret; simpl.
  rewrite Hc; simpl. rewrite Hf; simpl.
  do 3 eexists. split; [reflexivity|]. simpl.
  rewrite <- !app_assoc. reflexivity.
Qed.

End Polling.

(** *** The two-factor step and the expiry of the device code *)

(** What the [finally] block leaves on record. *)
Definition cleanup_event (e : Event) : Prop :=
  match e with
  | Called ContextCookies | Called ClearCookies | Called (AddCookies _)
  | Called ClearStorage | Called PageClose | Called ContextClose
  | Called BrowserClose => True
  | Logged LogCleanAgentRouter | Logged (LogCookiesCleared _)
  | Logged LogStorageCleared | Logged LogStateSaved
  | Logged LogCleanupWarning => True
  | Persisted _ => True
  | _ => False
  end.

Lemma cleanup_emits env base : emits cleanup_event (cleanup env base).
Proof. repeat emits_step; intros; exact I. Qed.

Section Finish.

Variable quiet : Event -> Prop.
Variable halted : list Event -> Prop.

Lemma guarded_finish {A} (m : M A) (onError cleaning : M unit) w :
  guarded quiet halted m ->
  emits quiet onError -> emits quiet cleaning -> emits cleanup_event cleaning ->
  exists l,
    trace (snd (finish (m w) onError cleaning)) = (trace w ++ l)%list /\
    (Forall quiet l \/
     (fst (finish (m w) onError cleaning) = None /\
      exists l1 post, l = (l1 ++ post)%list /\ halted l1 /\ Forall cleanup_event post)).
Proof.
  intros Hm He Hq Hc.
  destruct (Hm w) as (l1 & E1 & H1).
  destruct (m w) as [[r| |] w1] eqn:Em; simpl in *.
  - destruct H1 as [F1|[? _]]; [|discriminate].
    destruct (Hq w1) as (l2 & E2 & F2).
    exists (l1 ++ l2)%list. rewrite E2, E1, app_assoc. split; [reflexivity|].
    left. apply Forall_app; auto.
  - destruct (Hc w1) as (l2 & E2 & F2).
    exists (l1 ++ l2)%list. rewrite E2, E1, app_assoc. split; [reflexivity|].
    destruct H1 as [F1|[_ G1]].
    + left. apply Forall_app; split; [exact F1|].
      destruct (Hq w1) as (l2' & E2' & F2').
      rewrite E2 in E2'. apply app_inv_head in E2'. subst l2'. exact F2'.
    + right. split; [reflexivity|]. eauto.
  - destruct H1 as [F1|[? _]]; [|discriminate].
    destruct (He w1) as (l2 & E2 & F2).
    destruct (Hq (snd (onError w1))) as (l3 & E3 & F3).
    exists (l1 ++ l2 ++ l3)%list. rewrite E3, E2, E1, <- !app_assoc.
    split; [reflexivity|]. left. repeat (apply Forall_app; split); auto.
Qed.

End Finish.

Lemma cleanup_quiet6 e : cleanup_event e -> quiet6 e.
Proof. destruct e as [[]|?|?|[]|?]; simpl; tauto. Qed.

(** Claim C6.  Without a TOTP secret, the two-factor step on a URL of
    the two-factor page logs that the secret is missing and returns null
    at once.  In a whole run, either the URL after the credentials was
    never that of the two-factor page, or the run returns null and the
    trace ends with the URL's line, the missing-secret line and the steps
    of the [finally] block: no login step follows. *)
Theorem twofa_without_secret_fails_at_once (env : Env) (a : Args) (w : World) :
  given (twofaSecret a) = None ->
  (forall u, is2fa u = true ->
     twoFactorChallenge env a u w = (ReturnNull, emit (Logged LogTwofaSecretMissing) w))
  /\
  exists l,
    trace (snd (loginAndGetSession env a w)) = (trace w ++ l)%list /\
    (Forall quiet6 l \/
     (fst (loginAndGetSession env a w) = None /\
      exists pre u post,
        l = (pre ++ [Logged (LogAfterLoginUrl u); Logged LogTwofaSecretMissing]
                 ++ post)%list
        /\ is2fa u = true /\ Forall quiet6 pre /\ Forall cleanup_event post)).
Proof.
  intros Hs. split.
  - intros u Hu. unfold twoFactorChallenge. fold (is2fa u). rewrite Hu, Hs.
    reflexivity.
  - unfold loginAndGetSession.
    destruct (guarded_finish quiet6 halted6 (body env a) (log LogError)
                (cleanup env (baseUrl a)) (declare_context_page w)) as (l & E & H).
    + apply guarded6_body, Hs.
    + apply emits_log. exact I.
    + intros w1. destruct (cleanup_emits env (baseUrl a) w1) as (l & E & F).
      exists l. split; [exact E|]. eapply Forall_impl; [|exact F].
      apply cleanup_quiet6.
    + apply cleanup_emits.
    + exists l. split; [exact E|].
      destruct H as [F|(R & l1 & post & -> & (pre & u & -> & Hu & Fp) & Fc)];
        [left; exact F|].
      right. split; [exact R|]. exists pre, u, post.
      rewrite <- app_assoc. auto.
Qed.

Definition never_set (env : Env) : Prop :=
  forall w info,
    get_data (getAccountLoginInfo env w) = Some info ->
    github_device_code info = None.

Lemma never_set_no_code (r : GetResult) :
  (forall info, get_data r = Some info -> github_device_code info = None) ->
  device_code r = None.
Proof.
  intros H. unfold device_code.
  destruct (get_success r); [|reflexivity].
  destruct (get_data r) as [info|]; [|reflexivity].
  rewrite (H info eq_refl). reflexivity.
Qed.

Definition quiet3 (e : Event) : Prop :=
  match e with
  | Logged LogVerificationTimeout => False
  | _ => True
  end.

Definition halted3 (l : list Event) : Prop :=
  exists pre, l = (pre ++ [Logged LogVerificationTimeout])%list /\ Forall quiet3 pre.

Lemma halted3_after l1 l2 : Forall quiet3 l1 -> halted3 l2 -> halted3 (l1 ++ l2)%list.
Proof.
  intros F (pre & -> & Fp). exists (l1 ++ pre)%list.
  rewrite app_assoc. split; [reflexivity|]. apply Forall_app; auto.
Qed.

Lemma cleanup_quiet3 e : cleanup_event e -> quiet3 e.
Proof. destruct e as [[]|?|?|[]|?]; simpl; tauto. Qed.

Lemma retry_quiet3 e : retry_event e -> quiet3 e.
Proof. destruct e as [?|?|?|[]|?]; simpl; tauto. Qed.

Lemma guarded3_timeout :
  guarded quiet3 halted3 (log LogVerificationTimeout ;; @return_null unit).
Proof.
  intros w. exists [Logged LogVerificationTimeout]. split; [reflexivity|].
  right. split; [reflexivity|]. exists []. auto.
Qed.

Lemma guarded3_body env a : guarded quiet3 halted3 (body env a).
Proof.
  guarded_go halted3_after ltac:(apply guarded3_timeout) ltac:(intros; exact I).
Qed.

(** Reading the clock twice and entering the loop (:417-423). *)
Lemma awaitDeviceCode_start env account id expireTime w :
  let w0 := emit (Logged LogPollingStart) w in
  let w1 := poll_head env w0 in
  let w2 := poll_head env w1 in
  awaitDeviceCode env account id expireTime w =
    (deviceCodeFilled <-
       pollLoop env (pollFuel (expireTime - clock w1)) id account
         (clock w2) (expireTime - clock w1) ;;
     match deviceCodeFilled with
     | Some true => randomDelay env 5000 7000
     | Some false => log LogVerificationTimeout ;; return_null
     | None => throw
     end) w2.
Proof. reflexivity. Qed.

(** What [awaitDeviceCode] does when the record never holds a code: it
    polls until the time is up, or until a fetch is rejected. *)
Lemma awaitDeviceCode_never_set env account id expireTime w :
  never_set env ->
  exists polls w',
    Forall retry_event polls /\
    ((awaitDeviceCode env account id expireTime w = (ReturnNull, w') /\
      expireTime <= clock w' /\
      trace w' =
        (trace w ++ Logged LogPollingStart :: polls
                 ++ [Logged LogVerificationTimeout])%list)
     \/
     (awaitDeviceCode env account id expireTime w = (Throw, w') /\
      (exists atPoll, rejected env id account atPoll = true) /\
      trace w' =
        (trace w ++ Logged LogPollingStart :: polls
                 ++ [Requested (GetAccountLoginInfo id account)])%list)).
Proof.
  intros Hnever.
  rewrite awaitDeviceCode_start. cbv zeta.
  set (w0 := emit (Logged LogPollingStart) w).
  set (w1 := poll_head env w0). set (w2 := poll_head env w1).
  set (maxT := expireTime - clock w1).
  destruct (pollFuel_enough (clock w2) maxT w2 (Z.le_refl _)) as (n & -> & Hn).
  destruct (pollLoop_runs env id account (clock w2) maxT n w2 Hn)
    as (k & _ & [[Hout Hrun]|[(_ & Hrej & Hrun)|(_ & _ & code & Hseen & _)]]).
  3:{ unfold seen in Hseen. rewrite never_set_no_code in Hseen; [discriminate|].
      intros info. apply Hnever. }
  - destruct (after_retries_trace env id account k w2) as (polls & Et & Fp).
    exists polls. eexists. split; [exact Fp|]. left.
    unfold bind at 1. rewrite Hrun. simpl.
    split; [reflexivity|]. simpl. split.
    + unfold in_time in Hout. apply Z.ltb_ge in Hout.
      pose proof (clock_poll_head env w1). fold w2 in H.
      unfold maxT in Hout. unfold poll_head at 1 in Hout. simpl in Hout. lia.
    + rewrite Et. subst w2 w1 w0. simpl. rewrite <- !app_assoc. reflexivity.
  - destruct (after_retries_trace env id account k w2) as (polls & Et & Fp).
    exists polls. eexists. split; [exact Fp|]. right.
    unfold bind at 1. rewrite Hrun.
    split; [reflexivity|]. split; [eexists; exact Hrej|].
    rewrite answered_eq. cbn [trace emit advance poll_head].
    rewrite Et. subst w2 w1 w0. simpl. rewrite <- !app_assoc. reflexivity.
Qed.

(** Claim C3, as amended.  Let the record never hold a device code.  If
    the record store answers every poll, the polling of [awaitDeviceCode]
    ends with [return null]; the clock is then at or past [expireTime];
    what it leaves on the trace is the start line, the polls (requests,
    retry lines and pauses only) and the timeout line, once, at the end.
    Whether or not the store answers, the polling ends either in that way
    or with the exception of a fetch that was rejected: the trace then
    ends with that request and has no timeout line.  A whole run of
    [loginAndGetSession] writes the timeout line at most once, and if it
    does the run returns null and only the [finally] block's steps
    follow; a run whose [try] block throws returns null after the
    [catch] block's report. *)
Theorem device_code_never_set_expires_once (env : Env) :
  never_set env ->
  (forall account id expireTime w,
     answers env id account ->
     exists polls w',
       awaitDeviceCode env account id expireTime w = (ReturnNull, w') /\
       expireTime <= clock w' /\
       trace w' =
         (trace w ++ Logged LogPollingStart :: polls
                  ++ [Logged LogVerificationTimeout])%list /\
       Forall (retry_event) polls)
  /\
  (forall account id expireTime w,
     exists polls w',
       Forall retry_event polls /\
       ((awaitDeviceCode env account id expireTime w = (ReturnNull, w') /\
         expireTime <= clock w' /\
         trace w' =
           (trace w ++ Logged LogPollingStart :: polls
                    ++ [Logged LogVerificationTimeout])%list)
        \/
        (awaitDeviceCode env account id expireTime w = (Throw, w') /\
         (exists atPoll, rejected env id account atPoll = true) /\
         trace w' =
           (trace w ++ Logged LogPollingStart :: polls
                    ++ [Requested (GetAccountLoginInfo id account)])%list)))
  /\
  (forall a w,
     exists l,
       trace (snd (loginAndGetSession env a w)) = (trace w ++ l)%list /\
       (Forall quiet3 l \/
        (fst (loginAndGetSession env a w) = None /\
         exists pre post,
           l = (pre ++ Logged LogVerificationTimeout :: post)%list /\
           Forall quiet3 pre /\ Forall cleanup_event post)))
  /\
  (forall a w atThrow,
     body env a (declare_context_page w) = (Throw, atThrow) ->
     fst (loginAndGetSession env a w) = None /\
     exists post,
       trace (snd (loginAndGetSession env a w))
         = (trace atThrow ++ Logged LogError :: post)%list /\
       Forall cleanup_event post).
Proof.
  intros Hnever. split; [|split; [|split]].
  - intros account id expireTime w Hans.
    destruct (awaitDeviceCode_never_set env account id expireTime w Hnever)
      as (polls & w' & Fp & [(Hrun & Hc & Ht)|(_ & (atPoll & Hrej) & _)]).
    + exists polls, w'. auto.
    + unfold rejected in Hrej. rewrite Hans in Hrej. discriminate.
  - intros account id expireTime w.
    apply awaitDeviceCode_never_set, Hnever.
  - intros a w. unfold loginAndGetSession.
    destruct (guarded_finish quiet3 halted3 (body env a) (log LogError)
                (cleanup env (baseUrl a)) (declare_context_page w)) as (l & E & H).
    + apply guarded3_body.
    + apply emits_log. exact I.
    + intros w1. destruct (cleanup_emits env (baseUrl a) w1) as (l & E & F).
      exists l. split; [exact E|]. eapply Forall_impl; [|exact F].
      apply cleanup_quiet3.
    + apply cleanup_emits.
    + exists l. split; [exact E|].
      destruct H as [F|(R & l1 & post & -> & (pre & -> & Fp) & Fc)];
        [left; exact F|].
      right. split; [exact R|]. exists pre, post.
      rewrite <- app_assoc. auto.
  - intros a w atThrow Hbody. unfold loginAndGetSession. rewrite Hbody.
    cbn [finish fst snd log].
    split; [reflexivity|].
    destruct (cleanup_emits env (baseUrl a) (emit (Logged LogError) atThrow))
      as (post & E & F).
    exists post. split; [|exact F].
    rewrite E. cbn [trace emit]. rewrite <- app_assoc. reflexivity.
Qed.

(** *** Device codes *)

Lemma device_code_spec (r : GetResult) (code : string) :
  device_code r = Some code <->
  get_success r = true /\
  (exists info, get_data r = Some info /\ github_device_code info = Some code) /\
  has_nonspace code = true.
Proof.
  unfold device_code. split.
  - destruct (get_success r); [|discriminate].
    destruct (get_data r) as [info|]; [|discriminate].
    destruct (github_device_code info) as [c|] eqn:Hc; [|discriminate].
    destruct (truthy_str c) eqn:Ht; [|discriminate]. simpl.
    destruct (String.eqb (trim c) "") eqn:Hb; [discriminate|]. simpl.
    intros [= ->]. split; [reflexivity|]. split; [exists info; auto|].
    destruct (has_nonspace code) eqn:Hn; [reflexivity|].
    apply (proj2 (trim_empty _)) in Hn. rewrite Hn in Hb. discriminate.
  - intros (-> & (info & -> & ->) & Hn).
    rewrite (has_nonspace_truthy _ Hn). simpl.
    destruct (String.eqb (trim code) "") eqn:Hb; [|reflexivity].
    apply String.eqb_eq in Hb. apply (proj1 (trim_empty _)) in Hb. congruence.
Qed.

(** Claim C10, as amended.  A device code without a character that is
    not white space counts as no code.  A turn of the loop whose fetch
    resolved and that sees no code asks again after a pause of at least
    5000 ms.  From any start the loop goes through turns that see no code
    until the time is up, and it ends unfilled; or a fetch is rejected,
    and it ends with that exception; or a turn sees a code with a
    character that is not white space, and it fills that in.  When the
    record store answers every poll, the loop ends in the first or the
    last of these ways. *)
Theorem blank_device_code_keeps_polling
    (env : Env) (id account : string) (startTime maxT : Z) :
  (forall r info code,
     get_data r = Some info -> github_device_code info = Some code ->
     has_nonspace code = false -> device_code r = None)
  /\
  (forall fuel w,
     in_time env startTime maxT w = true ->
     rejected env id account w = false ->
     seen env id account w = None ->
     pollLoop env (S fuel) id account startTime maxT w
       = pollLoop env fuel id account startTime maxT (retry env id account w)
     /\ clock w + 5000 <= clock (retry env id account w)
     /\ exists d,
          trace (retry env id account w) =
            (trace w ++ [Requested (GetAccountLoginInfo id account);
                         Logged LogPollRetry; Slept d])%list)
  /\
  (forall w,
     startTime <= clock w ->
     exists k,
       (forall i, (i < k)%nat ->
          in_time env startTime maxT (after_retries env id account i w) = true /\
          rejected env id account (after_retries env id account i w) = false /\
          seen env id account (after_retries env id account i w) = None) /\
       ((in_time env startTime maxT (after_retries env id account k w) = false /\
         pollLoop env (pollFuel maxT) id account startTime maxT w
           = (Ok (Some false), poll_head env (after_retries env id account k w)))
        \/
        (in_time env startTime maxT (after_retries env id account k w) = true /\
         rejected env id account (after_retries env id account k w) = true /\
         pollLoop env (pollFuel maxT) id account startTime maxT w
           = (Throw, answered env id account (after_retries env id account k w)))
        \/
        (in_time env startTime maxT (after_retries env id account k w) = true /\
         rejected env id account (after_retries env id account k w) = false /\
         exists code,
           seen env id account (after_retries env id account k w) = Some code /\
           has_nonspace code = true /\
           pollLoop env (pollFuel maxT) id account startTime maxT w
             = fillCode env code
                 (answered env id account (after_retries env id account k w)))))
  /\
  (forall w,
     answers env id account ->
     startTime <= clock w ->
     exists k,
       (forall i, (i < k)%nat ->
          in_time env startTime maxT (after_retries env id account i w) = true /\
          seen env id account (after_retries env id account i w) = None) /\
       ((in_time env startTime maxT (after_retries env id account k w) = false /\
         pollLoop env (pollFuel maxT) id account startTime maxT w
           = (Ok (Some false), poll_head env (after_retries env id account k w)))
        \/
        (exists code,
           seen env id account (after_retries env id account k w) = Some code /\
           has_nonspace code = true /\
           pollLoop env (pollFuel maxT) id account startTime maxT w
             = fillCode env code
                 (answered env id account (after_retries env id account k w))))).
Proof.
  split; [|split; [|split]].
  - intros r info code Hd Hc Hn.
    destruct (device_code r) as [c|] eqn:E; [|reflexivity].
    apply device_code_spec in E as (_ & (info' & Hd' & Hc') & Hn').
    congruence.
  - intros fuel w Hin Hrej Hseen. unfold rejected in Hrej.
    rewrite pollLoop_any_turn, Hin, Hrej, Hseen.
    split; [reflexivity|]. split; [apply clock_retry|].
    destruct (retry_spec env id account w) as (d & _ & Et & _). eauto.
  - intros w Hs.
    destruct (pollFuel_enough startTime maxT w Hs) as (n & -> & Hn).
    destruct (pollLoop_runs env id account startTime maxT n w Hn)
      as (k & Hbefore & Hend).
    exists k. split; [exact Hbefore|].
    destruct Hend as [?|[?|(Hin & Hrej & code & Hseen & Hrun)]];
      [left; assumption | right; left; assumption|].
    right. right. split; [exact Hin|]. split; [exact Hrej|].
    exists code. split; [exact Hseen|]. split; [|exact Hrun].
    apply device_code_spec in Hseen. tauto.
  - intros w Hans Hs.
    destruct (pollFuel_enough startTime maxT w Hs) as (n & -> & Hn).
    destruct (pollLoop_normal_form env id account startTime maxT n w Hans Hn)
      as (k & Hbefore & Hend).
    exists k. split; [exact Hbefore|].
    destruct Hend as [?|(_ & code & Hseen & Hrun)]; [left; assumption|].
    right. exists code. split; [exact Hseen|]. split; [|exact Hrun].
    apply device_code_spec in Hseen. tauto.
Qed.

Lemma clock_answered_eq env id account v :
  clock (answered env id account v) =
    clock v + Z.of_N (compute_lag env v)
    + Z.of_N (request_elapsed env (GetAccountLoginInfo id account) (poll_head env v)).
Proof. rewrite answered_eq. unfold poll_head. simpl. lia. Qed.

Lemma after_retries_S env id account j v :
  after_retries env id account (S j) v
    = retry env id account (after_retries env id account j v).
Proof.
  revert v. induction j as [|j IH]; intros v; [reflexivity|].
  change (after_retries env id account (S (S j)) v)
    with (after_retries env id account (S j) (retry env id account v)).
  rewrite IH. reflexivity.
Qed.

(** Claim C2, as amended.  Let the record store answer every poll, let
    its record hold the code [code] from the time [t0] on and none before,
    let [t0] be within the polling window, and let the click on the code
    field and its filling not fail.  Then there is a first turn [k] of the loop whose answer
    arrives at or after [t0]; two successive answers are one pause of
    5000 to 5500 ms apart, plus the timer's and the request's delays.  If
    the loop's test [Date.now() - startTime < maxPollingTime] still holds
    when turn [k] starts, the loop ends there, filled: it clicks the field
    and fills in [code] as it is stored.  If the test fails (the code came
    during the last pause before the deadline) the loop ends unfilled,
    whatever the record holds. *)
Theorem stored_code_decides_next_poll
    (env : Env) (id account : string) (startTime maxT t0 : Z)
    (code : string) (w : World) :
  answers env id account ->
  (forall w', t0 <= clock w' -> device_code (getAccountLoginInfo env w') = Some code) ->
  (forall w', clock w' < t0 -> device_code (getAccountLoginInfo env w') = None) ->
  (forall w', throws env (Click Otp) w' = false) ->
  (forall w', throws env (Fill Otp code) w' = false) ->
  startTime <= clock w ->
  t0 <= startTime + maxT ->
  exists k,
    let turn i := after_retries env id account i w in
    (forall i, (i < k)%nat -> clock (answered env id account (turn i)) < t0) /\
    t0 <= clock (answered env id account (turn k)) /\
    (forall i, exists d,
       5000 <= d <= 5500 /\
       clock (answered env id account (turn (S i))) =
         clock (answered env id account (turn i)) + d
         + Z.of_N (timer_lag env (emit (Logged LogPollRetry)
                                    (answered env id account (turn i))))
         + Z.of_N (compute_lag env (turn (S i)))
         + Z.of_N (request_elapsed env (GetAccountLoginInfo id account)
                     (poll_head env (turn (S i))))) /\
    (in_time env startTime maxT (turn k) = true ->
     exists d1 d2 w',
       pollLoop env (pollFuel maxT) id account startTime maxT w
         = (Ok (Some true), w') /\
       trace w' =
         (trace (turn k) ++
            [Requested (GetAccountLoginInfo id account);
             Logged (LogDeviceCodeDetected code); Called (Click Otp); Slept d1;
             Called (Fill Otp code); Slept d2])%list) /\
    (in_time env startTime maxT (turn k) = false ->
     pollLoop env (pollFuel maxT) id account startTime maxT w
       = (Ok (Some false), poll_head env (turn k))).
Proof.
  intros Hans Hstored Hbefore Hclick Hfill Hs Ht0.
  destruct (pollFuel_enough startTime maxT w Hs) as (n & -> & Hn).
  destruct (pollLoop_normal_form env id account startTime maxT n w Hans Hn)
    as (k & Hturns & Hend).
  exists k. cbv zeta.
  assert (Hearly : forall i, (i < k)%nat ->
            clock (answered env id account (after_retries env id account i w)) < t0).
  { intros i Hi. destruct (Hturns i Hi) as [_ Hnone].
    destruct (Z.lt_ge_cases
                (clock (answered env id account (after_retries env id account i w))) t0)
      as [?|Hge]; [assumption|].
    unfold seen in Hnone. rewrite (Hstored _ Hge) in Hnone. discriminate. }
  assert (Hgap : forall i, exists d,
       5000 <= d <= 5500 /\
       clock (answered env id account (after_retries env id account (S i) w)) =
         clock (answered env id account (after_retries env id account i w)) + d
         + Z.of_N (timer_lag env (emit (Logged LogPollRetry)
                     (answered env id account (after_retries env id account i w))))
         + Z.of_N (compute_lag env (after_retries env id account (S i) w))
         + Z.of_N (request_elapsed env (GetAccountLoginInfo id account)
                     (poll_head env (after_retries env id account (S i) w)))).
  { intros i.
    destruct (retry_spec env id account (after_retries env id account i w))
      as (d & Hd & _ & Ec).
    exists d. split; [exact Hd|].
    rewrite (clock_answered_eq env id account (after_retries env id account (S i) w)).
    rewrite after_retries_S at 1. rewrite Ec. lia. }
  split; [exact Hearly|].
  destruct Hend as [[Hout Hrun]|(Hin & c & Hseen & Hrun)].
  - split; [|split; [exact Hgap|split]].
    + unfold in_time in Hout. apply Z.ltb_ge in Hout.
      pose proof (clock_answered env id account (after_retries env id account k w)).
      lia.
    + rewrite Hout. discriminate.
    + intros _. exact Hrun.
  - assert (Hge : t0 <= clock (answered env id account (after_retries env id account k w))).
    { destruct (Z.lt_ge_cases
                  (clock (answered env id account (after_retries env id account k w))) t0)
        as [Hlt|?]; [|assumption].
      unfold seen in Hseen. rewrite (Hbefore _ Hlt) in Hseen. discriminate. }
    unfold seen in Hseen. rewrite (Hstored _ Hge) in Hseen. injection Hseen as <-.
    split; [exact Hge|split; [exact Hgap|split]].
    + intros _.
      destruct (fillCode_accepted env code
                  (answered env id account (after_retries env id account k w))
                  Hclick Hfill) as (d1 & d2 & w' & Hfilled & Et).
      exists d1, d2, w'. rewrite Hrun. split; [exact Hfilled|].
      rewrite Et, answered_eq. cbn [snd trace emit advance].
      rewrite <- app_assoc. reflexivity.
    + rewrite Hin. discriminate.
Qed.

(** *** The session result *)

Definition any_event (e : Event) : Prop := True.

Lemma bind_Ok_inv {A B} (m : M A) (k : A -> M B) w b w' :
  bind m k w = (Ok b, w') ->
  exists a w1, m w = (Ok a, w1) /\ k a w1 = (Ok b, w').
Proof.
  unfold bind. destruct (m w) as [[a| |] w1]; intros H; try discriminate. eauto.
Qed.

Lemma given_Some x s : given x = Some s -> x = Some s /\ s <> "".
Proof.
  unfold given. destruct x as [t|]; [|discriminate].
  destruct (truthy_str t) eqn:E; [|discriminate].
  intros [= ->]. split; [reflexivity|]. intros ->. discriminate.
Qed.

(** The final test, both ways. *)
Lemma sessionResult_spec userData apiU cookie :
  match sessionResult userData apiU cookie with
  | Some r =>
      cookie = Some (session r) /\ session r <> "" /\
      apiU = Some (apiUser r) /\ apiUser r <> "" /\ userInfo r = userData
  | None => given cookie = None \/ given apiU = None
  end.
Proof.
  unfold sessionResult.
  destruct (given cookie) as [s|] eqn:Hc; [|auto].
  destruct (given apiU) as [u|] eqn:Hu; [|auto].
  apply given_Some in Hc as [-> ?]. apply given_Some in Hu as [-> ?].
  simpl. auto.
Qed.

Lemma userIdOf_Some userData u :
  userIdOf userData = Some (Some u) ->
  exists id, get userData "id" = Some id /\ truthy id = true /\ u = String_ id.
Proof.
  unfold userIdOf. destruct (get userData "id") as [id|]; [|discriminate].
  destruct (truthy id) eqn:T; intros [= <-]. eauto.
Qed.

Lemma readUser_id env w userData u w' :
  readUser env w = (Ok (userData, Some u), w') ->
  exists id, get userData "id" = Some id /\ truthy id = true /\ u = String_ id.
Proof.
  unfold readUser, bind, read, call, log, ret, throw. simpl.
  destruct (truthy (userSelfResponse env w) && truthy _).
  - destruct (userIdOf _) as [o|] eqn:E; [|discriminate].
    intros H. injection H as H1 H2 H3. subst. apply userIdOf_Some. exact E.
  - destruct (throws env GetLocalStorageUser w); [discriminate|].
    simpl. destruct (given _) as [str|]; [|discriminate].
    destruct (JSON_parse env str) as [ud|]; [|discriminate].
    destruct (userIdOf ud) as [o|] eqn:E; [|discriminate].
    intros H. injection H as H1 H2 H3. subst. apply userIdOf_Some. exact E.
Qed.

(** [cookies.find((c) => c.name === 'session')] gave [c]: it is the
    first cookie of that name in the list. *)
Definition first_session_cookie (cookies : list Cookie) (c : Cookie) : Prop :=
  exists before after,
    cookies = (before ++ c :: after)%list /\ name c = "session" /\
    forall c', In c' before -> name c' <> "session".

Definition no_session_cookie (cookies : list Cookie) : Prop :=
  forall c, In c cookies -> name c <> "session".

Lemma sessionCookieOf_spec cookies :
  match sessionCookieOf cookies with
  | Some s => exists c, first_session_cookie cookies c /\ value c = s
  | None => no_session_cookie cookies
  end.
Proof.
  unfold sessionCookieOf.
  induction cookies as [|c0 cs IH]; cbn [find]; [intros c []|].
  destruct (String.eqb (name c0) "session") eqn:E.
  - exists c0. split; [|reflexivity]. exists [], cs.
    split; [reflexivity|]. split; [apply String.eqb_eq, E | intros c' []].
  - apply String.eqb_neq in E.
    destruct (find _ cs) as [c|].
    + destruct IH as (c' & (before & after & -> & Hn & Hb) & Hv).
      exists c'. split; [|exact Hv]. exists (c0 :: before), after.
      split; [reflexivity|]. split; [exact Hn|].
      intros x [<-|Hx]; [exact E | apply Hb, Hx].
    + intros x [<-|Hx]; [exact E | apply IH, Hx].
Qed.

Lemma first_session_cookie_found cookies c :
  first_session_cookie cookies c -> sessionCookieOf cookies = Some (value c).
Proof.
  intros (before & after & -> & Hn & Hb). unfold sessionCookieOf.
  induction before as [|c0 before IH]; cbn [find app].
  - rewrite (proj2 (String.eqb_eq _ _) Hn). reflexivity.
  - rewrite (proj2 (String.eqb_neq _ _) (Hb c0 (or_introl eq_refl))).
    apply IH. intros c' Hc'. apply Hb. right. exact Hc'.
Qed.

Lemma no_session_cookie_found cookies :
  no_session_cookie cookies -> sessionCookieOf cookies = None.
Proof.
  intros H. pose proof (sessionCookieOf_spec cookies) as S.
  destruct (sessionCookieOf cookies) as [s|]; [|reflexivity].
  destruct S as (c & (before & after & -> & Hn & _) & _).
  exfalso. apply (H c); [apply in_elt | exact Hn].
Qed.

(** The session token is missing: the jar has no cookie named [session],
    or the first one's value is the empty string. *)
Definition token_missing (cookies : list Cookie) : Prop :=
  no_session_cookie cookies \/
  exists c, first_session_cookie cookies c /\ value c = "".

(** The user identifier is missing: [apiUser] is null or empty. *)
Definition identifier_missing (apiU : option string) : Prop :=
  apiU = None \/ apiU = Some "".

(** What a run that returns [r] has gone through.  The steps before the
    extraction ran to their end, in [atSignedIn]; [readUser] gave the
    result's user data, with a truthy [id] that prints as the result's
    [apiUser]; [context.cookies()], called in [atUser], resolved, and the
    first cookie named [session] of the jar it listed holds the result's
    token. *)
Definition extracted (env : Env) (signing : M unit) (start : World)
    (r : SessionResult) : Prop :=
  exists atSignedIn atUser c id,
    signing start = (Ok tt, atSignedIn) /\
    readUser env atSignedIn = (Ok (userInfo r, Some (apiUser r)), atUser) /\
    throws env ContextCookies atUser = false /\
    first_session_cookie (jar (snd (call env ContextCookies atUser))) c /\
    value c = session r /\ session r <> "" /\
    get (userInfo r) "id" = Some id /\ truthy id = true /\
    apiUser r = String_ id /\ apiUser r <> "".

Lemma readUser_grows env : emits any_event (readUser env).
Proof. repeat emits_step; intros; exact I. Qed.

Lemma given_nonempty s : s <> "" -> given (Some s) = Some s.
Proof.
  intros H. unfold given, truthy_str.
  rewrite (proj2 (String.eqb_neq _ _) H). reflexivity.
Qed.

Lemma sessionResult_Some userData apiU cookie r :
  sessionResult userData apiU cookie = Some r <->
  cookie = Some (session r) /\ session r <> "" /\
  apiU = Some (apiUser r) /\ apiUser r <> "" /\ userInfo r = userData.
Proof.
  split.
  - intros E. pose proof (sessionResult_spec userData apiU cookie) as S.
    rewrite E in S. exact S.
  - intros (-> & Hs & -> & Hu & <-). unfold sessionResult.
    rewrite (given_nonempty _ Hs), (given_nonempty _ Hu). destruct r; reflexivity.
Qed.

Lemma sessionResult_missing userData apiU cookies :
  token_missing cookies \/ identifier_missing apiU ->
  sessionResult userData apiU (sessionCookieOf cookies) = None.
Proof.
  unfold sessionResult.
  intros [[Hnone|(c & Hc & Hv)]|[Hu|Hu]]; try subst apiU.
  - rewrite (no_session_cookie_found _ Hnone). reflexivity.
  - rewrite (first_session_cookie_found _ _ Hc), Hv. reflexivity.
  - destruct (given (sessionCookieOf cookies)); reflexivity.
  - destruct (given (sessionCookieOf cookies)); reflexivity.
Qed.

(** The extraction step, once [readUser] has run to its end: its value
    is what the final test makes of the user and of the jar that
    [context.cookies()] lists. *)
Lemma extractSession_decides env onIncomplete w userData apiU atUser r :
  readUser env w = (Ok (userData, apiU), atUser) ->
  (fst (extractSession env onIncomplete w) = Ok r <->
   throws env ContextCookies atUser = false /\
   sessionResult userData apiU
     (sessionCookieOf (jar (snd (call env ContextCookies atUser)))) = Some r).
Proof.
  intros Hread. unfold extractSession, bind at 1. rewrite Hread.
  unfold bind at 1, call. cbn [fst snd].
  destruct (throws env ContextCookies atUser) eqn:Hcall.
  { cbn. split; [discriminate | intros [? _]; discriminate]. }
  unfold bind at 1, read. cbv zeta. cbn [fst snd jar emit set_jar jar_after].
  set (cookies := jar atUser).
  set (w2 := emit _ _).
  destruct (sessionResult userData apiU (sessionCookieOf cookies)) as [res|] eqn:Eres.
  - unfold bind at 1.
    destruct (when _ _ w2) as [[[]| |] w3] eqn:Ew;
      unfold when, log, ret in Ew; destruct (sessionCookieOf cookies);
      try discriminate; cbn; split; intros H;
      try (injection H as ->; auto); destruct H as [_ H]; injection H as ->;
      reflexivity.
  - unfold bind at 1.
    destruct (when _ _ w2) as [[[]| |] w3] eqn:Ew;
      unfold when, log, ret in Ew; destruct (sessionCookieOf cookies);
      try discriminate; unfold bind, log; cbn;
      destruct (onIncomplete _) as [[| |] ?]; cbn;
      (split; [discriminate | intros [_ ?]; discriminate]).
Qed.

Lemma extractSession_Ok env onIncomplete w r w' :
  extractSession env onIncomplete w = (Ok r, w') ->
  exists userData apiU atUser, readUser env w = (Ok (userData, apiU), atUser).
Proof.
  unfold extractSession. intros H.
  apply bind_Ok_inv in H as ([userData apiU] & w1 & Hread & _). eauto.
Qed.

Lemma signIn_grows env a : emits any_event (signIn env a).
Proof. repeat emits_step; intros; exact I. Qed.

Lemma linuxDoSignIn_grows env a : emits any_event (linuxDoSignIn env a).
Proof. repeat emits_step; intros; exact I. Qed.

Lemma cleanup_grows env base : emits any_event (cleanup env base).
Proof. repeat emits_step; intros; exact I. Qed.

Lemma linuxDoCleanup_grows env : emits any_event (linuxDoCleanup env).
Proof. repeat emits_step; intros; exact I. Qed.

Lemma finish_Some {A} (o : Outcome A * World) (onError cleaning : M unit) r :
  fst (finish o onError cleaning) = Some r <-> fst o = Ok r.
Proof.
  destruct o as [[a| |] w1]; cbn; split; intros [=]; subst; reflexivity.
Qed.

(** A run returns [r] exactly when its extraction step found both parts
    of it. *)
Lemma run_extracted env (signing onIncomplete onError cleaning : M unit) w r :
  fst (finish ((signing ;; extractSession env onIncomplete) w) onError cleaning)
    = Some r
  <-> extracted env signing w r.
Proof.
  rewrite finish_Some. unfold bind at 1. split.
  - destruct (signing w) as [[[]| |] w1] eqn:Hsign; cbn [fst]; try discriminate.
    intros H.
    destruct (extractSession env onIncomplete w1) as [o w2] eqn:Hex.
    cbn [fst] in H. subst o.
    destruct (extractSession_Ok _ _ _ _ _ Hex) as (userData & apiU & atUser & Hread).
    pose proof (proj1 (extractSession_decides env onIncomplete w1 userData apiU
                         atUser r Hread)) as Hd.
    rewrite Hex in Hd. destruct (Hd eq_refl) as [Hcall Hres].
    apply sessionResult_Some in Hres as (Hc & Hs & -> & Hu & <-).
    pose proof (sessionCookieOf_spec (jar (snd (call env ContextCookies atUser))))
      as Hfound.
    rewrite Hc in Hfound. destruct Hfound as (c & Hfirst & Hv).
    destruct (readUser_id _ _ _ _ _ Hread) as (id & Hid & Ht & Hstr).
    exists w1, atUser, c, id. repeat split; assumption.
  - intros (w1 & atUser & c & id & Hsign & Hread & Hcall & Hfirst & Hv & Hs
              & _ & _ & _ & Hu).
    rewrite Hsign.
    apply (extractSession_decides env onIncomplete w1 _ _ atUser r Hread).
    split; [exact Hcall|]. apply sessionResult_Some.
    rewrite (first_session_cookie_found _ _ Hfirst), Hv. auto.
Qed.

(** With the token or the identifier missing, the run returns null. *)
Lemma run_incomplete env (signing onIncomplete onError cleaning : M unit)
    w atSignedIn atUser userData apiU :
  signing w = (Ok tt, atSignedIn) ->
  readUser env atSignedIn = (Ok (userData, apiU), atUser) ->
  token_missing (jar (snd (call env ContextCookies atUser)))
    \/ identifier_missing apiU ->
  fst (finish ((signing ;; extractSession env onIncomplete) w) onError cleaning)
    = None.
Proof.
  intros Hsign Hread Hmiss.
  destruct (fst (finish _ onError cleaning)) as [r|] eqn:E; [|reflexivity].
  exfalso. apply finish_Some in E. unfold bind at 1 in E. rewrite Hsign in E.
  apply (extractSession_decides env onIncomplete _ _ _ atUser r Hread) in E
    as [_ E].
  rewrite (sessionResult_missing _ _ _ Hmiss) in E. discriminate.
Qed.

(** Claim C1.  A run returns a [SessionResult] only with both parts of
    it.  [sessionResult], the test at the end of the extraction step, gives
    a result exactly when the [session] cookie's value and the user's id
    are both there and not empty, and the result is made of these two and
    the user data; if one of them is missing it gives nothing, whatever
    the other is.  A run of [loginAndGetSession], of either driver,
    returns the result [r] exactly when ([extracted]) the steps before the
    extraction ran to their end, [readUser] then gave [r]'s user data,
    with a truthy [id] whose string is [r]'s [apiUser],
    [context.cookies()] resolved, and the first cookie named [session] of
    the jar it listed has [r]'s token as its value.  And when, at the
    extraction step, the token is missing (the jar has no cookie named
    [session], or the first one's value is empty) or the identifier is
    missing (null or empty), the run returns null, whatever the other
    is. *)
Theorem session_result_is_all_or_nothing (env : Env) :
  (forall userData apiU cookie,
     match sessionResult userData apiU cookie with
     | Some r =>
         cookie = Some (session r) /\ session r <> "" /\
         apiU = Some (apiUser r) /\ apiUser r <> "" /\ userInfo r = userData
     | None => given cookie = None \/ given apiU = None
     end)
  /\
  (forall a w r,
     fst (loginAndGetSession env a w) = Some r <->
     extracted env (signIn env a) (declare_context_page w) r)
  /\
  (forall a w atSignedIn atUser userData apiU,
     signIn env a (declare_context_page w) = (Ok tt, atSignedIn) ->
     readUser env atSignedIn = (Ok (userData, apiU), atUser) ->
     token_missing (jar (snd (call env ContextCookies atUser)))
       \/ identifier_missing apiU ->
     fst (loginAndGetSession env a w) = None)
  /\
  (forall a w r,
     fst (linuxDoLoginAndGetSession env a w) = Some r <->
     extracted env (linuxDoSignIn env a) (declare_handles w) r)
  /\
  (forall a w atSignedIn atUser userData apiU,
     linuxDoSignIn env a (declare_handles w) = (Ok tt, atSignedIn) ->
     readUser env atSignedIn = (Ok (userData, apiU), atUser) ->
     token_missing (jar (snd (call env ContextCookies atUser)))
       \/ identifier_missing apiU ->
     fst (linuxDoLoginAndGetSession env a w) = None).
Proof.
  split; [apply sessionResult_spec|].
  split; [intros a w r; apply run_extracted|].
  split; [intros a w atSignedIn atUser userData apiU; apply run_incomplete|].
  split; [intros a w r; apply run_extracted|].
  intros a w atSignedIn atUser userData apiU; apply run_incomplete.
Qed.

(** *** Cookies at cleanup *)




(** Every step but a resolved [context.close()] puts nothing on disk, and
    every step leaves the variable [context] alone. *)
Definition flushes_nothing {A} (m : M A) : Prop :=
  forall w, exists l,
    trace (snd (m w)) = (trace w ++ l)%list /\ Forall not_persisted l /\
    context (snd (m w)) = context w.



(** The closing part of the [finally] block (:626-628). *)
Definition closing (env : Env) : M unit :=
  open <- pageOpen env ;;
  when open (call env PageClose) ;;
  hasContext <- read context ;;
  when hasContext (call env ContextClose) ;;
  log LogStateSaved.







Ltac resolved H :=
  match goal with
  | |- context [throws ?env ?c ?w] =>
      rewrite (H c w eq_refl); cbn [fst snd]
  end.














(** *** One account after the other *)

Lemma emits_finish (P : Event -> Prop) {A} (m : M A) (onError cleaning : M unit) :
  emits P m -> emits P onError -> emits P cleaning ->
  forall w, exists l,
    trace (snd (finish (m w) onError cleaning)) = (trace w ++ l)%list /\ Forall P l.
Proof.
  intros Hm He Hc w. destruct (Hm w) as (l1 & E1 & F1).
  destruct (m w) as [[r| |] w1]; simpl in *.
  - destruct (Hc w1) as (l2 & E2 & F2). exists (l1 ++ l2)%list.
    rewrite E2, E1, app_assoc. split; [reflexivity | apply Forall_app; auto].
  - destruct (Hc w1) as (l2 & E2 & F2). exists (l1 ++ l2)%list.
    rewrite E2, E1, app_assoc. split; [reflexivity | apply Forall_app; auto].
  - destruct (He w1) as (l2 & E2 & F2).
    destruct (Hc (snd (onError w1))) as (l3 & E3 & F3).
    exists (l1 ++ l2 ++ l3)%list. rewrite E3, E2, E1, <- !app_assoc.
    split; [reflexivity | repeat (apply Forall_app; split); auto].
Qed.










(** *** Sample runs *)

(** A code stored 500 ms before the deadline, during the last pause, is
    never asked for; and when the click on the code field is rejected,
    the code that was found is not filled in. *)
Lemma code_stored_in_last_interval_is_missed :
  let run := awaitDeviceCode late_env "acct" "id" 6000 start_world in
  device_code (getAccountLoginInfo late_env (advance 5500 start_world))
    = Some "123456" /\
  fst run = ReturnNull /\
  clock (snd run) = 10000 /\
  trace (snd run) =
    [Logged LogPollingStart;
     Requested (GetAccountLoginInfo "id" "acct"); Logged LogPollRetry; Slept 5000;
     Requested (GetAccountLoginInfo "id" "acct"); Logged LogPollRetry; Slept 5000;
     Logged LogVerificationTimeout] /\
  device_code (getAccountLoginInfo stuck_env start_world) = Some "123456" /\
  awaitDeviceCode stuck_env "acct" "id" 6000 start_world
    = (Throw,
       {| clock := 0; jar := []; browser := false; context := false;
          page := false;
          trace := [Logged LogPollingStart;
                    Requested (GetAccountLoginInfo "id" "acct");
                    Logged (LogDeviceCodeDetected "123456");
                    Called (Click Otp)] |}).
Proof. vm_compute. repeat split. Qed.

(** A code stored 5500 ms after the start, with a minute to go. *)
Lemma stored_code_decides_next_poll_witness :
  exists k,
    5500 <= clock (answered late_env "id" "acct"
                     (after_retries late_env "id" "acct" k start_world)).
Proof.
  destruct (stored_code_decides_next_poll late_env "id" "acct" 0 60000 5500
              "123456" start_world) as (k & _ & Hat & _).
  - intros w'. reflexivity.
  - intros w' Hw. simpl. unfold stored_at.
    destruct (Z.ltb_spec (clock w') 5500); [lia | reflexivity].
  - intros w' Hw. simpl. unfold stored_at.
    destruct (Z.ltb_spec (clock w') 5500); [reflexivity | lia].
  - reflexivity.
  - reflexivity.
  - simpl. lia.
  - lia.
  - exists k. exact Hat.
Defined.

(** A profile whose jar holds the [session] cookie.  When the site
    names the user, the run returns the cookie's value and the user's id;
    when it does not, the run returns null, the cookie notwithstanding. *)
Lemma session_result_witness :
  extracted member_env (signIn member_env (sample_args "https://agentrouter.org"))
    (declare_context_page cookie_world)
    {| session := "s1"; apiUser := "42"; userInfo := VObj [("id", VNum 42)] |} /\
  In agent_cookie (jar cookie_world) /\
  fst (loginAndGetSession idle_env (sample_args "https://agentrouter.org")
         cookie_world) = None.
Proof.
  destruct (session_result_is_all_or_nothing member_env) as (_ & Hsome & _).
  destruct (session_result_is_all_or_nothing idle_env) as (_ & _ & Hnone & _).
  split; [apply Hsome; vm_compute; reflexivity|].
  split; [left; reflexivity|].
  apply (Hnone (sample_args "https://agentrouter.org") cookie_world
           (snd (signIn idle_env (sample_args "https://agentrouter.org")
                   (declare_context_page cookie_world)))
           (snd (readUser idle_env
                   (snd (signIn idle_env (sample_args "https://agentrouter.org")
                           (declare_context_page cookie_world)))))
           VNull None).
  - vm_compute. reflexivity.
  - vm_compute. reflexivity.
  - right. left. reflexivity.
Defined.

(** A record that holds two blanks, with six seconds to go: the loop
    ends unfilled. *)
Lemma blank_device_code_witness :
  device_code (getAccountLoginInfo blank_env start_world) = None /\
  exists k,
    pollLoop blank_env (pollFuel 6000) "id" "acct" 0 6000 start_world
    = (Ok (Some false),
       poll_head blank_env (after_retries blank_env "id" "acct" k start_world)).
Proof.
  destruct (blank_device_code_keeps_polling blank_env "id" "acct" 0 6000)
    as (Hblank & _ & _ & Hruns).
  split.
  - apply (Hblank _ {| github_device_code := Some "  " |} "  "); reflexivity.
  - destruct (Hruns start_world (fun _ => eq_refl) (Z.le_refl 0))
      as (k & _ & [[_ Hout]|(code & Hseen & Hcode & _)]).
    + exists k. exact Hout.
    + exfalso. unfold seen in Hseen.
      assert (Hnone : forall w, device_code (getAccountLoginInfo blank_env w) = None).
      { intros w. cbn [getAccountLoginInfo blank_env calm_env]. unfold stored_at.
        destruct (Z.ltb (clock w) 0); reflexivity. }
      rewrite Hnone in Hseen. discriminate.
Defined.

(** A record that stays empty, with six seconds to go. *)
Lemma device_code_never_set_witness :
  never_set idle_env /\
  exists polls w',
    awaitDeviceCode idle_env "acct" "id" 6000 start_world = (ReturnNull, w') /\
    6000 <= clock w' /\
    trace w' = (Logged LogPollingStart :: polls
                  ++ [Logged LogVerificationTimeout])%list.
Proof.
  assert (H : never_set idle_env).
  { intros w info E. simpl in E. injection E as <-. reflexivity. }
  split; [exact H|].
  destruct (device_code_never_set_expires_once idle_env H) as [Hblock _].
  destruct (Hblock "acct" "id" 6000 start_world (fun _ => eq_refl))
    as (polls & w' & E & Hc & Ht & _).
  exists polls, w'. repeat split; assumption.
Defined.

(** The record store is down: the first fetch is rejected, the polling
    ends there, six seconds before the code expires, and the timeout is
    not reported. *)
Lemma rejected_poll_ends_without_timeout :
  never_set down_env /\
  awaitDeviceCode down_env "acct" "id" 6000 start_world
  = (Throw,
     {| clock := 0; jar := []; browser := false; context := false;
        page := false;
        trace := [Logged LogPollingStart;
                  Requested (GetAccountLoginInfo "id" "acct")] |}).
Proof.
  split; [|vm_compute; reflexivity].
  intros w info E. simpl in E. injection E as <-. reflexivity.
Qed.

(** The record holds a blank code and the store goes down after five
    seconds: the second fetch is rejected and the loop ends, a minute
    being left, without a code. *)
Lemma rejected_poll_ends_the_loop_early :
  github_device_code
    (match get_data (getAccountLoginInfo blank_then_down_env start_world) with
     | Some info => info
     | None => {| github_device_code := None |}
     end) = Some "  " /\
  device_code (getAccountLoginInfo blank_then_down_env start_world) = None /\
  pollLoop blank_then_down_env (pollFuel 60000) "id" "acct" 0 60000 start_world
  = (Throw,
     {| clock := 5000; jar := []; browser := false; context := false;
        page := false;
        trace := [Requested (GetAccountLoginInfo "id" "acct");
                  Logged LogPollRetry; Slept 5000;
                  Requested (GetAccountLoginInfo "id" "acct")] |}).
Proof. vm_compute. repeat split. Qed.

(** The two-factor page without a secret. *)
Lemma twofa_without_secret_witness :
  given (twofaSecret (sample_args "https://anyrouter.top")) = None /\
  twoFactorChallenge idle_env (sample_args "https://anyrouter.top")
    "https://github.com/sessions/two-factor/app" start_world
  = (ReturnNull, emit (Logged LogTwofaSecretMissing) start_world).
Proof.
  split; [reflexivity|].
  destruct (twofa_without_secret_fails_at_once idle_env
              (sample_args "https://anyrouter.top") start_world eq_refl) as [H _].
  apply H. reflexivity.
Defined.



End CheckinFacts.

(** ** Password change *)

Module ChangePasswordFacts.
Import JS ChangePassword JSFacts.
Local Open Scope cp_scope.

Section Leaves.

Variable P : Event -> Prop.

Definition leaves {A} (m : T A) : Prop :=
  forall s, exists l, trace (snd (m s)) = (trace s ++ l)%list /\ Forall P l.

Lemma leaves_ret {A} (a : A) : leaves (ret a).
Proof. intros s. exists []. simpl. rewrite app_nil_r. auto. Qed.

Lemma leaves_bind {A B} (m : T A) (k : A -> T B) :
  leaves m -> (forall a, leaves (k a)) -> leaves (bind m k).
Proof.
  intros Hm Hk s. unfold bind.
  destruct (Hm s) as (l1 & E1 & F1).
  destruct (m s) as [[a|] s1]; simpl in *; [|eauto].
  destruct (Hk a s1) as (l2 & E2 & F2).
  exists (l1 ++ l2)%list. rewrite E2, E1, app_assoc. split; [reflexivity|].
  apply Forall_app; auto.
Qed.

Lemma leaves_try_catch {A} (m h : T A) :
  leaves m -> leaves h -> leaves (try_catch m h).
Proof.
  intros Hm Hh s. unfold try_catch.
  destruct (Hm s) as (l1 & E1 & F1).
  destruct (m s) as [[a|] s1]; simpl in *; [eauto|].
  destruct (Hh s1) as (l2 & E2 & F2).
  exists (l1 ++ l2)%list. rewrite E2, E1, app_assoc. split; [reflexivity|].
  apply Forall_app; auto.
Qed.

Lemma leaves_read {A} (f : State -> A) : leaves (read f).
Proof. intros s. exists []. simpl. rewrite app_nil_r. auto. Qed.

Lemma leaves_assign (f : State -> State) :
  (forall s, trace (f s) = trace s) -> leaves (assign f).
Proof. intros H s. exists []. simpl. rewrite app_nil_r, H. auto. Qed.

Lemma leaves_field v k : leaves (field v k).
Proof. intros s. exists []. simpl. rewrite app_nil_r. auto. Qed.

Lemma leaves_step env x : P (Did x) -> leaves (step env x).
Proof.
  intros H s. unfold step. exists [Did x].
  destruct (throws env x s); simpl; auto.
Qed.

Lemma leaves_randomDelay env a b : (forall d, P (Slept d)) -> leaves (randomDelay env a b).
Proof. intros H s. eexists [_]. simpl. auto. Qed.

Lemma leaves_updatePasswordChange env r :
  P (Reported r) -> leaves (updatePasswordChange env r).
Proof.
  intros H s. unfold updatePasswordChange. exists [Reported r].
  destruct (report_throws env r s); simpl; auto.
Qed.

Lemma leaves_when (b : bool) (m : T unit) : leaves m -> leaves (when b m).
Proof. intros H. destruct b; simpl; [exact H | apply leaves_ret]. Qed.

End Leaves.

Create HintDb changer_blocks.
#[export] Hint Unfold initialize clearBrowserData changePassword : changer_blocks.

Ltac leaves_step :=
  lazymatch goal with
  | |- leaves _ (ret _) => apply leaves_ret
  | |- leaves _ (read _) => apply leaves_read
  | |- leaves _ (field _ _) => apply leaves_field
  | |- leaves _ (assign _) => apply leaves_assign; intros; reflexivity
  | |- leaves _ (bind _ _) => apply leaves_bind; [|intros ?]
  | |- leaves _ (try_catch _ _) => apply leaves_try_catch
  | |- leaves _ (step _ _) => apply leaves_step
  | |- leaves _ (updatePasswordChange _ _) => apply leaves_updatePasswordChange
  | |- leaves _ (randomDelay _ _ _) => apply leaves_randomDelay; intros
  | |- leaves _ (when _ _) => apply leaves_when
  | |- leaves _ (if ?b then _ else _) => destruct b
  | |- leaves _ (match ?x with _ => _ end) => destruct x
  | |- leaves _ (let _ := _ in _) => cbv zeta
  | |- leaves _ _ => progress (autounfold with changer_blocks)
  end.






Lemma changePassword_total env u p s :
  exists cr, fst (changePassword env u p s) = Some cr.
Proof.
  unfold changePassword.
  destruct (negb (provided u) && negb (provided p)); [simpl; eauto|].
  unfold bind at 1 2 3. simpl.
  destruct (negb (browser s) || negb (context s) || negb (page s)); [simpl; eauto|].
  unfold try_catch.
  match goal with |- context [match ?m with _ => _ end] => destruct m as [[cr|] s1] end;
    simpl; eauto.
Qed.






Section Single.

Variable env : Env.
Variable d : PasswordChangeData.

Definition tryBlock : T SingleResult :=
  initOk <- initialize env ;;
  if negb initOk then
    updatePasswordChange env (report d 3 (Some false)) ;;
    ret (failure (Some BrowserInitFailed))
  else
    changeResult <- changePassword env (new_username d) (new_password d) ;;
    if cr_success changeResult then
      updatePasswordChange env (report d 2 None) ;;
      ret {| sr_success := true; sr_reason := None;
             sr_userInfo := Some (cr_userInfo changeResult) |}
    else
      let isApiError := is_true (is_api_error changeResult) in
      updatePasswordChange env (report d 3 (Some isApiError)) ;;
      ret (failure (cr_reason changeResult)).

Definition catchBlock : T SingleResult :=
  updatePasswordChange env (report d 3 (Some false)) ;;
  ret (failure (Some ExecutionException)).

Lemma executeSingle_eq s :
  executeSingleChangePassword env d s =
    try_finally (try_catch tryBlock catchBlock) (cleanup env)
      (set_handles false false false s).
Proof. reflexivity. Qed.


End Single.



(** *** The batch *)















End ChangePasswordFacts.

(** ** The batch runners *)

Module BatchFacts.
Import CheckinFacts ChangePasswordFacts.



(** *** A record store that rejects every report *)







End BatchFacts.

(** ** The stealth payload *)

Module StealthFacts.
Import Stealth.

(** ** Evaluating a script again *)

Definition preserves (I : Page -> Prop) (t : Stmt) : Prop :=
  forall q q', I q -> t q = Some q' -> I q'.

Definition establishes (s : Stmt) (I : Page -> Prop) : Prop :=
  forall p p', s p = Some p' -> I p'.

Definition absorbed (s : Stmt) (I : Page -> Prop) : Prop :=
  forall q, I q -> s q = None \/ s q = Some q.

Section Twice.

(** Each statement with what it leaves true of the page. *)
Variable steps : list (Stmt * (Page -> Prop)).

Hypothesis steps_establish : Forall (fun step => establishes (fst step) (snd step)) steps.
Hypothesis steps_preserve :
  forall s t, In s steps -> In t steps -> preserves (snd s) (fst t).
Hypothesis steps_absorbed : Forall (fun step => absorbed (fst step) (snd step)) steps.

Definition blocked (todo : list (Stmt * (Page -> Prop))) (q : Page) : Prop :=
  match todo with
  | [] => True
  | step :: _ => fst step q = None
  end.

Lemma evaluate_again done todo q :
  incl done steps ->
  Forall (fun step => snd step q) done ->
  blocked todo q ->
  snd (evaluate (map fst (done ++ todo)) q) = q.
Proof.
  intros Hincl Hdone Hblocked. induction done as [|step done IH]; simpl.
  - destruct todo as [|step todo]; simpl in *; [reflexivity|].
    rewrite Hblocked. reflexivity.
  - inversion Hdone as [|? ? Hstep Hrest]; subst.
    assert (Hin : In step steps) by (apply Hincl; left; reflexivity).
    pose proof (proj1 (Forall_forall _ _) steps_absorbed step Hin q Hstep) as [E|E];
      rewrite E; [reflexivity|].
    apply IH; [|exact Hrest]. intros x Hx. apply Hincl. right. exact Hx.
Qed.

Lemma evaluate_first todo :
  forall done p,
    steps = (done ++ todo)%list ->
    Forall (fun step => snd step p) done ->
    exists done' todo',
      steps = (done' ++ todo')%list /\
      Forall (fun step => snd step (snd (evaluate (map fst todo) p))) done' /\
      blocked todo' (snd (evaluate (map fst todo) p)) /\
      (fst (evaluate (map fst todo) p) = Some tt -> todo' = []).
Proof.
  induction todo as [|step todo IH]; intros done p Hsteps Hdone; simpl.
  - exists done, []. repeat split; assumption.
  - destruct (fst step p) as [p'|] eqn:E.
    + assert (Hin : In step steps).
      { rewrite Hsteps. apply in_or_app. right. left. reflexivity. }
      apply (IH (done ++ [step])%list).
      * rewrite <- app_assoc. exact Hsteps.
      * apply Forall_app; split.
        -- apply Forall_forall. intros d Hd.
           apply (steps_preserve d step) with (q := p); [| exact Hin | | exact E].
           ++ rewrite Hsteps. apply in_or_app. left. exact Hd.
           ++ exact (proj1 (Forall_forall _ _) Hdone d Hd).
        -- constructor; [|constructor].
           exact (proj1 (Forall_forall _ _) steps_establish step Hin p p' E).
    + exists done, (step :: todo). simpl. repeat split; try assumption.
      discriminate.
Qed.

Lemma evaluate_twice p :
  snd (evaluate (map fst steps) (snd (evaluate (map fst steps) p)))
  = snd (evaluate (map fst steps) p).
Proof.
  destruct (evaluate_first steps [] p eq_refl (Forall_nil _))
    as (done & todo & E & Hdone & Hblocked & _).
  assert (Hincl : incl done steps).
  { rewrite E. intros x Hx. apply in_or_app. left. exact Hx. }
  pose proof (evaluate_again done todo _ Hincl Hdone Hblocked) as H.
  rewrite <- E in H. exact H.
Qed.

(** After an evaluation that completed, every statement's mark is on the
    page. *)
Lemma evaluate_completed p :
  fst (evaluate (map fst steps) p) = Some tt ->
  Forall (fun step => snd step (snd (evaluate (map fst steps) p))) steps.
Proof.
  intros Hc.
  destruct (evaluate_first steps [] p eq_refl (Forall_nil _))
    as (done & todo & E & Hdone & _ & Hall).
  rewrite (Hall Hc), app_nil_r in E. rewrite <- E in Hdone. exact Hdone.
Qed.

End Twice.

(** ** What each statement of the payload leaves on the page *)

Definition webdriver_deleted (q : Page) : Prop :=
  match prototype (navigator q) !! "webdriver" with
  | Some slot => configurable slot = false
  | None => True
  end.

Definition defined (o : HostName) (name : string) (v : Val) (q : Page) : Prop :=
  exists c, own (host o q) !! name = Some {| configurable := c; value := v |}.

Definition has_chrome (q : Page) : Prop := exists c, chrome q = Some c.

Definition chrome_has (name : string) (v : Val) (q : Page) : Prop :=
  exists c, chrome q = Some c /\ c !! name = Some v.

Definition query_patched (q : Page) : Prop :=
  exists originalQuery, query q = Some (patched_query originalQuery).

Definition getParameter_patched (q : Page) : Prop :=
  exists g, WebGLRenderingContext q = Some (patched_getParameter 141 g).

Definition getParameter2_patched (q : Page) : Prop :=
  exists g, WebGL2RenderingContext q = Some (patched_getParameter 152 g).

Definition toString_proxied (q : Page) : Prop :=
  exists target text, toString q = proxy target text.

Definition getBattery_stubbed (q : Page) : Prop :=
  getBattery q = None \/ getBattery q = Some batteryStub.

Definition has_Notification (q : Page) : Prop := exists n, Notification q = Some n.

Definition enumerateDevices_patched (q : Page) : Prop :=
  enumerateDevices q = None \/
  exists e, enumerateDevices q = Some (patched_enumerateDevices e).

Definition getTimezoneOffset_set (q : Page) : Prop :=
  getTimezoneOffset q = Fun EmptyString (Written 231) (Number (-480)).

Definition define (o : HostName) (name : string) (v : Val)
  : Stmt * (Page -> Prop) :=
  (defineProperty o name v, defined o name v).

Definition put (name : string) (v : Val) : Stmt * (Page -> Prop) :=
  (set_chrome name v, chrome_has name v).

Definition steps : list (Stmt * (Page -> Prop)) :=
  [ (delete_webdriver, webdriver_deleted);
    define Navigator "webdriver" Undefined;
    (ensure_chrome, has_chrome);
    put "runtime" runtime;
    put "loadTimes" loadTimes;
    put "csi" csi;
    put "app" app;
    define Navigator "platform" (Str "Win32");
    define Navigator "vendor" (Str "Google Inc.");
    define Navigator "productSub" (Str "20030107");
    define Navigator "maxTouchPoints" (Number 0);
    define Navigator "hardwareConcurrency" (Number 8);
    define Navigator "deviceMemory" (Number 8);
    define Navigator "connection" connection;
    define Navigator "plugins" pluginArray;
    define Navigator "languages" languages;
    define Navigator "language" (Str "zh-CN");
    (patch_query, query_patched);
    (patch_getParameter, getParameter_patched);
    (patch_getParameter2, getParameter2_patched);
    (patch_toString, toString_proxied);
    define Document "hidden" (Boolean false);
    define Document "visibilityState" (Str "visible");
    (stub_getBattery, getBattery_stubbed);
    (stub_Notification, has_Notification);
    (patch_enumerateDevices, enumerateDevices_patched);
    define Screen "availWidth" (Number 1920);
    define Screen "availHeight" (Number 1040);
    define Screen "width" (Number 1920);
    define Screen "height" (Number 1080);
    define Screen "colorDepth" (Number 24);
    define Screen "pixelDepth" (Number 24);
    (set_getTimezoneOffset, getTimezoneOffset_set) ].

Lemma steps_script : map fst steps = stealthScript.
Proof. reflexivity. Qed.

Ltac page_cbn :=
  cbn [host with_host with_navigator with_document with_screen with_chrome
       with_query with_WebGLRenderingContext with_WebGL2RenderingContext
       with_toString with_getBattery with_Notification with_enumerateDevices
       with_getTimezoneOffset navigator document screen chrome query
       WebGLRenderingContext WebGL2RenderingContext toString getBattery
       Notification enumerateDevices getTimezoneOffset own prototype
       configurable value fst snd] in *.

Ltac open_page q :=
  destruct q as [[? ?] [? ?] [? ?] ? ? ? ? ? ? ? ? ?]; page_cbn.

(** A page is its fields. *)
Lemma with_host_same o q :
  with_host o {| own := own (host o q); prototype := prototype (host o q) |} q = q.
Proof. destruct o; open_page q; reflexivity. Qed.

Lemma patched_query_twice f : patched_query (patched_query f) = patched_query f.
Proof.
  unfold patched_query. f_equal. cbn [call].
  extensionality this. extensionality notification. extensionality name.
  destruct (String.eqb name "notifications") eqn:E; [reflexivity|].
  reflexivity.
Qed.

Lemma patched_getParameter_twice line g :
  patched_getParameter line (patched_getParameter line g) = patched_getParameter line g.
Proof.
  unfold patched_getParameter. f_equal. cbn [call].
  extensionality parameter.
  destruct (Z.eqb parameter 37445) eqn:E1; [reflexivity|].
  destruct (Z.eqb parameter 37446) eqn:E2; [reflexivity|].
  reflexivity.
Qed.

Lemma filter_twice {A} (f : A -> bool) (l : list A) :
  List.filter f (List.filter f l) = List.filter f l.
Proof.
  induction l as [|x l IH]; [reflexivity|]. simpl.
  destruct (f x) eqn:E; simpl; rewrite ?E, IH; reflexivity.
Qed.

Lemma patched_enumerateDevices_twice e :
  patched_enumerateDevices (patched_enumerateDevices e) = patched_enumerateDevices e.
Proof.
  unfold patched_enumerateDevices. cbn [call]. rewrite filter_twice. reflexivity.
Qed.

(** What the Proxy answers about itself is the text it was given. *)
Lemma proxy_itself target text :
  apply (proxy target text) true (itself (proxy target text)) = Some text.
Proof. reflexivity. Qed.

Lemma proxy_twice target text :
  proxy (proxy target text) text = proxy target text.
Proof.
  unfold proxy. f_equal. cbn [apply].
  extensionality permissions. extensionality thisArg.
  destruct (negb permissions) eqn:E1; [reflexivity|].
  destruct (is_query thisArg) eqn:E2; [reflexivity|].
  destruct (String.eqb (callee_name thisArg) "sendMessage") eqn:E3; [reflexivity|].
  destruct (is_toString thisArg) eqn:E4; [reflexivity|].
  reflexivity.
Qed.

Ltac run_statement H :=
  cbn [fst snd define put] in *;
  unfold delete_webdriver, defineProperty, ensure_chrome, set_chrome, patch_query,
    patch_getParameter, patch_getParameter2, patch_toString, stub_getBattery,
    stub_Notification, patch_enumerateDevices, set_getTimezoneOffset in H.

Ltac open_marks :=
  unfold webdriver_deleted, defined, has_chrome, chrome_has, query_patched,
    getParameter_patched, getParameter2_patched, toString_proxied,
    getBattery_stubbed, has_Notification, enumerateDevices_patched,
    getTimezoneOffset_set in *.

Ltac finish :=
  repeat match goal with
         | H : exists _, _ |- _ => destruct H
         | H : _ /\ _ |- _ => destruct H
         | H : _ \/ _ |- _ => destruct H
         end;
  simplify_eq; page_cbn;
  repeat match goal with
         | H : ?x = _ |- context [match ?x with _ => _ end] => rewrite H
         end;
  try (eexists; split; [reflexivity|]);
  rewrite ?lookup_insert, ?lookup_delete;
  repeat case_decide; simplify_eq; page_cbn;
  first [ congruence | eauto 6 ].

(** The statement has run: [H] becomes the page it made. *)
Ltac ran H :=
  run_statement H; repeat case_match;
  first [ discriminate H | injection H as <- ].

Ltac preserve :=
  let q := fresh "q" in
  let q' := fresh "q'" in
  let HI := fresh "HI" in
  let Ht := fresh "Ht" in
  intros q q' HI Ht; ran Ht;
  first [ exact HI | open_marks; open_page q; finish ].

Ltac every :=
  repeat match goal with
         | |- Forall _ [] => apply List.Forall_nil
         | |- Forall _ (_ :: _) => apply List.Forall_cons
         end.

Lemma steps_establish :
  Forall (fun step => establishes (fst step) (snd step)) steps.
Proof.
  unfold steps. every; intros p p' H; ran H; open_marks; open_page p; finish.
Qed.

Lemma steps_preserve_all :
  Forall (fun s => Forall (fun t => preserves (snd s) (fst t)) steps) steps.
Proof.
  unfold steps. every; preserve.
Qed.

Lemma steps_preserve s t :
  In s steps -> In t steps -> preserves (snd s) (fst t).
Proof.
  intros Hs Ht.
  exact (proj1 (Forall_forall _ _)
           (proj1 (Forall_forall _ _) steps_preserve_all s Hs) t Ht).
Qed.

Lemma absorbed_delete_webdriver : absorbed delete_webdriver webdriver_deleted.
Proof.
  intros q H. right. unfold delete_webdriver, webdriver_deleted in *.
  destruct (prototype (navigator q) !! "webdriver") as [slot|]; [|reflexivity].
  rewrite H. reflexivity.
Qed.

Lemma absorbed_defineProperty o name v :
  absorbed (defineProperty o name v) (defined o name v).
Proof.
  intros q [c H]. unfold defineProperty. rewrite H. cbn [configurable].
  destruct c; [right | left; reflexivity].
  rewrite (insert_id _ _ _ H), with_host_same. reflexivity.
Qed.

Lemma absorbed_ensure_chrome : absorbed ensure_chrome has_chrome.
Proof. intros q [c H]. right. unfold ensure_chrome. rewrite H. reflexivity. Qed.

Lemma absorbed_set_chrome name v : absorbed (set_chrome name v) (chrome_has name v).
Proof.
  intros q (c & H & Hv). right. unfold set_chrome. rewrite H, (insert_id _ _ _ Hv).
  rewrite <- H. destruct q; reflexivity.
Qed.

Lemma absorbed_patch_query : absorbed patch_query query_patched.
Proof.
  intros q [f H]. right. unfold patch_query. rewrite H, patched_query_twice.
  rewrite <- H. destruct q; reflexivity.
Qed.

Lemma absorbed_patch_getParameter : absorbed patch_getParameter getParameter_patched.
Proof.
  intros q [g H]. right. unfold patch_getParameter.
  rewrite H, patched_getParameter_twice. rewrite <- H. destruct q; reflexivity.
Qed.

Lemma absorbed_patch_getParameter2 :
  absorbed patch_getParameter2 getParameter2_patched.
Proof.
  intros q [g H]. right. unfold patch_getParameter2.
  rewrite H, patched_getParameter_twice. rewrite <- H. destruct q; reflexivity.
Qed.

Lemma absorbed_patch_toString : absorbed patch_toString toString_proxied.
Proof.
  intros q (target & text & H). unfold patch_toString. rewrite H.
  destruct (has_permissions q); [right | left; reflexivity].
  rewrite proxy_itself, proxy_twice, <- H. destruct q; reflexivity.
Qed.

Lemma absorbed_stub_getBattery : absorbed stub_getBattery getBattery_stubbed.
Proof.
  intros q [H|H]; right; unfold stub_getBattery; rewrite H; [reflexivity|].
  rewrite <- H. destruct q; reflexivity.
Qed.

Lemma absorbed_stub_Notification : absorbed stub_Notification has_Notification.
Proof. intros q [n H]. right. unfold stub_Notification. rewrite H. reflexivity. Qed.

Lemma absorbed_patch_enumerateDevices :
  absorbed patch_enumerateDevices enumerateDevices_patched.
Proof.
  intros q [H|[e H]]; right; unfold patch_enumerateDevices; rewrite H; [reflexivity|].
  rewrite patched_enumerateDevices_twice, <- H. destruct q; reflexivity.
Qed.

Lemma absorbed_set_getTimezoneOffset :
  absorbed set_getTimezoneOffset getTimezoneOffset_set.
Proof.
  intros q H. right. unfold set_getTimezoneOffset, getTimezoneOffset_set in *.
  rewrite <- H. destruct q; reflexivity.
Qed.

Lemma steps_absorbed :
  Forall (fun step => absorbed (fst step) (snd step)) steps.
Proof.
  unfold steps. every; cbn [fst snd define put];
    first [ apply absorbed_defineProperty | apply absorbed_set_chrome
          | apply absorbed_delete_webdriver | apply absorbed_ensure_chrome
          | apply absorbed_patch_query | apply absorbed_patch_getParameter
          | apply absorbed_patch_getParameter2 | apply absorbed_patch_toString
          | apply absorbed_stub_getBattery | apply absorbed_stub_Notification
          | apply absorbed_patch_enumerateDevices
          | apply absorbed_set_getTimezoneOffset ].
Qed.

(** ** Evaluating twice *)

(** [navigator] has its own [webdriver], and it cannot be redefined. *)
Definition webdriver_sealed (q : Page) : Prop :=
  own (navigator q) !! "webdriver"
  = Some {| configurable := false; value := Undefined |}.

Lemma webdriver_stays_sealed :
  Forall (preserves webdriver_sealed) stealthScript.
Proof.
  unfold stealthScript. every; intros q q' HI Ht; ran Ht;
    first [ exact HI
          | unfold webdriver_sealed in *; open_page q;
            rewrite lookup_insert; case_decide; simplify_eq; exact HI ].
Qed.

Lemma evaluate_preserves (I : Page -> Prop) script :
  Forall (preserves I) script -> forall p, I p -> I (snd (evaluate script p)).
Proof.
  induction 1 as [|t script Ht _ IH]; intros p Hp; simpl; [exact Hp|].
  destruct (t p) as [p'|] eqn:E; [|exact Hp].
  apply IH. exact (Ht p p' Hp E).
Qed.

Lemma sealed_stops q :
  webdriver_sealed q -> fst (evaluate stealthScript q) = None.
Proof.
  intros H. unfold stealthScript. cbn [evaluate].
  assert (E : exists q1, delete_webdriver q = Some q1 /\ webdriver_sealed q1).
  { unfold delete_webdriver. repeat case_match; eexists; (split; [reflexivity|]);
      exact H. }
  destruct E as (q1 & -> & H1).
  unfold defineProperty at 1. cbn [host]. rewrite H1. reflexivity.
Qed.

Lemma first_evaluation_seals p :
  own (navigator p) !! "webdriver" = None ->
  webdriver_sealed (snd (evaluate stealthScript p)).
Proof.
  intros H.
  assert (E : exists p1, delete_webdriver p = Some p1 /\
                         own (navigator p1) !! "webdriver" = None).
  { unfold delete_webdriver. repeat case_match; eexists; (split; [reflexivity|]);
      exact H. }
  destruct E as (p1 & E1 & H1).
  pose proof webdriver_stays_sealed as Hall.
  unfold stealthScript in *. cbn [evaluate]. rewrite E1.
  unfold defineProperty at 1. cbn [host]. rewrite H1.
  inversion Hall as [|? ? _ Hrest]; subst.
  inversion Hrest as [|? ? _ Hrest']; subst.
  apply (evaluate_preserves _ _ Hrest').
  unfold webdriver_sealed. cbn [with_host]. destruct p1 as [[? ?] ? ? ? ? ? ? ? ? ? ? ?].
  page_cbn. apply lookup_insert_eq.
Qed.

(** One statement, evaluated on its own: the page it makes, or the page
    as it was if the statement throws. *)
Definition attempt (s : Stmt) (q : Page) : Page :=
  match s q with
  | Some q' => q'
  | None => q
  end.

Lemma attempt_twice :
  Forall (fun s => forall q, attempt s (attempt s q) = attempt s q) stealthScript.
Proof.
  rewrite <- steps_script. apply Forall_map.
  pose proof steps_establish as He. pose proof steps_absorbed as Ha.
  rewrite Forall_forall in *. intros step Hin q.
  specialize (He step Hin). specialize (Ha step Hin).
  unfold attempt at 2 3. destruct (fst step q) as [q'|] eqn:E.
  - unfold attempt. destruct (Ha q' (He q q' E)) as [->| ->]; reflexivity.
  - unfold attempt. rewrite E. reflexivity.
Qed.

(** Claim C4.  Evaluating the payload a second time leaves the page as
    the first evaluation left it, whatever page the first one found and
    whether or not it ran to its end.  So every probe of a page script
    (a property of [navigator], [document] or [screen], [window.chrome],
    the permissions query, the WebGL parameters, the text of a function,
    the battery and notification objects, the media devices, the time
    zone offset) gives after two evaluations what it gives after one.
    The same holds of each statement of the payload on its own: evaluated
    again on the page it has made, it changes nothing or throws.
    In a page whose [navigator] has no [webdriver] of its own, the second
    evaluation stops at its first [Object.defineProperty] with a
    TypeError. *)
Theorem stealth_payload_evaluated_twice (p : Page) :
  let once := snd (evaluate stealthScript p) in
  let twice := snd (evaluate stealthScript once) in
  twice = once /\
  (forall probe, observe twice probe = observe once probe) /\
  Forall (fun s => forall q, attempt s (attempt s q) = attempt s q) stealthScript /\
  (own (navigator p) !! "webdriver" = None ->
   fst (evaluate stealthScript once) = None).
Proof.
  intros once twice.
  assert (E : twice = once).
  { unfold twice, once. rewrite <- steps_script.
    apply (evaluate_twice steps steps_establish steps_preserve steps_absorbed). }
  split; [exact E|]. split; [intros probe; rewrite E; reflexivity|].
  split; [exact attempt_twice|].
  intros H. apply sealed_stops, first_evaluation_seals, H.
Qed.

(** In a page without the battery API the payload runs to its end and
    leaves [navigator.getBattery] undefined. *)
Lemma absent_battery_is_left_undefined :
  getBattery plain_page = None /\
  Notification plain_page = None /\
  fst (evaluate stealthScript plain_page) = Some tt /\
  getBattery (snd (evaluate stealthScript plain_page)) = None /\
  observe (snd (evaluate stealthScript plain_page)) GetBattery = Value Undefined /\
  Notification (snd (evaluate stealthScript plain_page)) = Some notificationStub.
Proof. vm_compute. repeat split. Qed.

(** ** The optional APIs *)

Definition forget (p : Page) : Page := with_getBattery None (with_Notification None p).

(** Two pages that differ in the optional APIs only. *)
Definition alike (r r' : option Page) : Prop :=
  match r, r' with
  | Some a, Some b => forget a = forget b
  | None, None => True
  | _, _ => False
  end.

Ltac run_in_goal :=
  unfold delete_webdriver, defineProperty, ensure_chrome, set_chrome, patch_query,
    patch_getParameter, patch_getParameter2, patch_toString, stub_getBattery,
    stub_Notification, patch_enumerateDevices, set_getTimezoneOffset,
    has_permissions.

Lemma statements_ignore_optional :
  Forall (fun t : Stmt => forall p p', forget p = forget p' -> alike (t p) (t p'))
    stealthScript.
Proof.
  unfold stealthScript. every; intros p p' H; unfold alike, forget in *;
    destruct p, p'; page_cbn; simplify_eq; run_in_goal; page_cbn;
    repeat case_match; simplify_eq; page_cbn; try reflexivity; try exact I.
Qed.

Lemma evaluate_ignores_optional script :
  Forall (fun t : Stmt => forall p p', forget p = forget p' -> alike (t p) (t p')) script ->
  forall p p', forget p = forget p' ->
    fst (evaluate script p) = fst (evaluate script p').
Proof.
  induction 1 as [|t script Ht _ IH]; intros p p' E; simpl; [reflexivity|].
  specialize (Ht p p' E). unfold alike in Ht.
  destruct (t p) as [a|], (t p') as [b|]; try contradiction; [|reflexivity].
  apply IH. exact Ht.
Qed.

Definition frames {A} (f : Page -> A) (t : Stmt) : Prop :=
  forall q q', t q = Some q' -> f q' = f q.

Lemma evaluate_frames {A} (f : Page -> A) script :
  Forall (frames f) script -> forall p, f (snd (evaluate script p)) = f p.
Proof.
  induction 1 as [|t script Ht _ IH]; intros p; simpl; [reflexivity|].
  destruct (t p) as [p'|] eqn:E; [|reflexivity].
  rewrite IH. exact (Ht p p' E).
Qed.

Lemma evaluate_app l1 l2 p :
  evaluate (l1 ++ l2) p =
    match evaluate l1 p with
    | (Some _, p1) => evaluate l2 p1
    | (None, p1) => (None, p1)
    end.
Proof.
  revert p. induction l1 as [|t l1 IH]; intros p; simpl; [reflexivity|].
  destruct (t p) as [p'|]; [apply IH | reflexivity].
Qed.

Definition before_optional : list Stmt := firstn 23 stealthScript.
Definition after_optional : list Stmt := skipn 25 stealthScript.

Lemma stealthScript_split :
  stealthScript
  = (before_optional ++ [stub_getBattery; stub_Notification] ++ after_optional)%list.
Proof. reflexivity. Qed.

Ltac framed :=
  every; intros q q' H; ran H; reflexivity.

Lemma optional_apis_after (p : Page) :
  fst (evaluate stealthScript p) = Some tt ->
  Notification (snd (evaluate stealthScript p))
    = Some (match Notification p with Some n => n | None => notificationStub end) /\
  getBattery (snd (evaluate stealthScript p))
    = match getBattery p with Some _ => Some batteryStub | None => None end.
Proof.
  rewrite stealthScript_split, !evaluate_app.
  assert (Hb1 : getBattery (snd (evaluate before_optional p)) = getBattery p).
  { apply evaluate_frames. unfold before_optional, stealthScript. cbn [firstn]. framed. }
  assert (Hn1 : Notification (snd (evaluate before_optional p)) = Notification p).
  { apply evaluate_frames. unfold before_optional, stealthScript. cbn [firstn]. framed. }
  destruct (evaluate before_optional p) as [[[]|] p1]; [|discriminate].
  cbn [snd] in Hb1, Hn1.
  assert (Hb2 : forall q, getBattery (snd (evaluate after_optional q)) = getBattery q).
  { apply evaluate_frames. unfold after_optional, stealthScript. cbn [skipn]. framed. }
  assert (Hn2 : forall q, Notification (snd (evaluate after_optional q)) = Notification q).
  { apply evaluate_frames. unfold after_optional, stealthScript. cbn [skipn]. framed. }
  change ([stub_getBattery; stub_Notification] ++ after_optional)%list
    with (stub_getBattery :: stub_Notification :: after_optional).
  intros _. cbn [evaluate]. unfold stub_getBattery, stub_Notification.
  rewrite <- Hb1, <- Hn1.
  destruct (getBattery p1) as [b|] eqn:Eb, (Notification p1) as [n|] eqn:En;
    page_cbn; rewrite ?En, ?Eb; rewrite Hn2, Hb2; page_cbn; rewrite ?En, ?Eb;
    split; reflexivity.
Qed.

(** Claim C8, as amended.  Whether the evaluation of the payload runs to
    its end does not depend on [navigator.getBattery] or
    [window.Notification] being there.  After an evaluation that ran to its
    end, [window.Notification] is what it was, or the payload's stub if
    there was none; [navigator.getBattery] is the payload's stub if the
    page had the function, and is still undefined if it had not. *)
Theorem optional_apis_never_stop_the_payload (p : Page) :
  (forall battery notification,
     fst (evaluate stealthScript
            (with_getBattery battery (with_Notification notification p)))
     = fst (evaluate stealthScript p)) /\
  (fst (evaluate stealthScript p) = Some tt ->
   Notification (snd (evaluate stealthScript p))
     = Some (match Notification p with Some n => n | None => notificationStub end) /\
   getBattery (snd (evaluate stealthScript p))
     = match getBattery p with Some _ => Some batteryStub | None => None end).
Proof.
  split; [|apply optional_apis_after].
  intros battery notification.
  apply (evaluate_ignores_optional _ statements_ignore_optional).
  destruct p; reflexivity.
Qed.

End StealthFacts.

(** ** Strings and ranges *)

Module StringFacts.

Lemma append_nil (t : string) : "" ++ t = t.
Proof. reflexivity. Qed.

Lemma append_cons (c : ascii) (s t : string) : String c s ++ t = String c (s ++ t).
Proof. reflexivity. Qed.

Ltac strings := rewrite ?append_nil, ?append_cons; cbn.

Lemma length_append (s t : string) :
  String.length (s ++ t) = (String.length s + String.length t)%nat.
Proof. induction s as [|c s IH]; strings; [reflexivity | rewrite IH; reflexivity]. Qed.

Lemma append_assoc (s t u : string) : (s ++ t) ++ u = s ++ t ++ u.
Proof. induction s as [|c s IH]; strings; [reflexivity | rewrite IH; reflexivity]. Qed.

Lemma substring_0_0 (s : string) : String.substring 0 0 s = "".
Proof. destruct s; reflexivity. Qed.

Lemma substring_take (s rest : string) :
  String.substring 0 (String.length s) (s ++ rest) = s.
Proof.
  induction s as [|c s IH]; strings; [apply substring_0_0 | rewrite IH; reflexivity].
Qed.

Lemma substring_skip (p s : string) (n : nat) :
  String.substring (String.length p) n (p ++ s) = String.substring 0 n s.
Proof. induction p as [|c p IH]; strings; [reflexivity | exact IH]. Qed.

Lemma get_skip (p s : string) (n : nat) :
  String.get (String.length p + n) (p ++ s) = String.get n s.
Proof. induction p as [|c p IH]; strings; [reflexivity | exact IH]. Qed.

(** A check of every number of a range. *)
Lemma checked_in_range (P : Z -> bool) (lo : Z) (n : nat) :
  forallb P (map (fun i => lo + Z.of_nat i) (seq 0 n)) = true ->
  forall z, lo <= z < lo + Z.of_nat n -> P z = true.
Proof.
  intros H z Hz. rewrite forallb_forall in H. apply H.
  apply in_map_iff. exists (Z.to_nat (z - lo)). split; [lia|].
  apply in_seq. lia.
Qed.

End StringFacts.

(** ** What the stealth payload installs *)

Module StealthInstall.
Import Stealth StealthFacts.

(** *** The page a complete evaluation makes *)

(** [name] can be defined on an object with the own properties [m]. *)
Definition definable (name : string) (m : gmap string Slot) : bool :=
  match m !! name with
  | Some slot => configurable slot
  | None => true
  end.

(** What [Object.defineProperty] makes of [m] when it does not throw. *)
Definition override (name : string) (v : Val) (m : gmap string Slot)
  : gmap string Slot :=
  <[name := {| configurable := match m !! name with Some _ => true | None => false end;
               value := v |}]> m.

Lemma defineProperty_eq o name v q :
  defineProperty o name v q =
    if definable name (own (host o q))
    then Some (with_host o {| own := override name v (own (host o q));
                              prototype := prototype (host o q) |} q)
    else None.
Proof.
  unfold defineProperty, definable, override.
  destruct (own (host o q) !! name) as [slot|]; [|reflexivity].
  destruct (configurable slot); reflexivity.
Qed.

Lemma definable_override name name' v m :
  name <> name' -> definable name (override name' v m) = definable name m.
Proof.
  intros H. unfold definable, override. rewrite lookup_insert_ne by congruence.
  reflexivity.
Qed.

Lemma lookup_override name name' v m :
  name <> name' -> override name' v m !! name = m !! name.
Proof. intros H. unfold override. apply lookup_insert_ne. congruence. Qed.

Lemma lookup_override_eq name v m :
  exists c, override name v m !! name = Some {| configurable := c; value := v |}.
Proof. unfold override. eexists. apply lookup_insert_eq. Qed.

(** [Function.prototype.toString] answers for itself. *)
Definition toString_answers (p : Page) : bool :=
  match apply (toString p) true (itself (toString p)) with
  | Some _ => true
  | None => false
  end.

Definition present {A} (x : option A) : bool :=
  match x with Some _ => true | None => false end.

(** What the payload needs of a page to run to its end, in the order it
    asks for it. *)
Definition ready (p : Page) : bool :=
  let nav := own (navigator p) in
  let doc := own (document p) in
  let scr := own (screen p) in
  definable "webdriver" nav
  && definable "platform" nav
  && definable "vendor" nav
  && definable "productSub" nav
  && definable "maxTouchPoints" nav
  && definable "hardwareConcurrency" nav
  && definable "deviceMemory" nav
  && definable "connection" nav
  && definable "plugins" nav
  && definable "languages" nav
  && definable "language" nav
  && present (query p)
  && present (WebGLRenderingContext p)
  && present (WebGL2RenderingContext p)
  && toString_answers p
  && definable "hidden" doc
  && definable "visibilityState" doc
  && definable "availWidth" scr
  && definable "availHeight" scr
  && definable "width" scr
  && definable "height" scr
  && definable "colorDepth" scr
  && definable "pixelDepth" scr.

(** The page the payload makes of [p] when it runs to its end. *)
Definition installed (p : Page) : Page :=
  {| navigator :=
       {| own :=
            override "language" (Str "zh-CN")
              (override "languages" languages
                 (override "plugins" pluginArray
                    (override "connection" connection
                       (override "deviceMemory" (Number 8)
                          (override "hardwareConcurrency" (Number 8)
                             (override "maxTouchPoints" (Number 0)
                                (override "productSub" (Str "20030107")
                                   (override "vendor" (Str "Google Inc.")
                                      (override "platform" (Str "Win32")
                                         (override "webdriver" Undefined
                                            (own (navigator p))))))))))));
          prototype :=
            match prototype (navigator p) !! "webdriver" with
            | Some slot =>
                if configurable slot
                then delete "webdriver" (prototype (navigator p))
                else prototype (navigator p)
            | None => prototype (navigator p)
            end |};
     document :=
       {| own := override "visibilityState" (Str "visible")
                   (override "hidden" (Boolean false) (own (document p)));
          prototype := prototype (document p) |};
     screen :=
       {| own :=
            override "pixelDepth" (Number 24)
              (override "colorDepth" (Number 24)
                 (override "height" (Number 1080)
                    (override "width" (Number 1920)
                       (override "availHeight" (Number 1040)
                          (override "availWidth" (Number 1920)
                             (own (screen p)))))));
          prototype := prototype (screen p) |};
     chrome :=
       Some (<["app" := app]>
               (<["csi" := csi]>
                  (<["loadTimes" := loadTimes]>
                     (<["runtime" := runtime]>
                        (match chrome p with Some c => c | None => ∅ end)))));
     query :=
       match query p with
       | Some originalQuery => Some (patched_query originalQuery)
       | None => None
       end;
     WebGLRenderingContext :=
       match WebGLRenderingContext p with
       | Some getParameter => Some (patched_getParameter 141 getParameter)
       | None => None
       end;
     WebGL2RenderingContext :=
       match WebGL2RenderingContext p with
       | Some getParameter2 => Some (patched_getParameter 152 getParameter2)
       | None => None
       end;
     toString :=
       match apply (toString p) true (itself (toString p)) with
       | Some nativeToStringFunctionString =>
           proxy (toString p) nativeToStringFunctionString
       | None => toString p
       end;
     getBattery :=
       match getBattery p with
       | Some _ => Some batteryStub
       | None => None
       end;
     Notification :=
       match Notification p with
       | Some n => Some n
       | None => Some notificationStub
       end;
     enumerateDevices :=
       match enumerateDevices p with
       | Some originalEnumerateDevices =>
           Some (patched_enumerateDevices originalEnumerateDevices)
       | None => None
       end;
     getTimezoneOffset := Fun EmptyString (Written 231) (Number (-480)) |}.


Lemma evaluate_cons s rest p :
  evaluate (s :: rest) p =
    match s p with
    | Some p' => evaluate rest p'
    | None => (None, p)
    end.
Proof. reflexivity. Qed.

Lemma delete_webdriver_eq p :
  delete_webdriver p =
    Some (with_navigator
            {| own := own (navigator p);
               prototype :=
                 match prototype (navigator p) !! "webdriver" with
                 | Some slot =>
                     if configurable slot
                     then delete "webdriver" (prototype (navigator p))
                     else prototype (navigator p)
                 | None => prototype (navigator p)
                 end |} p).
Proof.
  unfold delete_webdriver. destruct p as [[nown nproto] ? ? ? ? ? ? ? ? ? ? ?].
  cbn. destruct (nproto !! "webdriver") as [[[] ?]|]; reflexivity.
Qed.

Lemma ensure_chrome_eq p :
  ensure_chrome p =
    Some (with_chrome (Some (match chrome p with Some c => c | None => ∅ end)) p).
Proof. unfold ensure_chrome. destruct p as [? ? ? [c|] ? ? ? ? ? ? ? ?]; reflexivity. Qed.

Lemma stub_getBattery_eq p :
  stub_getBattery p =
    Some (with_getBattery
            (match getBattery p with Some _ => Some batteryStub | None => None end) p).
Proof. unfold stub_getBattery. destruct p as [? ? ? ? ? ? ? ? [b|] ? ? ?]; reflexivity. Qed.

Lemma stub_Notification_eq p :
  stub_Notification p =
    Some (with_Notification
            (match Notification p with Some n => Some n | None => Some notificationStub end)
            p).
Proof. unfold stub_Notification. destruct p as [? ? ? ? ? ? ? ? ? [n|] ? ?]; reflexivity. Qed.

Lemma patch_enumerateDevices_eq p :
  patch_enumerateDevices p =
    Some (with_enumerateDevices
            (match enumerateDevices p with
             | Some e => Some (patched_enumerateDevices e)
             | None => None
             end) p).
Proof.
  unfold patch_enumerateDevices. destruct p as [? ? ? ? ? ? ? ? ? ? [e|] ?]; reflexivity.
Qed.

Ltac names_differ := intros Hsame; discriminate Hsame.

Ltac page_fields :=
  cbn [host own prototype with_host with_navigator with_document with_screen
       with_chrome with_query with_WebGLRenderingContext
       with_WebGL2RenderingContext with_toString with_getBattery
       with_Notification with_enumerateDevices with_getTimezoneOffset
       navigator document screen chrome query WebGLRenderingContext
       WebGL2RenderingContext toString getBattery Notification
       enumerateDevices getTimezoneOffset has_permissions present
       toString_answers andb].

(** One statement of the script: the guard it depends on is decided, and
    the evaluation goes on where it holds. *)
Ltac statement :=
  rewrite evaluate_cons;
  lazymatch goal with
  | |- context [match defineProperty ?o ?n ?v ?q with _ => _ end] =>
      rewrite (defineProperty_eq o n v q); page_fields;
      rewrite ?definable_override by names_differ;
      lazymatch goal with
      | |- context [if definable ?n' ?m then _ else _] =>
          destruct (definable n' m) eqn:?; page_fields; [|reflexivity]
      end
  | |- context [match delete_webdriver ?q with _ => _ end] =>
      rewrite (delete_webdriver_eq q); page_fields
  | |- context [match ensure_chrome ?q with _ => _ end] =>
      rewrite (ensure_chrome_eq q); page_fields
  | |- context [match set_chrome ?n ?v ?q with _ => _ end] =>
      unfold set_chrome at 1; page_fields
  | |- context [match stub_getBattery ?q with _ => _ end] =>
      rewrite (stub_getBattery_eq q); page_fields
  | |- context [match stub_Notification ?q with _ => _ end] =>
      rewrite (stub_Notification_eq q); page_fields
  | |- context [match patch_enumerateDevices ?q with _ => _ end] =>
      rewrite (patch_enumerateDevices_eq q); page_fields
  | |- context [match set_getTimezoneOffset ?q with _ => _ end] =>
      unfold set_getTimezoneOffset at 1; page_fields
  end.

(** The payload runs to its end on the pages that are [ready], and only
    on them; it makes [installed] of them. *)
Lemma evaluate_stealthScript p :
  match evaluate stealthScript p with
  | (Some _, q) => ready p = true /\ q = installed p
  | (None, _) => ready p = false
  end.
Proof.
  destruct p as [[nown nproto] [down dproto] [sown sproto] chrome0 query0 gl gl2
                   ts bat notif enum tz].
  unfold ready, installed, stealthScript, toString_answers. page_fields.
  do 17 statement.
  rewrite evaluate_cons. unfold patch_query at 1. page_fields.
  destruct query0 as [originalQuery|]; page_fields; [|reflexivity].
  rewrite evaluate_cons. unfold patch_getParameter at 1. page_fields.
  destruct gl as [getParameter|]; page_fields; [|reflexivity].
  rewrite evaluate_cons. unfold patch_getParameter2 at 1. page_fields.
  destruct gl2 as [getParameter2|]; page_fields; [|reflexivity].
  rewrite evaluate_cons. unfold patch_toString at 1. page_fields.
  destruct (apply ts true (itself ts)) as [nativeToStringFunctionString|];
    page_fields; [|reflexivity].
  do 12 statement.
  cbn [evaluate]. split; reflexivity.
Qed.

Lemma completed_installed p :
  fst (evaluate stealthScript p) = Some tt ->
  ready p = true /\ snd (evaluate stealthScript p) = installed p.
Proof.
  pose proof (evaluate_stealthScript p) as H.
  destruct (evaluate stealthScript p) as [[[]|] q]; [|discriminate].
  intros _. exact H.
Qed.

Lemma ready_completes p :
  ready p = true -> evaluate stealthScript p = (Some tt, installed p).
Proof.
  pose proof (evaluate_stealthScript p) as H. intros Hr.
  destruct (evaluate stealthScript p) as [[[]|] q]; [|congruence].
  destruct H as [_ ->]. reflexivity.
Qed.

(** The properties of [navigator], [document] and [screen] the payload
    defines, with the values their getters return. *)
Definition overrides : list (HostName * string * Val) :=
  [ (Navigator, "webdriver", Undefined);
    (Navigator, "platform", Str "Win32");
    (Navigator, "vendor", Str "Google Inc.");
    (Navigator, "productSub", Str "20030107");
    (Navigator, "maxTouchPoints", Number 0);
    (Navigator, "hardwareConcurrency", Number 8);
    (Navigator, "deviceMemory", Number 8);
    (Navigator, "connection", connection);
    (Navigator, "plugins", pluginArray);
    (Navigator, "languages", languages);
    (Navigator, "language", Str "zh-CN");
    (Document, "hidden", Boolean false);
    (Document, "visibilityState", Str "visible");
    (Screen, "availWidth", Number 1920);
    (Screen, "availHeight", Number 1040);
    (Screen, "width", Number 1920);
    (Screen, "height", Number 1080);
    (Screen, "colorDepth", Number 24);
    (Screen, "pixelDepth", Number 24) ].

Definition chrome_members : list (string * Val) :=
  [ ("runtime", runtime); ("loadTimes", loadTimes); ("csi", csi); ("app", app) ].

Lemma lookup_override_value name v m :
  value <$> (override name v m !! name) = Some v.
Proof. unfold override. rewrite lookup_insert_eq. reflexivity. Qed.

Lemma lookup_override_configurable name v m :
  configurable <$> (override name v m !! name)
  = Some (match m !! name with Some _ => true | None => false end).
Proof. unfold override. rewrite lookup_insert_eq. reflexivity. Qed.

Ltac own_of_installed :=
  unfold installed, observe, read;
  cbn [host navigator document screen own prototype];
  rewrite ?lookup_override by names_differ.

(** Property X1.  The payload runs to its end on a page exactly when the page is
    [ready]: each of the nineteen properties it defines on [navigator],
    [document] and [screen] is absent from the object or configurable
    there, [navigator.permissions], [WebGLRenderingContext] and
    [WebGL2RenderingContext] exist, and [Function.prototype.toString]
    answers for itself.  On any other page it throws. *)
Theorem payload_runs_to_its_end_iff_ready (p : Page) :
  fst (evaluate stealthScript p) = Some tt <-> ready p = true.
Proof.
  split.
  - intros H. apply completed_installed in H. apply H.
  - intros H. rewrite (ready_completes p H). reflexivity.
Qed.

(** Property X2.  After an evaluation that ran to its end, a page script reads the
    payload's value from each of the nineteen properties of [overrides],
    whatever the page held before and whatever the later statements did;
    [window.chrome] has the payload's [runtime], [loadTimes], [csi] and
    [app]; and [getTimezoneOffset()] returns -480. *)
Theorem completed_payload_overrides (p : Page) :
  fst (evaluate stealthScript p) = Some tt ->
  let q := snd (evaluate stealthScript p) in
  Forall (fun '(o, name, v) => observe q (Read o name) = Value v) overrides /\
  Forall (fun '(name, v) => observe q (Chrome name) = Value v) chrome_members /\
  observe q GetTimezoneOffset = Value (Number (-480)).
Proof.
  intros H. apply completed_installed in H. destruct H as [_ ->]. cbv zeta.
  split; [|split].
  - unfold overrides.
    repeat (constructor;
            [ own_of_installed;
              match goal with
              | |- context [override ?n ?v ?m !! ?n] =>
                  pose proof (lookup_override_value n v m) as Hv;
                  destruct (override n v m !! n) as [slot|]; cbn in Hv;
                  [injection Hv as ->; reflexivity | discriminate Hv]
              end | ]).
    constructor.
  - unfold chrome_members, installed. cbn [observe chrome].
    repeat (constructor;
            [ rewrite ?lookup_insert_ne by names_differ;
              rewrite lookup_insert_eq; reflexivity | ]).
    constructor.
  - reflexivity.
Qed.

Lemma completed_payload_overrides_witness :
  Forall (fun '(o, name, v) =>
            observe (snd (evaluate stealthScript plain_page)) (Read o name) = Value v)
         overrides /\
  Forall (fun '(name, v) =>
            observe (snd (evaluate stealthScript plain_page)) (Chrome name) = Value v)
         chrome_members /\
  observe (snd (evaluate stealthScript plain_page)) GetTimezoneOffset
  = Value (Number (-480)).
Proof. apply (completed_payload_overrides plain_page). vm_compute. reflexivity. Defined.

(** Property X3.  After an evaluation that ran to its end, each overridden property
    is an own property of its object; it is configurable exactly when the
    page had it as an own property before.  A property the payload adds
    is not configurable, so it cannot be defined a second time. *)
Theorem overridden_properties_keep_configurability (p : Page) :
  fst (evaluate stealthScript p) = Some tt ->
  Forall (fun '(o, name, _) =>
            observe (snd (evaluate stealthScript p)) (OwnConfigurable o name)
            = Value (Boolean (present (own (host o p) !! name))))
         overrides.
Proof.
  intros H. apply completed_installed in H. destruct H as [_ ->].
  unfold overrides.
  repeat (constructor;
          [ own_of_installed;
            match goal with
            | |- context [override ?n ?v ?m !! ?n] =>
                pose proof (lookup_override_configurable n v m) as Hc;
                destruct (override n v m !! n) as [slot|]; cbn in Hc;
                [injection Hc as ->|discriminate Hc];
                rewrite ?lookup_override by names_differ; reflexivity
            end | ]).
  constructor.
Qed.

Lemma overridden_properties_keep_configurability_witness :
  Forall (fun '(o, name, _) =>
            observe (snd (evaluate stealthScript plain_page)) (OwnConfigurable o name)
            = Value (Boolean (present (own (host o plain_page) !! name))))
         overrides.
Proof.
  apply (overridden_properties_keep_configurability plain_page).
  vm_compute. reflexivity.
Defined.

(** *** What the payload leaves alone *)

Lemma defineProperty_frames_own o name o' n' v :
  (o' = o -> name <> n') ->
  frames (fun q => own (host o q) !! name) (defineProperty o' n' v).
Proof.
  intros Hne q q' H. rewrite defineProperty_eq in H.
  destruct (definable n' (own (host o' q))); [|discriminate].
  injection H as <-.
  destruct o, o'; cbn [host with_host with_navigator with_document with_screen
                       navigator document screen own];
    try reflexivity; apply lookup_override; apply Hne; reflexivity.
Qed.

Lemma defineProperty_frames_prototype o o' n' v :
  frames (fun q => prototype (host o q)) (defineProperty o' n' v).
Proof.
  intros q q' H. rewrite defineProperty_eq in H.
  destruct (definable n' (own (host o' q))); [|discriminate].
  injection H as <-. destruct o, o'; reflexivity.
Qed.

Lemma delete_webdriver_frames_own o :
  frames (fun q => own (host o q)) delete_webdriver.
Proof.
  intros q q' H. rewrite delete_webdriver_eq in H. injection H as <-.
  destruct o; reflexivity.
Qed.

Lemma delete_webdriver_frames_prototype o name :
  (o, name) <> (Navigator, "webdriver") ->
  frames (fun q => prototype (host o q) !! name) delete_webdriver.
Proof.
  intros Hne q q' H. rewrite delete_webdriver_eq in H. injection H as <-.
  destruct o; try reflexivity.
  cbn [host with_navigator navigator prototype].
  destruct (prototype (navigator q) !! "webdriver") as [[[] ?]|]; try reflexivity.
  apply lookup_delete_ne. intros <-. apply Hne. reflexivity.
Qed.

Lemma frames_weaken {A B} (f : Page -> A) (g : A -> B) t :
  frames f t -> frames (fun q => g (f q)) t.
Proof. intros H q q' E. rewrite (H q q' E). reflexivity. Qed.

(** The statements that are no [defineProperty] keep the three objects,
    the prototype of [navigator] apart. *)
Ltac keeps_host :=
  let q := fresh "q" in
  let q' := fresh "q'" in
  let H := fresh "H" in
  intros q q' H; ran H; destruct_host; reflexivity
with destruct_host :=
  match goal with
  | |- context [host ?o _] => destruct o
  end.

Ltac listed := repeat (first [left; reflexivity | right]).

Lemma other_properties_framed o name :
  ~ In (o, name) (map fst overrides) ->
  Forall (frames (fun q => own (host o q) !! name)) stealthScript /\
  Forall (frames (fun q => prototype (host o q) !! name)) stealthScript.
Proof.
  intros Hnot.
  assert (Hne : forall n' v, In (o, n', v) overrides -> name <> n').
  { intros n' v Hin ->. apply Hnot. apply (in_map fst) in Hin. exact Hin. }
  split; unfold stealthScript; every;
    first
      [ apply defineProperty_frames_own; intros <-;
        match goal with
        | |- _ <> ?n' => eapply (Hne n'); unfold overrides; cbn [In]; listed
        end
      | apply (frames_weaken (fun q => prototype (host o q)) (fun m => m !! name));
        apply defineProperty_frames_prototype
      | apply (frames_weaken (fun q => own (host o q)) (fun m => m !! name));
        apply delete_webdriver_frames_own
      | apply delete_webdriver_frames_prototype; intros E; apply Hnot;
        rewrite E; left; reflexivity
      | keeps_host ].
Qed.

(** The properties of [navigator] the payload writes through without
    [Object.defineProperty]: it assigns [navigator.getBattery], and it
    replaces a method of [navigator.permissions] and one of
    [navigator.mediaDevices].  The page keeps them in fields of their own
    ([getBattery], [query], [enumerateDevices]), apart from the maps of
    [navigator]. *)
Definition written_through : list (HostName * string) :=
  [(Navigator, "getBattery"); (Navigator, "permissions");
   (Navigator, "mediaDevices")].

(** Property X4.  Whether it runs to its end or throws on the way, the payload leaves
    every property of [navigator], [document] and [screen] as it was,
    what reading it gives and whether it is an own, configurable
    property, unless it is one of [overrides] or one of the three of
    [written_through]: [navigator.getBattery], which the payload assigns,
    and [navigator.permissions] and [navigator.mediaDevices], of which it
    replaces a method. *)
Theorem payload_touches_no_other_property (p : Page) (o : HostName) (name : string) :
  ~ In (o, name) (map fst overrides) ->
  ~ In (o, name) written_through ->
  let q := snd (evaluate stealthScript p) in
  observe q (Read o name) = observe p (Read o name) /\
  observe q (OwnConfigurable o name) = observe p (OwnConfigurable o name).
Proof.
  intros Hnot _. destruct (other_properties_framed o name Hnot) as [Hown Hproto].
  pose proof (evaluate_frames _ _ Hown p) as E1.
  pose proof (evaluate_frames _ _ Hproto p) as E2.
  cbv zeta. unfold observe, read. cbv beta in E1, E2. rewrite E1, E2.
  split; reflexivity.
Qed.

Lemma payload_touches_no_other_property_witness :
  observe (snd (evaluate stealthScript plain_page)) (Read Navigator "userAgent")
  = observe plain_page (Read Navigator "userAgent") /\
  observe (snd (evaluate stealthScript plain_page)) (OwnConfigurable Navigator "userAgent")
  = observe plain_page (OwnConfigurable Navigator "userAgent").
Proof.
  apply (payload_touches_no_other_property plain_page Navigator "userAgent").
  - cbn. intros H. repeat (destruct H as [H|H]; [discriminate H|]). exact H.
  - cbn. intros H. repeat (destruct H as [H|H]; [discriminate H|]). exact H.
Defined.


(** *** The wrappers the payload installs *)

(** Property X5.  After an evaluation that ran to its end,
    [navigator.permissions.query({ name })] resolves for
    ['notifications'] to the [permission] of [window.Notification], which
    is the page's own if it had one and the payload's stub otherwise; for
    any other name it is what the original [query] gives when it is
    called without its receiver (the wrapper calls [originalQuery] as a
    plain function). *)
Theorem patched_query_after_payload (p : Page) (originalQuery : Query) (name : string) :
  fst (evaluate stealthScript p) = Some tt ->
  query p = Some originalQuery ->
  let notification :=
    match Notification p with Some n => n | None => notificationStub end in
  observe (snd (evaluate stealthScript p)) (PermissionsQuery name)
  = if String.eqb name "notifications"
    then Value (Promise (Obj [("state", field notification "permission")]))
    else seen (call originalQuery false (Some notification) name).
Proof.
  intros H Hq. apply completed_installed in H. destruct H as [_ ->]. cbv zeta.
  unfold installed, observe. cbn [query Notification]. rewrite Hq.
  cbn [patched_query call].
  destruct (Notification p) as [n|]; destruct (String.eqb name "notifications");
    reflexivity.
Qed.

Lemma patched_query_after_payload_witness :
  observe (snd (evaluate stealthScript plain_page)) (PermissionsQuery "geolocation")
  = Thrown.
Proof.
  refine (patched_query_after_payload plain_page _ "geolocation" _ eq_refl).
  vm_compute. reflexivity.
Defined.

(** Property X6.  After an evaluation that ran to its end, [getParameter] of both WebGL
    contexts answers 37445 with 'Intel Inc.' and 37446 with
    'Intel(R) Iris(R) Xe Graphics', and every other parameter as it did
    before. *)
Theorem webgl_masks_two_parameters (p : Page) (parameter : Z) :
  fst (evaluate stealthScript p) = Some tt ->
  let q := snd (evaluate stealthScript p) in
  let masked (before : Seen) : Seen :=
    if Z.eqb parameter 37445 then Value (Str "Intel Inc.")
    else if Z.eqb parameter 37446 then Value (Str "Intel(R) Iris(R) Xe Graphics")
    else before in
  observe q (GetParameter1 parameter) = masked (observe p (GetParameter1 parameter)) /\
  observe q (GetParameter2 parameter) = masked (observe p (GetParameter2 parameter)).
Proof.
  intros H. apply completed_installed in H. destruct H as [Hr ->]. cbv zeta.
  unfold ready in Hr. repeat (apply andb_prop in Hr; destruct Hr as [Hr ?]).
  unfold installed, observe. cbn [WebGLRenderingContext WebGL2RenderingContext].
  destruct (WebGLRenderingContext p) as [g|]; [|discriminate].
  destruct (WebGL2RenderingContext p) as [g2|]; [|discriminate].
  cbn [patched_getParameter call].
  destruct (Z.eqb parameter 37445); [split; reflexivity|].
  destruct (Z.eqb parameter 37446); split; reflexivity.
Qed.

Lemma webgl_masks_two_parameters_witness :
  observe (snd (evaluate stealthScript plain_page)) (GetParameter1 37446)
  = Value (Str "Intel(R) Iris(R) Xe Graphics") /\
  observe (snd (evaluate stealthScript plain_page)) (GetParameter2 37446)
  = Value (Str "Intel(R) Iris(R) Xe Graphics").
Proof.
  apply (webgl_masks_two_parameters plain_page 37446). vm_compute. reflexivity.
Defined.

(** Property X7.  After an evaluation that ran to its end,
    [Function.prototype.toString] gives native-code text for
    [navigator.permissions.query] and for every function named
    [sendMessage], and for itself what it gave before; for every other
    function it gives what the original gives, so the text of the
    payload's other wrappers stays readable. *)
Theorem toString_proxy_hides_three_callees (p : Page) :
  fst (evaluate stealthScript p) = Some tt ->
  let q := snd (evaluate stealthScript p) in
  observe q (Stringify TheQuery) = Code (NativeCode "query") /\
  (forall text,
     observe q (Stringify (Another "sendMessage" text))
     = Code (NativeCode "sendMessage")) /\
  observe q (Stringify TheToString) = observe p (Stringify TheToString) /\
  (forall name text,
     name <> "sendMessage" ->
     observe q (Stringify (Another name text))
     = observe p (Stringify (Another name text))).
Proof.
  intros H. apply completed_installed in H. destruct H as [Hr ->]. cbv zeta.
  unfold ready in Hr. repeat (apply andb_prop in Hr; destruct Hr as [Hr ?]).
  unfold toString_answers in *.
  unfold installed, observe, callee, has_permissions. cbn [query toString].
  destruct (query p) as [originalQuery|]; [|discriminate].
  cbn [query toString].
  destruct (apply (toString p) true (itself (toString p)))
    as [nativeToStringFunctionString|] eqn:Et; [|discriminate].
  cbn [proxy apply negb is_query is_toString callee_name itself String.eqb].
  split; [reflexivity|]. split; [reflexivity|]. split.
  - reflexivity.
  - intros name text Hname.
    destruct (String.eqb name "sendMessage") eqn:E; [|reflexivity].
    apply String.eqb_eq in E. contradiction.
Qed.

Lemma toString_proxy_hides_three_callees_witness :
  observe (snd (evaluate stealthScript plain_page)) (Stringify TheQuery)
  = Code (NativeCode "query") /\
  (forall text,
     observe (snd (evaluate stealthScript plain_page))
       (Stringify (Another "sendMessage" text))
     = Code (NativeCode "sendMessage")) /\
  observe (snd (evaluate stealthScript plain_page)) (Stringify TheToString)
  = observe plain_page (Stringify TheToString) /\
  (forall name text,
     name <> "sendMessage" ->
     observe (snd (evaluate stealthScript plain_page)) (Stringify (Another name text))
     = observe plain_page (Stringify (Another name text))).
Proof.
  apply (toString_proxy_hides_three_callees plain_page). vm_compute. reflexivity.
Defined.

Lemma filter_sublist {A} (f : A -> bool) (l : list A) :
  sublist (List.filter f l) l.
Proof.
  induction l as [|a l IH]; cbn [List.filter]; [constructor|].
  destruct (f a); [apply sublist_skip | apply sublist_cons]; exact IH.
Qed.

(** Property X8.  After an evaluation that ran to its end on a page that has
    [navigator.mediaDevices.enumerateDevices], the devices it lists are
    those the original lists whose [kind] is neither 'audioinput' nor
    'videoinput', in the original's order. *)
Theorem enumerateDevices_hides_recorders (p : Page)
    (originalEnumerateDevices : Function (list Device)) :
  fst (evaluate stealthScript p) = Some tt ->
  enumerateDevices p = Some originalEnumerateDevices ->
  exists found,
    observe (snd (evaluate stealthScript p)) EnumerateDevices = Devices found /\
    (forall device,
       In device found <->
       In device (call originalEnumerateDevices) /\
       kind device <> "audioinput" /\ kind device <> "videoinput") /\
    sublist found (call originalEnumerateDevices).
Proof.
  intros H He. apply completed_installed in H. destruct H as [_ ->].
  exists (List.filter not_a_recorder (call originalEnumerateDevices)).
  unfold installed, observe. cbn [enumerateDevices]. rewrite He.
  split; [reflexivity|]. split.
  - intros device. rewrite List.filter_In. unfold not_a_recorder.
    rewrite andb_true_iff, !negb_true_iff.
    destruct (String.eqb_spec (kind device) "audioinput"),
             (String.eqb_spec (kind device) "videoinput"); intuition congruence.
  - apply filter_sublist.
Qed.

(** A page that lists a microphone, a loudspeaker and a camera. *)
Definition page_with_devices : Page :=
  with_enumerateDevices
    (Some (browser_function "enumerateDevices"
             [ {| kind := "audioinput"; label := "microphone" |};
               {| kind := "audiooutput"; label := "loudspeaker" |};
               {| kind := "videoinput"; label := "camera" |} ]))
    plain_page.

Lemma enumerateDevices_hides_recorders_witness :
  exists found,
    observe (snd (evaluate stealthScript page_with_devices)) EnumerateDevices
    = Devices found /\
    (forall device,
       In device found <->
       In device [ {| kind := "audioinput"; label := "microphone" |};
                   {| kind := "audiooutput"; label := "loudspeaker" |};
                   {| kind := "videoinput"; label := "camera" |} ] /\
       kind device <> "audioinput" /\ kind device <> "videoinput") /\
    sublist found [ {| kind := "audioinput"; label := "microphone" |};
                    {| kind := "audiooutput"; label := "loudspeaker" |};
                    {| kind := "videoinput"; label := "camera" |} ].
Proof.
  refine (enumerateDevices_hides_recorders page_with_devices _ _ eq_refl).
  vm_compute. reflexivity.
Defined.

(** *** An evaluation that throws *)

Definition navigator_names : list string :=
  [ "webdriver"; "platform"; "vendor"; "productSub"; "maxTouchPoints";
    "hardwareConcurrency"; "deviceMemory"; "connection"; "plugins"; "languages";
    "language" ].

Ltac statement_holds :=
  rewrite evaluate_cons;
  lazymatch goal with
  | |- context [match defineProperty ?o ?n ?v ?q with _ => _ end] =>
      rewrite (defineProperty_eq o n v q); page_fields;
      rewrite ?definable_override by names_differ;
      lazymatch goal with
      | H : definable ?n' ?m = true |- context [if definable ?n' ?m then _ else _] =>
          rewrite H; page_fields
      end
  | |- context [match delete_webdriver ?q with _ => _ end] =>
      rewrite (delete_webdriver_eq q); page_fields
  | |- context [match ensure_chrome ?q with _ => _ end] =>
      rewrite (ensure_chrome_eq q); page_fields
  | |- context [match set_chrome ?n ?v ?q with _ => _ end] =>
      unfold set_chrome at 1; page_fields
  end.

(** Property X9.  On a page without [navigator.permissions] whose [navigator] lets
    sections 1 to 5 define their properties, the evaluation throws at
    section 6 and leaves the page half patched: [navigator] and
    [window.chrome] are as a complete evaluation makes them, and nothing
    of sections 6 to 14 is applied. *)
Theorem payload_stops_at_missing_permissions (p : Page) :
  query p = None ->
  Forall (fun name => definable name (own (navigator p)) = true) navigator_names ->
  evaluate stealthScript p
  = (None, with_chrome (chrome (installed p))
             (with_navigator (navigator (installed p)) p)).
Proof.
  destruct p as [[nown nproto] [down dproto] [sown sproto] chrome0 query0 gl gl2
                   ts bat notif enum tz].
  cbn [query navigator own]. intros -> Hnames.
  unfold navigator_names in Hnames.
  repeat match goal with
         | H : Forall _ (_ :: _) |- _ =>
             let H1 := fresh "Hname" in
             let H2 := fresh "Hrest" in
             apply Forall_cons_1 in H; destruct H as [H1 H2]
         end.
  unfold installed, stealthScript. page_fields.
  do 17 statement_holds.
  rewrite evaluate_cons. reflexivity.
Qed.

Lemma payload_stops_at_missing_permissions_witness :
  evaluate stealthScript (with_query None plain_page)
  = (None, with_chrome (chrome (installed (with_query None plain_page)))
             (with_navigator (navigator (installed (with_query None plain_page)))
                (with_query None plain_page))).
Proof.
  apply (payload_stops_at_missing_permissions (with_query None plain_page)).
  - reflexivity.
  - unfold navigator_names. repeat constructor.
Defined.

End StealthInstall.

(** ** Steps of the sign-in drivers *)

Module CheckinSteps.
Import JS Checkin JSFacts CheckinFacts.
Local Open Scope js_scope.

(** *** Typing *)

(** The keys a record shows, in the order they were pressed. *)
Fixpoint typed (l : list Event) : list ascii :=
  match l with
  | [] => []
  | Called (KeyboardType c) :: rest => c :: typed rest
  | _ :: rest => typed rest
  end.

(** A record of key presses and pauses of [min] to [max] ms. *)
Definition key_or_pause (min max : Z) (e : Event) : Prop :=
  match e with
  | Called (KeyboardType _) => True
  | Slept d => min <= d <= max
  | _ => False
  end.

Lemma typed_app l1 l2 : typed (l1 ++ l2) = (typed l1 ++ typed l2)%list.
Proof.
  induction l1 as [|e l1 IH]; [reflexivity|].
  destruct e as [[]| | | |]; cbn [typed app]; rewrite ?IH; reflexivity.
Qed.

(** The world once a key is down, and once the pause after it is over. *)
Definition key_down (env : Env) (c : ascii) (w : World) : World :=
  snd (call env (KeyboardType c) w).

Definition key_done (env : Env) (c : ascii) (min max : Z) (w : World) : World :=
  snd (randomDelay env min max (key_down env c w)).

Lemma typeChars_step env c s min max w :
  typeChars env (String c s) min max w =
    if throws env (KeyboardType c) w then (Throw, key_down env c w)
    else typeChars env s min max (key_done env c min max w).
Proof.
  cbn [typeChars]. unfold key_done, key_down, bind, call, randomDelay.
  destruct (throws env (KeyboardType c) w); reflexivity.
Qed.

Lemma key_down_trace env c w :
  trace (key_down env c w) = (trace w ++ [Called (KeyboardType c)])%list.
Proof.
  unfold key_down, call. destruct (throws env (KeyboardType c) w); reflexivity.
Qed.

Lemma key_done_trace env c min max w :
  trace (key_done env c min max w)
  = (trace w ++ [Called (KeyboardType c);
                 Slept (getRandomDelay (Math_random env (key_down env c w)) min max)])%list.
Proof.
  unfold key_done, randomDelay. cbn [snd trace emit advance].
  rewrite key_down_trace, <- app_assoc. reflexivity.
Qed.

(** Property X10.  The typing loop presses the characters of the text in order, one
    [keyboard.type] each, and pauses [min] to [max] ms after each key
    (for [min <= max]); it does nothing else.  If a key press is rejected
    the loop stops there, with a prefix of the text typed; if the loop
    runs to its end, the whole text has been typed, with one pause per
    character. *)
Theorem typeChars_types_the_text_in_order
    (env : Env) (s : string) (min max : Z) (w : World) :
  min <= max ->
  exists l,
    trace (snd (typeChars env s min max w)) = (trace w ++ l)%list /\
    Forall (key_or_pause min max) l /\
    typed l `prefix_of` list_ascii_of_string s /\
    fst (typeChars env s min max w) <> ReturnNull /\
    (fst (typeChars env s min max w) = Ok tt ->
     typed l = list_ascii_of_string s /\
     List.length l = (2 * String.length s)%nat).
Proof.
  intros Hle. revert w. induction s as [|c s IH]; intros w.
  - exists []. cbn. rewrite app_nil_r.
    split; [reflexivity|]. split; [constructor|].
    split; [exists []; reflexivity|]. split; [discriminate|].
    intros _. split; reflexivity.
  - rewrite typeChars_step.
    destruct (throws env (KeyboardType c) w) eqn:Ethrows.
    + cbn [fst snd]. rewrite key_down_trace. eexists [_].
      split; [reflexivity|]. split; [repeat constructor|].
      split; [exists (list_ascii_of_string s); reflexivity|].
      split; discriminate.
    + destruct (IH (key_done env c min max w)) as (l & El & Fl & Pl & Nl & Okl).
      rewrite El, key_done_trace, <- app_assoc.
      eexists (_ :: _ :: l). split; [reflexivity|].
      split.
      { constructor; [exact I|]. constructor; [|exact Fl].
        apply getRandomDelay_range. exact Hle. }
      split.
      { cbn [typed list_ascii_of_string]. destruct Pl as [k ->].
        exists k. reflexivity. }
      split; [exact Nl|].
      intros Hok. destruct (Okl Hok) as [Ht Hn].
      cbn [typed list_ascii_of_string List.length String.length].
      rewrite Ht, Hn. split; [reflexivity | lia].
Qed.

Lemma typeChars_types_the_text_in_order_witness :
  exists l,
    trace (snd (typeChars idle_env "pw" 50 150 start_world))
    = (trace start_world ++ l)%list /\
    Forall (key_or_pause 50 150) l /\
    typed l `prefix_of` list_ascii_of_string "pw" /\
    fst (typeChars idle_env "pw" 50 150 start_world) <> ReturnNull /\
    (fst (typeChars idle_env "pw" 50 150 start_world) = Ok tt ->
     typed l = list_ascii_of_string "pw" /\
     List.length l = (2 * String.length "pw")%nat).
Proof. apply (typeChars_types_the_text_in_order idle_env "pw" 50 150). lia. Defined.

(** *** The notice to the operator *)

(** Property X11.  The e-mail notice of the device verification never stops the run:
    it ends normally whether the mail is sent, rejected or skipped.  The
    recipient is the account's [noticeEmail] if that is not empty and
    [EMAIL_TO] otherwise; with both empty no mail is attempted. *)
Theorem notifyOperator_is_best_effort (env : Env) (a : Args) (w : World) :
  let emailTo := or_else (noticeEmail a) (EMAIL_TO env) in
  fst (notifyOperator env a w) = Ok tt /\
  exists l,
    trace (snd (notifyOperator env a w)) = (trace w ++ l)%list /\
    if truthy_str emailTo
    then l = [Called (SendEmail emailTo);
              Logged (if throws env (SendEmail emailTo) w
                      then LogEmailFailed else LogEmailSent)]
    else l = [Logged LogEmailSkipped].
Proof.
  cbv zeta. unfold notifyOperator, try_catch, bind, call, log. cbv zeta.
  destruct (truthy_str (or_else (noticeEmail a) (EMAIL_TO env))).
  - destruct (throws env (SendEmail _) w); cbn; rewrite <- app_assoc;
      (split; [reflexivity|]); eexists; split; reflexivity.
  - cbn. split; [reflexivity|]. eexists; split; reflexivity.
Qed.

(** *** The [finally] block of a sticky provider *)

Definition leaves_cookies (e : Event) : Prop :=
  match e with
  | Called ClearCookies | Called (AddCookies _) | Called ClearStorage
  | Called ContextCookies => False
  | _ => True
  end.

(** Property X12.  For a base URL that does not contain 'agentrouter.org', the
    [finally] block of the GitHub driver never throws, never reads,
    clears or adds cookies and never clears the storage; it leaves the
    jar as it found it, and what a [context.close()] persists is that
    jar. *)
Theorem sticky_provider_keeps_its_cookies (env : Env) (base : string) (w : World) :
  includes base "agentrouter.org" = false ->
  fst (cleanup env base w) = Ok tt /\
  jar (snd (cleanup env base w)) = jar w /\
  exists l,
    trace (snd (cleanup env base w)) = (trace w ++ l)%list /\
    Forall leaves_cookies l /\
    (forall j, In (Persisted j) l -> j = jar w).
Proof.
  intros Hbase. unfold cleanup. rewrite Hbase.
  unfold try_catch, pageOpen, when, bind, log, read, call, ret. cbv zeta.
  cbn [fst snd].
  destruct (page w && negb (page_isClosed env w)); cbn [fst snd].
  - destruct (throws env PageClose w); cbn [fst snd jar_after].
    + cbn. rewrite <- app_assoc. split; [reflexivity|]. split; [reflexivity|].
      eexists. split; [reflexivity|]. split; [repeat constructor|].
      intros j Hj. cbn in Hj. intuition discriminate.
    + cbn [context emit set_jar advance].
      destruct (context w); cbn [fst snd].
      * destruct (throws env ContextClose _); cbn; rewrite <- ?app_assoc;
          (split; [reflexivity|]); (split; [reflexivity|]);
          eexists; (split; [reflexivity|]); (split; [repeat constructor|]);
          intros j Hj; cbn in Hj;
          repeat (destruct Hj as [Hj|Hj]; [try discriminate Hj|]);
          try contradiction.
        injection Hj as <-. reflexivity.
      * cbn. rewrite <- ?app_assoc. split; [reflexivity|]. split; [reflexivity|].
        eexists. split; [reflexivity|]. split; [repeat constructor|].
        intros j Hj. cbn in Hj. intuition discriminate.
  - destruct (context w); cbn [fst snd].
    + destruct (throws env ContextClose _); cbn; rewrite <- ?app_assoc;
        (split; [reflexivity|]); (split; [reflexivity|]);
        eexists; (split; [reflexivity|]); (split; [repeat constructor|]);
        intros j Hj; cbn in Hj;
        repeat (destruct Hj as [Hj|Hj]; [try discriminate Hj|]);
        try contradiction.
      injection Hj as <-. reflexivity.
    + cbn. split; [reflexivity|]. split; [reflexivity|].
      eexists. split; [reflexivity|]. split; [repeat constructor|].
      intros j Hj. cbn in Hj. intuition discriminate.
Qed.

Lemma sticky_provider_keeps_its_cookies_witness :
  fst (cleanup idle_env "https://anyrouter.top" start_world) = Ok tt /\
  jar (snd (cleanup idle_env "https://anyrouter.top" start_world)) = jar start_world /\
  exists l,
    trace (snd (cleanup idle_env "https://anyrouter.top" start_world))
    = (trace start_world ++ l)%list /\
    Forall leaves_cookies l /\
    (forall j, In (Persisted j) l -> j = jar start_world).
Proof.
  apply (sticky_provider_keeps_its_cookies idle_env "https://anyrouter.top").
  vm_compute. reflexivity.
Defined.

(** *** A [page.close()] that rejects *)

(** What the block may leave on record when the context is not closed. *)
Definition left_open (e : Event) : Prop :=
  match e with
  | Called ContextClose | Called BrowserClose | Persisted _
  | Logged LogStateSaved => False
  | _ => True
  end.

(** The extra cleanup of the non-sticky provider closes nothing; it
    leaves the variable [page] alone and has no [return]. *)
Lemma cleanAgentRouter_leaves_open env w :
  exists l,
    trace (snd (cleanAgentRouter env w)) = (trace w ++ l)%list /\
    Forall left_open l /\
    page (snd (cleanAgentRouter env w)) = page w /\
    fst (cleanAgentRouter env w) <> ReturnNull.
Proof.
  assert (He : emits left_open (cleanAgentRouter env)).
  { repeat emits_step; intros; exact I. }
  destruct (He w) as (l & El & Fl). exists l.
  split; [exact El|]. split; [exact Fl|]. clear.
  unfold cleanAgentRouter, pageOpen, when, bind, log, read, call, ret, try_catch.
  cbv zeta. cbn [fst snd context emit].
  destruct (context w); cbn [fst snd].
  2:{ destruct (page _ && negb (page_isClosed env _)); cbn [fst snd];
        [destruct (throws env ClearStorage _)|]; split; reflexivity || discriminate. }
  destruct (throws env ContextCookies _); cbn [fst snd];
    [split; reflexivity || discriminate|].
  cbn [jar emit set_jar jar_after advance].
  destruct (Nat.ltb 0 (List.length (List.filter isAgentRouter (jar w))));
    cbn [fst snd].
  2:{ destruct (page _ && negb (page_isClosed env _)); cbn [fst snd];
        [destruct (throws env ClearStorage _)|]; split; reflexivity || discriminate. }
  destruct (throws env ClearCookies _); cbn [fst snd];
    [split; reflexivity || discriminate|].
  destruct (Nat.ltb 0 (List.length (List.filter _ (jar w)))); cbn [fst snd].
  - destruct (throws env (AddCookies _) _); cbn [fst snd];
      [split; reflexivity || discriminate|].
    destruct (page _ && negb (page_isClosed env _)); cbn [fst snd];
      [destruct (throws env ClearStorage _)|]; split; reflexivity || discriminate.
  - destruct (page _ && negb (page_isClosed env _)); cbn [fst snd];
      [destruct (throws env ClearStorage _)|]; split; reflexivity || discriminate.
Qed.

(** The closing part when [page.close()] rejects. *)
Lemma closing_stops_at_the_page env w :
  page w = true -> page_isClosed env w = false -> throws env PageClose w = true ->
  fst (closing env w) = Throw /\
  trace (snd (closing env w)) = (trace w ++ [Called PageClose])%list.
Proof.
  intros Hpage Hopen Hthrows.
  unfold closing, pageOpen, when, bind, log, read, call, ret. cbv zeta.
  cbn [fst snd]. rewrite Hpage, Hopen. cbn [andb negb fst snd]. rewrite Hthrows.
  split; reflexivity.
Qed.

(** Property X13.  When the page is open and [page.close()] rejects, the [finally]
    block of either driver, whatever the base URL, logs a warning and
    ends: [context.close()] and [browser.close()] are not attempted, so
    the context is not persisted and, in the LinuxDo driver, the browser
    is left running.  For a sticky provider and in the LinuxDo driver the
    block does nothing but call [page.close()] and warn; for the
    non-sticky provider the extra cleanup comes first, and [page.close()]
    is called if that ran to its end. *)
Theorem failed_page_close_leaves_the_rest_open (env : Env) (base : string) (w : World) :
  page w = true ->
  (forall w', page_isClosed env w' = false) ->
  (forall w', throws env PageClose w' = true) ->
  fst (cleanup env base w) = Ok tt /\
  (exists made,
     trace (snd (cleanup env base w))
       = (trace w ++ made ++ [Logged LogCleanupWarning])%list /\
     Forall left_open made /\
     (includes base "agentrouter.org" = false -> made = [Called PageClose]) /\
     (fst (cleanAgentRouter env w) = Ok tt ->
      exists cleaning, made = (cleaning ++ [Called PageClose])%list)) /\
  fst (linuxDoCleanup env w) = Ok tt /\
  trace (snd (linuxDoCleanup env w))
  = (trace w ++ [Called PageClose; Logged LogCleanupWarning])%list.
Proof.
  intros Hpage Hopen Hthrows.
  assert (Hlinux : fst (linuxDoCleanup env w) = Ok tt /\
                   trace (snd (linuxDoCleanup env w))
                   = (trace w ++ [Called PageClose; Logged LogCleanupWarning])%list).
  { unfold linuxDoCleanup.
    unfold try_catch, pageOpen, when, bind, log, read, call, ret. cbv zeta.
    cbn [fst snd]. rewrite Hpage, Hopen. cbn [andb negb fst snd]. rewrite Hthrows.
    cbn. rewrite <- app_assoc. split; reflexivity. }
  destruct (includes base "agentrouter.org") eqn:Hbase.
  - assert (Hrun : cleanup env base w
                   = try_catch (cleanAgentRouter env ;; closing env)
                       (log LogCleanupWarning) w).
    { unfold cleanup. rewrite Hbase. reflexivity. }
    rewrite Hrun. unfold try_catch, bind.
    destruct (cleanAgentRouter_leaves_open env w) as (l & El & Fl & Hp & Hr).
    destruct (cleanAgentRouter env w) as [[[]| |] w1]; cbn [fst snd] in *.
    + destruct (closing_stops_at_the_page env w1 ltac:(congruence) (Hopen w1)
                  (Hthrows w1)) as (Hthrow & Et).
      destruct (closing env w1) as [o w2]. cbn [fst snd] in *. subst o.
      cbn [log fst snd trace emit].
      split; [reflexivity|]. split; [|exact Hlinux].
      exists (l ++ [Called PageClose])%list.
      split; [rewrite Et, El, <- !app_assoc; reflexivity|].
      split; [apply Forall_app; split; [exact Fl | repeat constructor]|].
      split; [discriminate|]. intros _. exists l. reflexivity.
    + contradiction.
    + cbn [log fst snd trace emit].
      split; [reflexivity|]. split; [|exact Hlinux].
      exists l. split; [rewrite El, <- app_assoc; reflexivity|].
      split; [exact Fl|]. split; discriminate.
  - split; [|split; [|exact Hlinux]].
    + unfold cleanup. rewrite Hbase.
      unfold try_catch, pageOpen, when, bind, log, read, call, ret. cbv zeta.
      cbn [fst snd]. rewrite Hpage, Hopen. cbn [andb negb fst snd]. rewrite Hthrows.
      reflexivity.
    + exists [Called PageClose].
      split; [|split; [repeat constructor|split; [reflexivity|]]].
      * unfold cleanup. rewrite Hbase.
        unfold try_catch, pageOpen, when, bind, log, read, call, ret. cbv zeta.
        cbn [fst snd]. rewrite Hpage, Hopen. cbn [andb negb fst snd].
        rewrite Hthrows. cbn. rewrite <- app_assoc. reflexivity.
      * intros _. exists []. reflexivity.
Qed.

(** A page that is open and whose [close()] rejects. *)
Definition stubborn_env : Env :=
  calm_env "" (fun _ => no_record)
    (fun c => match c with PageClose => true | _ => false end).

Definition open_world : World :=
  {| clock := 0; jar := []; browser := true; context := true; page := true;
     trace := [] |}.

Lemma failed_page_close_leaves_the_rest_open_witness :
  fst (cleanup stubborn_env "https://agentrouter.org" open_world) = Ok tt /\
  (exists made,
     trace (snd (cleanup stubborn_env "https://agentrouter.org" open_world))
       = (trace open_world ++ made ++ [Logged LogCleanupWarning])%list /\
     Forall left_open made /\
     (includes "https://agentrouter.org" "agentrouter.org" = false ->
      made = [Called PageClose]) /\
     (fst (cleanAgentRouter stubborn_env open_world) = Ok tt ->
      exists cleaning, made = (cleaning ++ [Called PageClose])%list)) /\
  fst (linuxDoCleanup stubborn_env open_world) = Ok tt /\
  trace (snd (linuxDoCleanup stubborn_env open_world))
  = (trace open_world ++ [Called PageClose; Logged LogCleanupWarning])%list.
Proof.
  apply (failed_page_close_leaves_the_rest_open stubborn_env "https://agentrouter.org"
           open_world); [reflexivity | intros w'; reflexivity | intros w'; reflexivity].
Defined.

(** *** A profile that is signed in already *)

(** The driver neither types, clicks nor fills, sends no mail and asks
    the backend nothing. *)
Definition hands_off (e : Event) : Prop :=
  match e with
  | Called (KeyboardType _) | Called (Click _) | Called (Fill _ _)
  | Called (SendEmail _) | Called WaitForPopup | Requested _ => False
  | _ => True
  end.

Lemma emits_bind_read (P : Event -> Prop) {A B} (f : World -> A) (k : A -> M B) :
  (forall w, emits P (k (f w))) -> emits P (bind (read f) k).
Proof. intros H w. unfold bind, read. exact (H w w). Qed.

Lemma signIn_hands_off env a :
  (forall w, includes (page_url env w) "/login" = false) ->
  emits hands_off (signIn env a).
Proof.
  intros Hurl. unfold signIn.
  do 9 (apply emits_bind; [repeat emits_step; exact I | intros ?]).
  apply emits_bind_read. intros w0. cbv zeta. rewrite Hurl.
  apply emits_bind; [|intros _; apply emits_ret].
  unfold detectExistingSession.
  destruct (includes (page_url env w0) "/console");
    repeat emits_step; exact I.
Qed.

(** Property X14.  If the page the driver lands on after opening [/login] never has
    '/login' in its URL (the profile is signed in already, or the site
    sent it elsewhere), a run of the GitHub driver presses no key,
    clicks and fills nothing, waits for no popup, sends no mail and asks
    the backend nothing: the credentials are not used. *)
Theorem signed_in_profile_is_left_alone (env : Env) (a : Args) (w : World) :
  (forall w', includes (page_url env w') "/login" = false) ->
  exists l,
    trace (snd (loginAndGetSession env a w)) = (trace w ++ l)%list /\
    Forall hands_off l.
Proof.
  intros Hurl. unfold loginAndGetSession.
  change (trace w) with (trace (declare_context_page w)). apply emits_finish.
  - unfold body. apply emits_bind; [apply signIn_hands_off; exact Hurl | intros _].
    repeat emits_step; exact I.
  - repeat emits_step; exact I.
  - repeat emits_step; intros; exact I.
Qed.

Definition console_env : Env :=
  calm_env "https://anyrouter.top/console" (fun _ => no_record) (fun _ => false).

Lemma signed_in_profile_is_left_alone_witness :
  exists l,
    trace (snd (loginAndGetSession console_env (sample_args "https://anyrouter.top")
                  start_world))
    = (trace start_world ++ l)%list /\
    Forall hands_off l.
Proof.
  apply (signed_in_profile_is_left_alone console_env).
  intros w'. vm_compute. reflexivity.
Defined.

(** *** How often the record is fetched *)

Definition is_poll (e : Event) : bool :=
  match e with
  | Requested (GetAccountLoginInfo _ _) => true
  | _ => false
  end.

(** The fetches of the record a trace shows. *)
Definition polls (l : list Event) : nat := List.length (List.filter is_poll l).

Lemma polls_app l1 l2 : polls (l1 ++ l2) = (polls l1 + polls l2)%nat.
Proof. unfold polls. rewrite List.filter_app, List.length_app. reflexivity. Qed.

Lemma polls_none l : Forall (fun e => is_poll e = false) l -> polls l = 0%nat.
Proof.
  unfold polls. induction 1 as [|e l He _ IH]; [reflexivity|].
  cbn [List.filter]. rewrite He. exact IH.
Qed.

Section Fetches.

Variable env : Env.
Variables (loginInfoId account : string) (startTime maxPollingTime : Z).

Let poll (fuel : nat) : M (option bool) :=
  pollLoop env fuel loginInfoId account startTime maxPollingTime.

Lemma answered_trace w :
  trace (answered env loginInfoId account w)
  = (trace w ++ [Requested (GetAccountLoginInfo loginInfoId account)])%list.
Proof. rewrite answered_eq. reflexivity. Qed.

Lemma fillCode_polls code w :
  exists l,
    trace (snd (fillCode env code w)) = (trace w ++ l)%list /\ polls l = 0%nat /\
    fst (fillCode env code w) <> Ok None.
Proof.
  assert (H : emits (fun e => is_poll e = false) (fillCode env code)).
  { unfold fillCode. repeat emits_step; reflexivity. }
  destruct (H w) as (l & El & Fl). exists l. split; [exact El|].
  split; [apply polls_none; exact Fl|].
  destruct (fillCode_trace env code w) as (_ & _ & [-> | ->]); discriminate.
Qed.

Lemma pollLoop_polls n :
  forall w,
    maxPollingTime - (clock w - startTime) <= 5000 * Z.of_nat n ->
    exists l,
      trace (snd (poll (S n) w)) = (trace w ++ l)%list /\
      (polls l <= n)%nat /\
      fst (poll (S n) w) <> Ok None.
Proof.
  induction n as [|n IH]; intros w Hn; unfold poll; rewrite pollLoop_any_turn.
  - assert (Hout : in_time env startTime maxPollingTime w = false).
    { unfold in_time. pose proof (clock_poll_head env w). apply Z.ltb_ge. lia. }
    rewrite Hout. exists []. cbn. rewrite app_nil_r.
    split; [reflexivity|]. split; [lia | discriminate].
  - destruct (in_time env startTime maxPollingTime w).
    2:{ exists []. cbn. rewrite app_nil_r.
        split; [reflexivity|]. split; [lia | discriminate]. }
    destruct (request_throws env _ (poll_head env w)).
    { cbn [fst snd]. rewrite answered_trace. eexists. split; [reflexivity|].
      split; [cbn; lia | discriminate]. }
    destruct (seen env loginInfoId account w) as [code|].
    + destruct (fillCode_polls code (answered env loginInfoId account w))
        as (l & El & Pl & Nl).
      rewrite El, answered_trace, <- app_assoc.
      eexists. split; [reflexivity|]. split; [|exact Nl].
      rewrite polls_app, Pl. cbn. lia.
    + destruct (retry_spec env loginInfoId account w) as (d & _ & Et & _).
      pose proof (clock_retry env loginInfoId account w) as Hc.
      destruct (IH (retry env loginInfoId account w)) as (l & El & Pl & Nl);
        [lia|].
      fold (poll (S n)). rewrite El, Et, <- app_assoc.
      eexists. split; [reflexivity|]. split; [|exact Nl].
      rewrite polls_app. cbn. lia.
Qed.

End Fetches.

(** Property X15.  The wait for the device code fetches the login record at most
    [(expireTime - now) / 5000 + 1] times (the quotient rounded down,
    and 0 if negative), [now] being the clock when the wait starts,
    whatever the record store answers and whether or not a fetch
    rejects. *)
Theorem record_is_fetched_a_bounded_number_of_times
    (env : Env) (account loginInfoId : string) (expireTime : Z) (w : World) :
  exists l,
    trace (snd (awaitDeviceCode env account loginInfoId expireTime w))
    = (trace w ++ l)%list /\
    (polls l <= S (Z.to_nat ((expireTime - clock w) / 5000)))%nat.
Proof.
  unfold awaitDeviceCode.
  unfold bind at 1. unfold log at 1. cbv zeta.
  unfold bind at 1. unfold Date_now at 1. cbv zeta.
  unfold bind at 1. unfold Date_now at 1. cbv zeta.
  set (w1 := advance _ (emit (Logged LogPollingStart) w)).
  set (w2 := advance _ w1).
  set (maxPollingTime := expireTime - clock w1).
  destruct (pollFuel_enough (clock w2) maxPollingTime w2 ltac:(lia))
    as (n & Efuel & Hn).
  assert (Hn' : n = S (Z.to_nat (maxPollingTime / 5000))).
  { unfold pollFuel in Efuel. congruence. }
  rewrite Efuel.
  destruct (pollLoop_polls env loginInfoId account (clock w2) maxPollingTime n w2 Hn)
    as (l & El & Pl & Nl).
  assert (Hw : (polls l <= S (Z.to_nat ((expireTime - clock w) / 5000)))%nat).
  { assert (maxPollingTime / 5000 <= (expireTime - clock w) / 5000).
    { apply Z.div_le_mono; [lia|]. unfold maxPollingTime, w1. cbn. lia. }
    lia. }
  assert (Et2 : trace w2 = (trace w ++ [Logged LogPollingStart])%list) by reflexivity.
  unfold bind at 1.
  destruct (pollLoop env (S n) loginInfoId account (clock w2) maxPollingTime w2)
    as [[[[|]|]| |] w3]; cbn [fst snd] in *;
    unfold randomDelay, bind, log, return_null, throw; cbn [fst snd trace emit advance];
    rewrite ?El, ?Et2, <- ?app_assoc;
    eexists; (split; [reflexivity|]); rewrite ?polls_app; cbn; lia.
Qed.

(** *** Screenshots of the LinuxDo driver *)

Ltac decide_all :=
  repeat match goal with
         | |- context [if ?b then _ else _] => destruct b eqn:?; cbn
         end.

Lemma captureAndUploadScreenshot_ok env w :
  fst (captureAndUploadScreenshot env w) = Ok tt.
Proof.
  unfold captureAndUploadScreenshot, try_catch, pageOpen, bind, read, ret, log,
    Date_now, call, request.
  cbn. decide_all; reflexivity.
Qed.

(** Property X16.  [waitWithScreenshot] gives what [waitFn] gives when that resolves,
    and does nothing more; when [waitFn] rejects it takes the screenshot
    and rethrows, whatever becomes of the screenshot and its upload. *)
Theorem waitWithScreenshot_rethrows (env : Env) {A : Type} (waitFn : M A) (w : World) :
  fst (waitWithScreenshot env waitFn w) = fst (waitFn w) /\
  (fst (waitFn w) <> Throw -> waitWithScreenshot env waitFn w = waitFn w) /\
  (fst (waitFn w) = Throw ->
   snd (waitWithScreenshot env waitFn w)
   = snd (captureAndUploadScreenshot env (snd (waitFn w)))).
Proof.
  unfold waitWithScreenshot, try_catch.
  destruct (waitFn w) as [[a| |] w1]; cbn [fst snd].
  - repeat split; discriminate.
  - repeat split; discriminate.
  - unfold bind, throw.
    pose proof (captureAndUploadScreenshot_ok env w1) as Hok.
    destruct (captureAndUploadScreenshot env w1) as [[[]| |] w2];
      try discriminate Hok.
    cbn. split; [reflexivity|]. split; [contradiction | reflexivity].
Qed.

(** Property X17.  When the upload request rejects, [captureAndUploadScreenshot]
    never removes the temporary file: [fs.unlink] is not called.  With an
    open page and no other failure it takes the screenshot, reads the
    file, asks for the upload and logs the error. *)
Theorem rejected_upload_leaves_the_temporary_file (env : Env) (w : World) :
  (forall w', request_throws env UploadImage w' = true) ->
  fst (captureAndUploadScreenshot env w) = Ok tt /\
  exists l,
    trace (snd (captureAndUploadScreenshot env w)) = (trace w ++ l)%list /\
    ~ In (Called UnlinkTempFile) l /\
    (page w = true -> page_isClosed env w = false ->
     (forall c w', throws env c w' = false) ->
     l = [Called Screenshot; Called ReadTempFile; Requested UploadImage;
          Logged (LogScreenshot "error")]).
Proof.
  intros Hrejects. split; [apply captureAndUploadScreenshot_ok|].
  unfold captureAndUploadScreenshot, try_catch, pageOpen, bind, read, ret, log,
    Date_now, call, request. cbn.
  destruct (page w && negb (page_isClosed env w)) eqn:Hopen; cbn.
  2:{ eexists. split; [reflexivity|]. split.
      - cbn. intuition discriminate.
      - intros Hp Hc _. rewrite Hp, Hc in Hopen. discriminate. }
  destruct (throws env Screenshot _) eqn:Hshot; cbn.
  { rewrite <- !app_assoc. eexists. split; [reflexivity|]. split.
    - cbn. intuition discriminate.
    - intros _ _ Hnone. rewrite Hnone in Hshot. discriminate. }
  destruct (throws env ReadTempFile _) eqn:Hread; cbn.
  { rewrite <- !app_assoc. eexists. split; [reflexivity|]. split.
    - cbn. intuition discriminate.
    - intros _ _ Hnone. rewrite Hnone in Hread. discriminate. }
  rewrite Hrejects. cbn. rewrite <- !app_assoc. eexists. split; [reflexivity|].
  split; [cbn; intuition discriminate | reflexivity].
Qed.

Definition offline_env : Env :=
  {| Math_random := fun _ => zero_frac;
     timer_lag := fun _ => 0%N;
     compute_lag := fun _ => 0%N;
     elapsed := fun _ _ => 0%N;
     throws := fun _ _ => false;
     site_cookies := fun _ w => jar w;
     request_elapsed := fun _ _ => 0%N;
     request_throws := fun _ _ => true;
     page_url := fun _ => "";
     visible := fun _ _ => true;
     has_pages := fun _ => true;
     page_isClosed := fun _ => false;
     userSelfResponse := fun _ => VNull;
     userSelf_wait := fun _ => Some 0%N;
     localStorage_user := fun _ => None;
     JSON_parse := fun _ => None;
     addAccountLoginInfo := fun _ => {| add_success := false; add_data := None |};
     getAccountLoginInfo := fun _ => no_record;
     uploadImage_ok := fun _ => false;
     generateTOTP := fun _ _ => None;
     EMAIL_TO := "" |}.

Lemma rejected_upload_leaves_the_temporary_file_witness :
  fst (captureAndUploadScreenshot offline_env open_world) = Ok tt /\
  exists l,
    trace (snd (captureAndUploadScreenshot offline_env open_world))
    = (trace open_world ++ l)%list /\
    ~ In (Called UnlinkTempFile) l /\
    (page open_world = true -> page_isClosed offline_env open_world = false ->
     (forall c w', throws offline_env c w' = false) ->
     l = [Called Screenshot; Called ReadTempFile; Requested UploadImage;
          Logged (LogScreenshot "error")]).
Proof.
  apply (rejected_upload_leaves_the_temporary_file offline_env open_world).
  intros w'. reflexivity.
Defined.

End CheckinSteps.

(** ** Runs of the password change *)

Module ChangePasswordRuns.
Import JS ChangePassword JSFacts ChangePasswordFacts.
Local Open Scope cp_scope.

(** *** What [changePassword] answers *)

Section Yields.

Variable A : Type.
Variable Q : A -> Prop.

(** A value [m] returns satisfies [Q]. *)
Definition yields (m : T A) : Prop :=
  forall s a, fst (m s) = Some a -> Q a.

Lemma yields_ret a : Q a -> yields (ret a).
Proof. intros H s a' [= <-]. exact H. Qed.

Lemma yields_bind {B} (m : T B) (k : B -> T A) :
  (forall b, yields (k b)) -> yields (bind m k).
Proof.
  intros Hk s a. unfold bind. destruct (m s) as [[b|] s1]; [|discriminate].
  apply Hk.
Qed.

Lemma yields_try_catch (m h : T A) : yields m -> yields h -> yields (try_catch m h).
Proof.
  intros Hm Hh s a. unfold try_catch.
  destruct (m s) as [[a'|] s1] eqn:E.
  - intros H. apply (Hm s). rewrite E. exact H.
  - apply Hh.
Qed.

End Yields.

Arguments yields {A} Q m.

(** A failure is flagged as the API's when the site rejected the login or
    the change, and then only. *)
Definition rejected_by_api (why : Reason) : bool :=
  match why with
  | LoginRejected | ChangeRejected => true
  | _ => false
  end.

Definition well_formed (r : ChangeResult) : Prop :=
  if cr_success r
  then cr_reason r = None /\ is_api_error r = VUndefined
  else exists why,
         cr_reason r = Some why /\ cr_userInfo r = VNull /\
         is_api_error r = VBool (rejected_by_api why).

Lemma refusal_well_formed why :
  well_formed (refusal why (rejected_by_api why)).
Proof. exists why. repeat split. Qed.

Ltac yields_step :=
  lazymatch goal with
  | |- yields _ (ret (refusal ?why _)) =>
      apply yields_ret; exact (refusal_well_formed why)
  | |- yields _ (ret _) => apply yields_ret; split; reflexivity
  | |- yields _ (bind _ _) => apply yields_bind; intros ?
  | |- yields _ (try_catch _ _) => apply yields_try_catch
  | |- yields _ (if ?b then _ else _) => destruct b
  | |- yields _ (let _ := _ in _) => cbv zeta
  end.

(** Property X18.  [changePassword] always returns a result and throws nothing.  A
    success has no message and no [is_api_error]; a failure has a reason,
    no user data, and [is_api_error] is [true] exactly when the site
    answered the login or the change with a rejection, and [false] for
    every other reason. *)
Theorem changePassword_flags_what_the_api_rejected
    (env : Env) (newUsername newPassword : option string) (s : State) :
  exists r,
    fst (changePassword env newUsername newPassword s) = Some r /\
    well_formed r /\
    (is_true (is_api_error r) = true <->
     cr_reason r = Some LoginRejected \/ cr_reason r = Some ChangeRejected).
Proof.
  destruct (changePassword_total env newUsername newPassword s) as [r Hr].
  exists r. split; [exact Hr|].
  assert (Hw : well_formed r).
  { revert Hr. generalize r. generalize s.
    change (yields well_formed (changePassword env newUsername newPassword)).
    unfold changePassword. repeat yields_step. }
  split; [exact Hw|].
  unfold well_formed in Hw. destruct (cr_success r).
  - destruct Hw as [-> ->]. cbn. split; [discriminate | intros [H|H]; discriminate H].
  - destruct Hw as (why & -> & _ & ->).
    destruct why; cbn; split; intros H; try discriminate H; auto;
      destruct H as [H|H]; discriminate H.
Qed.

(** *** The browser of a run *)

Definition handles (s : State) : bool * bool * bool := (browser s, context s, page s).

(** [m] leaves the three handles as they are. *)
Definition keeps_handles {A} (m : T A) : Prop :=
  forall s, handles (snd (m s)) = handles s.

Lemma keeps_ret {A} (a : A) : keeps_handles (ret a).
Proof. intros s. reflexivity. Qed.

Lemma keeps_bind {A B} (m : T A) (k : A -> T B) :
  keeps_handles m -> (forall a, keeps_handles (k a)) -> keeps_handles (bind m k).
Proof.
  intros Hm Hk s. unfold bind. specialize (Hm s).
  destruct (m s) as [[a|] s1]; cbn [snd] in *; [|exact Hm].
  rewrite (Hk a s1). exact Hm.
Qed.

Lemma keeps_try_catch {A} (m h : T A) :
  keeps_handles m -> keeps_handles h -> keeps_handles (try_catch m h).
Proof.
  intros Hm Hh s. unfold try_catch. specialize (Hm s).
  destruct (m s) as [[a|] s1]; cbn [snd] in *; [exact Hm|].
  rewrite (Hh s1). exact Hm.
Qed.

Lemma keeps_step env x : keeps_handles (step env x).
Proof. intros s. unfold step. destruct (throws env x s); reflexivity. Qed.

Lemma keeps_updatePasswordChange env r : keeps_handles (updatePasswordChange env r).
Proof.
  intros s. unfold updatePasswordChange. destruct (report_throws env r s); reflexivity.
Qed.

Lemma keeps_when (b : bool) (m : T unit) : keeps_handles m -> keeps_handles (when b m).
Proof. intros H. destruct b; [exact H | apply keeps_ret]. Qed.

Ltac keeps_step :=
  lazymatch goal with
  | |- keeps_handles (ret _) => apply keeps_ret
  | |- keeps_handles (read _) => intros ?; reflexivity
  | |- keeps_handles (field _ _) => intros ?; reflexivity
  | |- keeps_handles (randomDelay _ _ _) => intros ?; reflexivity
  | |- keeps_handles (bind _ _) => apply keeps_bind; [|intros ?]
  | |- keeps_handles (try_catch _ _) => apply keeps_try_catch
  | |- keeps_handles (step _ _) => apply keeps_step
  | |- keeps_handles (updatePasswordChange _ _) => apply keeps_updatePasswordChange
  | |- keeps_handles (when _ _) => apply keeps_when
  | |- keeps_handles (if ?b then _ else _) => destruct b
  | |- keeps_handles (let _ := _ in _) => cbv zeta
  | |- keeps_handles _ => progress (autounfold with changer_blocks)
  end.

Lemma changePassword_keeps env u p : keeps_handles (changePassword env u p).
Proof. unfold changePassword. repeat keeps_step. Qed.

(** A launch that resolved has set [this.browser], whatever came after
    it in [initialize]. *)
Lemma initialize_browser env s :
  browser s = false ->
  browser (snd (initialize env s)) = negb (throws env LaunchBrowser s).
Proof.
  intros Hb. unfold initialize, try_catch, bind, step, assign, ret. cbn.
  destruct (throws env LaunchBrowser s); cbn; [exact Hb|].
  repeat match goal with
         | |- context [if ?b then _ else _] => destruct b; cbn
         end; reflexivity.
Qed.

Definition is_close (x : Step) : bool :=
  match x with
  | ClosePage | CloseContext | CloseBrowser => true
  | _ => false
  end.

(** [cleanup] when no [close()] rejects. *)
Lemma cleanup_closes env s :
  (forall x s', is_close x = true -> throws env x s' = false) ->
  handles (cleanup env s) = (false, false, false) /\
  exists l,
    trace (cleanup env s) = (trace s ++ l)%list /\
    (In (Did CloseBrowser) l <-> browser s = true).
Proof.
  intros Hclose. unfold cleanup, try_catch, bind, read, when, step, assign, ret.
  cbn.
  destruct (page s && negb (page_isClosed env s)); cbn;
    rewrite ?Hclose by reflexivity; cbn;
    destruct (context s); cbn; rewrite ?Hclose by reflexivity; cbn;
    destruct (browser s); cbn; rewrite ?Hclose by reflexivity; cbn;
    rewrite <- ?app_assoc; (split; [reflexivity|]);
    eexists; (split; [first [reflexivity | symmetry; apply app_nil_r]|]);
    cbn; intuition (discriminate || auto).
Qed.

(** The [try] block after [initialize]. *)
Definition afterInitialize (env : Env) (d : PasswordChangeData) (initOk : bool)
  : T SingleResult :=
  if negb initOk then
    updatePasswordChange env (report d 3 (Some false)) ;;
    ret (failure (Some BrowserInitFailed))
  else
    changeResult <- changePassword env (new_username d) (new_password d) ;;
    if cr_success changeResult then
      updatePasswordChange env (report d 2 None) ;;
      ret {| sr_success := true; sr_reason := None;
             sr_userInfo := Some (cr_userInfo changeResult) |}
    else
      let isApiError := is_true (is_api_error changeResult) in
      updatePasswordChange env (report d 3 (Some isApiError)) ;;
      ret (failure (cr_reason changeResult)).

Lemma tryBlock_afterInitialize env d :
  tryBlock env d = bind (initialize env) (afterInitialize env d).
Proof. reflexivity. Qed.

Lemma afterInitialize_keeps env d initOk :
  keeps_handles (afterInitialize env d initOk).
Proof.
  unfold afterInitialize. destruct initOk; cbn [negb].
  - apply keeps_bind; [apply changePassword_keeps | intros r].
    destruct (cr_success r); repeat keeps_step.
  - repeat keeps_step.
Qed.

(** Property X19.  If no [close()] rejects, a run of [executeSingleChangePassword]
    ends with the changer holding no browser, context or page, and it
    has called [browser.close()] exactly when the launch of the browser
    had resolved, whatever failed in between. *)
Theorem launched_browser_is_closed (env : Env) (d : PasswordChangeData) (s : State) :
  (forall x s', is_close x = true -> throws env x s' = false) ->
  let s' := snd (executeSingleChangePassword env d s) in
  handles s' = (false, false, false) /\
  exists made,
    trace s' = (trace s ++ made)%list /\
    (In (Did CloseBrowser) made <->
     throws env LaunchBrowser (set_handles false false false s) = false).
Proof.
  intros Hclose. cbv zeta. rewrite executeSingle_eq. unfold try_finally.
  set (s0 := set_handles false false false s).
  assert (Hleaves : leaves (fun e => e <> Did CloseBrowser)
                      (try_catch (tryBlock env d) (catchBlock env d))).
  { unfold tryBlock, catchBlock. repeat leaves_step; intros; discriminate. }
  destruct (Hleaves s0) as (l1 & E1 & F1).
  assert (Hb : browser (snd (try_catch (tryBlock env d) (catchBlock env d) s0))
               = negb (throws env LaunchBrowser s0)).
  { assert (Hcatch : keeps_handles (catchBlock env d)).
    { unfold catchBlock. repeat keeps_step. }
    pose proof (initialize_browser env s0 eq_refl) as Hi.
    unfold try_catch. rewrite tryBlock_afterInitialize. unfold bind at 1.
    destruct (initialize env s0) as [[initOk|] s1]; cbn [snd] in Hi.
    - pose proof (afterInitialize_keeps env d initOk s1) as Hk.
      destruct (afterInitialize env d initOk s1) as [[r|] s2]; cbn [snd] in *.
      + injection Hk as -> _ _. exact Hi.
      + pose proof (Hcatch s2) as Hc. injection Hc as -> _ _.
        injection Hk as -> _ _. exact Hi.
    - pose proof (Hcatch s1) as Hc. injection Hc as -> _ _. exact Hi. }
  destruct (try_catch (tryBlock env d) (catchBlock env d) s0) as [r s1].
  cbn [fst snd] in *.
  destruct (cleanup_closes env s1 Hclose) as (Hh & l2 & E2 & Hl2).
  split; [exact Hh|].
  exists (l1 ++ l2)%list. rewrite E2, E1, app_assoc. split; [reflexivity|].
  rewrite in_app_iff, Hl2, Hb.
  split.
  - intros [Hin | Hneg].
    + exfalso. rewrite List.Forall_forall in F1. exact (F1 _ Hin eq_refl).
    + apply negb_true_iff. exact Hneg.
  - intros ->. right. reflexivity.
Qed.

(** A browser that launches and closes; the site's answers are empty. *)
Definition quiet_env : Env :=
  {| Math_random := fun _ => {| num := 0; den := 1;
                                in_unit := conj (Z.le_refl 0) Z.lt_0_1 |};
     throws := fun _ _ => false;
     page_isClosed := fun _ => false;
     loginResult := fun _ => {| f_success := false; f_data := VNull |};
     changeResult := fun _ => {| f_success := false; f_data := VNull |};
     userInfoResult := fun _ => {| f_success := false; f_data := VNull |};
     report_throws := fun _ _ => false;
     report_success := fun _ _ => true |}.

Definition sample_change : PasswordChangeData :=
  {| pc_record_id := "r1"; old_username := "old"; old_password := "pw";
     new_username := Some "new"; new_password := None |}.

Definition fresh_state : State :=
  {| browser := false; context := false; page := false; trace := [] |}.

Lemma launched_browser_is_closed_witness :
  handles (snd (executeSingleChangePassword quiet_env sample_change fresh_state))
  = (false, false, false) /\
  exists made,
    trace (snd (executeSingleChangePassword quiet_env sample_change fresh_state))
    = (trace fresh_state ++ made)%list /\
    (In (Did CloseBrowser) made <->
     throws quiet_env LaunchBrowser (set_handles false false false fresh_state) = false).
Proof.
  apply (launched_browser_is_closed quiet_env sample_change fresh_state).
  intros x s' _. reflexivity.
Defined.

End ChangePasswordRuns.

(** ** The command line of the batch *)

Module BatchMainFacts.
Import JS BatchMain.

(** [data.k] is there and truthy. *)
Definition has (data : Val) (k : string) : Prop :=
  exists v, get data k = Some v /\ truthy v = true.

Lemma firstMissing_spec data fields :
  match firstMissing data fields with
  | None => fields <> [] /\ get data (List.hd "" fields) = None
  | Some None => Forall (has data) fields
  | Some (Some field) =>
      exists before after,
        fields = (before ++ field :: after)%list /\
        Forall (has data) before /\
        exists v, get data field = Some v /\ truthy v = false
  end.
Proof.
  induction fields as [|f rest IH]; cbn [firstMissing]; [constructor|].
  destruct (get data f) as [v|] eqn:Ev.
  2:{ split; [discriminate | exact Ev]. }
  destruct (truthy v) eqn:Et; cbn [negb].
  - assert (Hf : has data f) by (exists v; auto).
    destruct (firstMissing data rest) as [[field|]|].
    + destruct IH as (before & after & -> & Hb & Hv).
      exists (f :: before), after. split; [reflexivity|]. split; [|exact Hv].
      constructor; assumption.
    + constructor; assumption.
    + destruct IH as [Hne Hnone]. destruct data; cbn in Ev, Hnone |- *;
        try discriminate; destruct rest; try contradiction; discriminate.
  - exists [], rest. split; [reflexivity|]. split; [constructor|].
    exists v. auto.
Qed.

(** Property X20.  [validateAccountData] accepts an entry exactly when [record_id],
    [old_username] and [old_password] are truthy and one of
    [new_username] and [new_password] is.  When it reports a missing
    field, that is the first of the three required fields, in this
    order, that is not truthy.  It throws exactly on [null] and
    [undefined]. *)
Theorem validateAccountData_accepts_complete_entries (data : Val) (index : nat) :
  (validateAccountData data index = Some Valid <->
   has data "record_id" /\ has data "old_username" /\ has data "old_password" /\
   (has data "new_username" \/ has data "new_password")) /\
  (forall field,
     validateAccountData data index = Some (Invalid (MissingField index field)) ->
     exists before after,
       requiredFields = (before ++ field :: after)%list /\
       Forall (has data) before /\ ~ has data field) /\
  (data = VNull \/ data = VUndefined <-> validateAccountData data index = None).
Proof.
  unfold validateAccountData.
  pose proof (firstMissing_spec data requiredFields) as H.
  destruct (firstMissing data requiredFields) as [[field|]|].
  - destruct H as (before & after & E & Hb & v & Ev & Et).
    split; [|split].
    + split; [discriminate|].
      intros (H1 & H2 & H3 & _).
      assert (Hall : Forall (has data) requiredFields).
      { repeat constructor; assumption. }
      rewrite E in Hall. apply Forall_app in Hall as [_ Hall].
      apply Forall_cons_1 in Hall as [(v' & Ev' & Et') _]. congruence.
    + intros field' [= <-]. exists before, after. split; [exact E|].
      split; [exact Hb|]. intros (v' & Ev' & Et'). congruence.
    + split; [|discriminate]. intros [-> | ->]; discriminate Ev.
  - unfold requiredFields in H.
    apply Forall_cons_1 in H as [H1 H]. apply Forall_cons_1 in H as [H2 H].
    apply Forall_cons_1 in H as [H3 _].
    assert (Hobj : forall k, exists v, get data k = Some v).
    { destruct H1 as (v & Ev & _). destruct data; try discriminate Ev; cbn; eauto. }
    destruct (Hobj "new_username") as [u Eu]. destruct (Hobj "new_password") as [p Ep].
    rewrite Eu, Ep.
    split; [|split].
    + destruct (truthy u) eqn:Etu; cbn [negb andb].
      * split; [intros _|reflexivity]. repeat split; try assumption.
        left. exists u. auto.
      * destruct (truthy p) eqn:Etp; cbn [negb].
        -- split; [intros _|reflexivity]. repeat split; try assumption.
           right. exists p. auto.
        -- split; [discriminate|].
           intros (_ & _ & _ & [(v & Ev & Et) | (v & Ev & Et)]); congruence.
    + intros field Hf. destruct (negb (truthy u) && negb (truthy p)); discriminate Hf.
    + split.
      * intros [-> | ->]; destruct H1 as (v & Ev & _); discriminate Ev.
      * destruct (negb (truthy u) && negb (truthy p)); discriminate.
  - destruct H as [_ Hnone]. cbn in Hnone.
    split; [|split].
    + split; [discriminate|]. intros ((v & Ev & _) & _). congruence.
    + intros field Hf. discriminate Hf.
    + split; [reflexivity|]. intros _.
      destruct data; cbn in Hnone; try discriminate Hnone; auto.
Qed.

Lemma validateFrom_spec accountList :
  forall i,
    validateFrom i accountList = Some None <->
    (forall k data, nth_error accountList k = Some data ->
                    validateAccountData data (i + k) = Some Valid).
Proof.
  induction accountList as [|data rest IH]; intros i; cbn [validateFrom].
  - split; [|reflexivity]. intros _ [|k] d H; discriminate H.
  - destruct (validateAccountData data i) as [[|error]|] eqn:E.
    + rewrite IH. split.
      * intros H [|k] d Hk; cbn in Hk.
        -- injection Hk as <-. rewrite Nat.add_0_r. exact E.
        -- rewrite Nat.add_succ_r. apply (H k d Hk).
      * intros H k d Hk. specialize (H (S k) d Hk).
        rewrite Nat.add_succ_r in H. exact H.
    + split; [discriminate|]. intros H. specialize (H 0%nat data eq_refl).
      rewrite Nat.add_0_r in H. congruence.
    + split; [discriminate|]. intros H. specialize (H 0%nat data eq_refl).
      rewrite Nat.add_0_r in H. congruence.
Qed.

(** Property X21.  The command line ends with exit code 0 exactly when its argument is
    a non-empty string that parses, the list it denotes (a lone value is
    a list of one) is not empty, every entry passes
    [validateAccountData] at its index, and the batch returns with no
    failed account.  If an entry does not pass, the process exits with 1
    before the batch is started. *)
Theorem batch_exits_zero_only_when_every_account_changed
    (JSON_parse : string -> option Val) (World : Type)
    (executeBatchChangePassword : list Val -> World -> option nat * World)
    (argv2 : option string) (w : World) :
  (forall w',
     main JSON_parse World executeBatchChangePassword argv2 w = (Exit0, w') <->
     exists inputJson inputData,
       argv2 = Some inputJson /\ inputJson <> "" /\
       JSON_parse inputJson = Some inputData /\
       accountListOf inputData <> [] /\
       (forall i data, nth_error (accountListOf inputData) i = Some data ->
                       validateAccountData data i = Some Valid) /\
       executeBatchChangePassword (accountListOf inputData) w = (Some 0%nat, w')) /\
  (forall inputJson inputData i data,
     argv2 = Some inputJson ->
     JSON_parse inputJson = Some inputData ->
     nth_error (accountListOf inputData) i = Some data ->
     validateAccountData data i <> Some Valid ->
     main JSON_parse World executeBatchChangePassword argv2 w = (Exit1, w)).
Proof.
  split.
  - intros w'. unfold main. split.
    + destruct argv2 as [inputJson|]; [|discriminate].
      destruct (truthy_str inputJson) eqn:Ej; cbn [negb]; [|discriminate].
      destruct (JSON_parse inputJson) as [inputData|] eqn:Ep; [|discriminate].
      cbv zeta.
      destruct (Nat.eqb (List.length (accountListOf inputData)) 0) eqn:En;
        [discriminate|].
      destruct (validateFrom 0 (accountListOf inputData)) as [[e|]|] eqn:Ev;
        try discriminate.
      destruct (executeBatchChangePassword (accountListOf inputData) w)
        as [[failed|] w1] eqn:Eb; [|discriminate].
      destruct failed as [|failed]; cbn; [|discriminate].
      intros [= <-]. exists inputJson, inputData.
      split; [reflexivity|]. split.
      { intros ->. discriminate Ej. }
      split; [exact Ep|]. split.
      { intros Hnil. rewrite Hnil in En. discriminate En. }
      split; [|exact Eb].
      apply (validateFrom_spec (accountListOf inputData) 0%nat). exact Ev.
    + intros (inputJson & inputData & -> & Hj & Ep & Hne & Hvalid & Eb).
      assert (Ej : truthy_str inputJson = true).
      { unfold truthy_str. destruct (String.eqb_spec inputJson ""); [contradiction|].
        reflexivity. }
      rewrite Ej, Ep. cbn [negb]. cbv zeta.
      destruct (accountListOf inputData) as [|d l] eqn:El; [contradiction|].
      cbn [List.length Nat.eqb].
      assert (Ev : validateFrom 0 (d :: l) = Some None).
      { apply validateFrom_spec. exact Hvalid. }
      rewrite Ev, Eb. reflexivity.
  - intros inputJson inputData i data -> Ep Hi Hbad. unfold main.
    destruct (truthy_str inputJson); cbn [negb]; [|reflexivity].
    rewrite Ep. cbv zeta.
    destruct (Nat.eqb (List.length (accountListOf inputData)) 0); [reflexivity|].
    destruct (validateFrom 0 (accountListOf inputData)) as [[e|]|] eqn:Ev;
      try reflexivity.
    exfalso. apply Hbad.
    apply (proj1 (validateFrom_spec (accountListOf inputData) 0%nat) Ev i data Hi).
Qed.

End BatchMainFacts.

(** ** The notifier *)

Module NotifyFacts.
Import JS Notify.

(** [s] has no [@]. *)
Fixpoint no_at (s : string) : bool :=
  match s with
  | EmptyString => true
  | String c s' => negb (Ascii.eqb c "@") && no_at s'
  end.

Lemma split_at_no_at s : no_at s = true -> split_at s = [s].
Proof.
  induction s as [|c s IH]; cbn [no_at split_at]; [reflexivity|].
  intros H. apply andb_prop in H as [Hc Hs]. apply negb_true_iff in Hc.
  rewrite Hc, (IH Hs). reflexivity.
Qed.

Lemma split_at_address localPart rest :
  no_at localPart = true ->
  split_at (localPart ++ String "@" rest) = localPart :: split_at rest.
Proof.
  induction localPart as [|c s IH]; intros H.
  - reflexivity.
  - cbn [no_at] in H. apply andb_prop in H as [Hc Hs]. apply negb_true_iff in Hc.
    change (split_at (String c (s ++ String "@" rest)) = String c s :: split_at rest).
    cbn [split_at]. rewrite Hc, (IH Hs). reflexivity.
Qed.

Lemma truthy_str_spec s : truthy_str s = true <-> s <> "".
Proof.
  unfold truthy_str. destruct (String.eqb_spec s ""); cbn; split; congruence.
Qed.

Definition transport_of {R} (sent : Sent R) : option Transport :=
  match sent with
  | NotConfigured => None
  | Rejected t _ | Delivered t _ _ => Some t
  end.

Definition mail_of {R} (sent : Sent R) : option MailOptions :=
  match sent with
  | NotConfigured => None
  | Rejected _ m | Delivered _ m _ => Some m
  end.

(** Property X22.  For a sender address [local@domain] with one [@], a password and
    a recipient, [sendEmail] opens its transport to [smtp.domain] on
    port 465 with TLS, and logs in as the sender. *)
Theorem sendEmail_connects_to_the_senders_domain
    {R : Type} (sendMail : Transport -> MailOptions -> option R)
    (kit : NotificationKit) (title content : string)
    (msgType customEmailTo : option string) (localPart domain : string) :
  emailUser kit = localPart ++ String "@" domain ->
  no_at localPart = true ->
  no_at domain = true ->
  emailPass kit <> "" ->
  recipient kit customEmailTo <> "" ->
  transport_of (sendEmail R sendMail kit title content msgType customEmailTo)
  = Some {| host := "smtp." ++ domain; port := 465; secure := true;
            auth_user := emailUser kit; auth_pass := emailPass kit |}.
Proof.
  intros Huser Hlocal Hdomain Hpass Hto. unfold sendEmail. cbv zeta.
  assert (Hu : truthy_str (emailUser kit) = true).
  { apply truthy_str_spec. rewrite Huser. destruct localPart; discriminate. }
  apply truthy_str_spec in Hpass, Hto. rewrite Hu, Hpass, Hto. cbn [negb orb].
  assert (Hhost : nth_error (split_at (emailUser kit)) 1 = Some domain).
  { rewrite Huser, (split_at_address localPart domain Hlocal),
      (split_at_no_at domain Hdomain). reflexivity. }
  rewrite Hhost. cbn [interpolated].
  destruct (sendMail _ _); reflexivity.
Qed.

Lemma sendEmail_connects_to_the_senders_domain_witness :
  transport_of
    (sendEmail unit (fun _ _ => Some tt)
       (new (Some "bot@example.com") (Some "secret") (Some "ops@example.org"))
       "title" "content" None None)
  = Some {| host := "smtp.example.com"; port := 465; secure := true;
            auth_user := "bot@example.com"; auth_pass := "secret" |}.
Proof.
  apply (sendEmail_connects_to_the_senders_domain (fun _ _ => Some tt)
           (new (Some "bot@example.com") (Some "secret") (Some "ops@example.org"))
           "title" "content" None None "bot" "example.com");
    first [reflexivity | discriminate].
Defined.

(** Property X23.  [sendEmail] throws its configuration error, before any transport
    is made, exactly when the sender, the password, or both the custom
    and the default recipient are empty.  Otherwise the mail goes to the
    custom recipient if there is one and to [EMAIL_TO] if not, with the
    title as subject and the content as [html] for the type 'html' and as
    [text] for any other type, never as both. *)
Theorem sendEmail_needs_sender_password_and_recipient
    {R : Type} (sendMail : Transport -> MailOptions -> option R)
    (kit : NotificationKit) (title content : string)
    (msgType customEmailTo : option string) :
  let sent := sendEmail R sendMail kit title content msgType customEmailTo in
  (sent = NotConfigured <->
   emailUser kit = "" \/ emailPass kit = "" \/
   (emailTo kit = "" /\ (customEmailTo = None \/ customEmailTo = Some ""))) /\
  (forall m, mail_of sent = Some m ->
     to m = match customEmailTo with
            | Some custom => if String.eqb custom "" then emailTo kit else custom
            | None => emailTo kit
            end /\
     subject m = title /\
     (if match msgType with Some "html" => true | _ => false end
      then html m = Some content /\ text m = None
      else html m = None /\ text m = Some content)).
Proof.
  cbv zeta. unfold sendEmail. cbv zeta.
  assert (Hrec : recipient kit customEmailTo
                 = match customEmailTo with
                   | Some custom => if String.eqb custom "" then emailTo kit else custom
                   | None => emailTo kit
                   end).
  { unfold recipient, truthy_str. destruct customEmailTo as [custom|]; [|reflexivity].
    destruct (String.eqb custom ""); reflexivity. }
  destruct (truthy_str (emailUser kit)) eqn:Eu; cbn [negb orb].
  2:{ split; [|intros m H; discriminate H].
      split; [intros _|reflexivity]. left.
      unfold truthy_str in Eu. apply negb_false_iff, String.eqb_eq in Eu. exact Eu. }
  destruct (truthy_str (emailPass kit)) eqn:Ep; cbn [negb orb].
  2:{ split; [|intros m H; discriminate H].
      split; [intros _|reflexivity]. right. left.
      unfold truthy_str in Ep. apply negb_false_iff, String.eqb_eq in Ep. exact Ep. }
  destruct (truthy_str (recipient kit customEmailTo)) eqn:Et; cbn [negb].
  2:{ split; [|intros m H; discriminate H].
      split; [intros _|reflexivity]. right. right.
      unfold truthy_str in Et. apply negb_false_iff, String.eqb_eq in Et.
      rewrite Hrec in Et. destruct customEmailTo as [custom|]; [|auto].
      destruct (String.eqb_spec custom ""); subst; auto. }
  apply truthy_str_spec in Eu, Ep, Et.
  split.
  - split.
    + destruct (sendMail _ _); discriminate.
    + intros [H | [H | [H Hc]]]; try contradiction.
      exfalso. apply Et. rewrite Hrec.
      destruct Hc as [-> | ->]; cbn; exact H.
  - intros m Hm.
    assert (E : m = {| from := "AnyRouter Assistant <" ++ emailUser kit ++ ">";
                       to := recipient kit customEmailTo;
                       subject := title;
                       html := if String.eqb (match msgType with Some t => t | None => "text" end) "html"
                               then Some content else None;
                       text := if String.eqb (match msgType with Some t => t | None => "text" end) "html"
                               then None else Some content |}).
    { destruct (sendMail _ _); cbn in Hm; congruence. }
    subst m. cbn [to subject html text]. split; [exact Hrec|]. split; [reflexivity|].
    destruct msgType as [t|]; [|cbn; auto].
    destruct (String.eqb_spec t "html") as [->|Hne]; [cbn; auto|].
    assert (Hm' : match t with "html" => true | _ => false end = false).
    { destruct (match t with "html" => true | _ => false end) eqn:E; [|reflexivity].
      exfalso. apply Hne.
      repeat (destruct t as [|[[] [] [] [] [] [] [] []] t]; try discriminate E).
      reflexivity. }
    rewrite Hm'. auto.
Qed.

End NotifyFacts.

(** ** Identity card numbers *)

Module IdCardFacts.
Import JS JSFacts IdCard StringFacts.

(** *** Digits *)

Lemma all_digits_append (s t : string) :
  all_digits (s ++ t) = all_digits s && all_digits t.
Proof.
  induction s as [|c s IH]; strings; [reflexivity|].
  rewrite IH, andb_assoc. reflexivity.
Qed.

(** *** The check code *)

Lemma digit_range c d : digit c = Some d -> 0 <= d <= 9.
Proof.
  unfold digit, is_digit. destruct (_ && _) eqn:E; [|discriminate].
  intros [= <-]. apply andb_prop in E as [E1 E2].
  apply Nat.leb_le in E1, E2. lia.
Qed.

Lemma digit_is_digit c : is_digit c = true -> exists d, digit c = Some d.
Proof. intros H. unfold digit. rewrite H. eauto. Qed.

Lemma weightedSum_digits (s : string) (weights : list Z) :
  all_digits s = true ->
  (List.length weights <= String.length s)%nat ->
  Forall (fun w => 0 <= w) weights ->
  exists sum, weightedSum s weights = Some sum /\ 0 <= sum.
Proof.
  revert s. induction weights as [|w ws IH]; intros s Hd Hl Hw; cbn [weightedSum].
  - exists 0. split; [reflexivity | lia].
  - destruct s as [|c s]; [cbn in Hl; lia|].
    cbn [all_digits] in Hd. apply andb_prop in Hd as [Hc Hs].
    destruct (digit_is_digit c Hc) as [d Ed]. rewrite Ed.
    apply Forall_cons_1 in Hw as [Hw0 Hw].
    destruct (IH s Hs ltac:(cbn in Hl; lia) Hw) as (sum & -> & Hsum).
    pose proof (digit_range c d Ed).
    eexists. split; [reflexivity | nia].
Qed.

Lemma check_code_listed (k : nat) :
  (k < 11)%nat ->
  exists c, nth_error CHECK_CODE_MAP k = Some c /\ toUpperCase c = c /\
            In c CHECK_CODE_MAP.
Proof.
  intros H.
  do 11 (destruct k as [|k];
         [eexists; split; [reflexivity|]; split; [reflexivity | cbn; tauto]|]).
  lia.
Qed.

Lemma calculateCheckCode_digits (idCard17 : string) :
  String.length idCard17 = 17%nat ->
  all_digits idCard17 = true ->
  exists c, calculateCheckCode idCard17 = Some c /\ toUpperCase c = c /\
            In c CHECK_CODE_MAP.
Proof.
  intros Hl Hd. unfold calculateCheckCode.
  destruct (weightedSum_digits idCard17 WEIGHT_FACTORS Hd)
    as (sum & -> & Hsum).
  - rewrite Hl. reflexivity.
  - unfold WEIGHT_FACTORS. repeat constructor; lia.
  - apply check_code_listed. pose proof (Z.mod_pos_bound sum 11 ltac:(lia)). lia.
Qed.

Lemma validate_with (idCard17 : string) (checkCode : ascii) :
  String.length idCard17 = 17%nat ->
  validate (idCard17 ++ String checkCode "")
  = all_digits idCard17
    && match calculateCheckCode idCard17 with
       | Some calculated => Ascii.eqb calculated (toUpperCase checkCode)
       | None => false
       end.
Proof.
  intros Hl. unfold validate.
  rewrite length_append, Hl. cbn [String.length Nat.add Nat.eqb negb].
  pose proof (substring_take idCard17 (String checkCode "")) as Hs.
  pose proof (get_skip idCard17 (String checkCode "") 0) as Hg.
  rewrite Nat.add_0_r in Hg. rewrite Hl in Hs, Hg. rewrite Hs, Hg.
  cbn [String.get].
  destruct (all_digits idCard17); reflexivity.
Qed.

(** Property X24.  For seventeen digits, [calculateCheckCode] gives one of the eleven
    check characters, and the number made of the digits and that
    character passes [validate].  With another last character the
    number passes exactly when that character is the check character in
    upper or lower case. *)
Theorem check_code_makes_the_number_valid (idCard17 : string) :
  String.length idCard17 = 17%nat ->
  all_digits idCard17 = true ->
  exists checkCode,
    calculateCheckCode idCard17 = Some checkCode /\
    In checkCode CHECK_CODE_MAP /\
    withCheckCode idCard17 = idCard17 ++ String checkCode "" /\
    validate (withCheckCode idCard17) = true /\
    (forall other,
       validate (idCard17 ++ String other "") = true <->
       toUpperCase other = checkCode).
Proof.
  intros Hl Hd.
  destruct (calculateCheckCode_digits idCard17 Hl Hd) as (c & Ec & Hup & Hin).
  exists c. split; [exact Ec|]. split; [exact Hin|].
  unfold withCheckCode. rewrite Ec. split; [reflexivity|].
  split.
  - rewrite (validate_with idCard17 c Hl), Hd, Ec, Hup. apply Ascii.eqb_refl.
  - intros other. rewrite (validate_with idCard17 other Hl), Hd, Ec.
    cbn [andb]. rewrite Ascii.eqb_eq. split; congruence.
Qed.

Lemma check_code_makes_the_number_valid_witness :
  exists checkCode,
    calculateCheckCode "11010119900307123" = Some checkCode /\
    In checkCode CHECK_CODE_MAP /\
    withCheckCode "11010119900307123" = "11010119900307123" ++ String checkCode "" /\
    validate (withCheckCode "11010119900307123") = true /\
    (forall other,
       validate ("11010119900307123" ++ String other "") = true <->
       toUpperCase other = checkCode).
Proof.
  apply (check_code_makes_the_number_valid "11010119900307123"); reflexivity.
Defined.

(** *** One digit changed *)

Lemma digit_injective c c' d : digit c = Some d -> digit c' = Some d -> c = c'.
Proof.
  unfold digit, is_digit.
  destruct (_ && _) eqn:E; [|discriminate].
  destruct (Nat.leb 48 (nat_of_ascii c') && _) eqn:E'; [|discriminate].
  intros [= <-] [= H].
  apply andb_prop in E as [E1 _]. apply andb_prop in E' as [E1' _].
  apply Nat.leb_le in E1, E1'.
  assert (Hn : nat_of_ascii c = nat_of_ascii c') by lia.
  rewrite <- (ascii_nat_embedding c), <- (ascii_nat_embedding c'), Hn. reflexivity.
Qed.

Lemma weightedSum_substitute (pre : string) :
  forall weights c c' post sum sum' d d',
    weightedSum (pre ++ String c post) weights = Some sum ->
    weightedSum (pre ++ String c' post) weights = Some sum' ->
    digit c = Some d -> digit c' = Some d' ->
    (String.length pre < List.length weights)%nat ->
    sum' - sum = (d' - d) * nth (String.length pre) weights 0.
Proof.
  induction pre as [|a pre IH]; intros weights c c' post sum sum' d d' Hs Hs' Hd Hd' Hl;
    destruct weights as [|w ws]; try (cbn in Hl; lia);
    rewrite ?append_nil, ?append_cons in Hs, Hs'; cbn [weightedSum] in Hs, Hs'.
  - rewrite Hd in Hs. rewrite Hd' in Hs'.
    destruct (weightedSum post ws) as [rest|]; [|discriminate].
    injection Hs as <-. injection Hs' as <-. cbn. lia.
  - destruct (digit a) as [da|]; [|discriminate].
    destruct (weightedSum (pre ++ String c post) ws) as [t|] eqn:Et; [|discriminate].
    destruct (weightedSum (pre ++ String c' post) ws) as [t'|] eqn:Et'; [|discriminate].
    injection Hs as <-. injection Hs' as <-.
    pose proof (IH ws c c' post t t' d d' Et Et' Hd Hd' ltac:(cbn in Hl; lia)) as H.
    cbn [String.length nth]. lia.
Qed.

(** No weight is a multiple of 11, and neither is its product with the
    difference of two digits. *)
Lemma weight_detects (i : nat) (delta q : Z) :
  (i < 17)%nat ->
  -9 <= delta <= 9 ->
  delta * nth i WEIGHT_FACTORS 0 = 11 * q ->
  delta = 0.
Proof.
  intros Hi Hdelta. do 17 (destruct i as [|i]; [cbn; intros; lia|]). lia.
Qed.

Lemma check_codes_differ (n m : Z) :
  0 <= n < 11 -> 0 <= m < 11 ->
  nth_error CHECK_CODE_MAP (Z.to_nat n) = nth_error CHECK_CODE_MAP (Z.to_nat m) ->
  n = m.
Proof.
  intros Hn Hm H.
  assert (Hd : NoDup CHECK_CODE_MAP).
  { unfold CHECK_CODE_MAP. repeat constructor; cbn; intuition discriminate. }
  assert (Z.to_nat n = Z.to_nat m); [|lia].
  apply (proj1 (List.NoDup_nth_error CHECK_CODE_MAP) Hd); [cbn; lia | exact H].
Qed.

(** Property X25.  If a number passes [validate] and one of its first seventeen
    characters is replaced by any other character, the result does not
    pass. *)
Theorem one_changed_digit_is_detected
    (pre post : string) (c c' checkCode : ascii) :
  String.length (pre ++ String c post) = 17%nat ->
  validate ((pre ++ String c post) ++ String checkCode "") = true ->
  c' <> c ->
  validate ((pre ++ String c' post) ++ String checkCode "") = false.
Proof.
  intros Hl Hvalid Hne.
  assert (Hl' : String.length (pre ++ String c' post) = 17%nat).
  { rewrite length_append in Hl |- *. exact Hl. }
  rewrite validate_with in Hvalid |- * by assumption.
  apply andb_prop in Hvalid as [Hd Hcode].
  destruct (all_digits (pre ++ String c' post)) eqn:Hd'; [|reflexivity].
  cbn [andb].
  unfold calculateCheckCode in *.
  destruct (weightedSum (pre ++ String c post) WEIGHT_FACTORS) as [sum|] eqn:Es;
    [|discriminate].
  destruct (weightedSum (pre ++ String c' post) WEIGHT_FACTORS) as [sum'|] eqn:Es';
    [|reflexivity].
  destruct (nth_error CHECK_CODE_MAP (Z.to_nat (sum mod 11))) as [calculated|] eqn:En;
    [|discriminate].
  destruct (nth_error CHECK_CODE_MAP (Z.to_nat (sum' mod 11))) as [calculated'|] eqn:En';
    [|reflexivity].
  apply Ascii.eqb_eq in Hcode. apply Ascii.eqb_neq. intros Hsame.
  assert (Hmod : sum mod 11 = sum' mod 11).
  { apply check_codes_differ; try (apply Z.mod_pos_bound; lia). congruence. }
  rewrite all_digits_append in Hd, Hd'. cbn [all_digits] in Hd, Hd'.
  apply andb_prop in Hd as [_ Hd]. apply andb_prop in Hd as [Hc _].
  apply andb_prop in Hd' as [_ Hd']. apply andb_prop in Hd' as [Hc' _].
  destruct (digit_is_digit c Hc) as [d Ed]. destruct (digit_is_digit c' Hc') as [d' Ed'].
  assert (Hpre : (String.length pre < 17)%nat).
  { rewrite length_append in Hl. cbn in Hl. lia. }
  pose proof (weightedSum_substitute pre WEIGHT_FACTORS c c' post sum sum' d d'
                Es Es' Ed Ed' Hpre) as Hdiff.
  pose proof (digit_range c d Ed). pose proof (digit_range c' d' Ed').
  assert (Hsame' : d' - d = 0).
  { apply (weight_detects (String.length pre) (d' - d) (sum' / 11 - sum / 11) Hpre);
      [lia|].
    pose proof (Z.div_mod sum 11 ltac:(lia)). pose proof (Z.div_mod sum' 11 ltac:(lia)).
    lia. }
  apply Hne. symmetry. apply (digit_injective c c' d Ed).
  replace d with d' by lia. exact Ed'.
Qed.

Lemma one_changed_digit_is_detected_witness :
  validate (("110101199003" ++ String "1" "7123") ++ String "3" "") = false.
Proof.
  apply (one_changed_digit_is_detected "110101199003" "7123" "0" "1" "3");
    [reflexivity | reflexivity | discriminate].
Defined.

(** *** What a turn of the generator makes *)

Lemma randomBelow_range (r : UnitFrac) (k : Z) :
  0 < k -> 0 <= randomBelow r k < k.
Proof.
  intros Hk. unfold randomBelow. destruct r as [n d Hnd]; cbn [num den].
  split.
  - apply Z.div_pos; nia.
  - apply Z.div_lt_upper_bound; nia.
Qed.

(** A number is written with [width] digits and read back. *)
Definition written (width : nat) (n : Z) (s : string) : bool :=
  Nat.eqb (String.length s) width && all_digits s
  && match parseInt s with Some m => Z.eqb m n | None => false end.

Lemma written_spec width n s :
  written width n s = true ->
  String.length s = width /\ all_digits s = true /\ parseInt s = Some n.
Proof.
  unfold written. intros H. apply andb_prop in H as [H H3].
  apply andb_prop in H as [H1 H2]. apply Nat.eqb_eq in H1.
  destruct (parseInt s) as [m|]; [|discriminate].
  apply Z.eqb_eq in H3. subst m. auto.
Qed.

Lemma year_written y :
  1980 <= y <= 2005 -> written 4 y (toString y) = true.
Proof.
  intros H. apply (checked_in_range (fun y => written 4 y (toString y)) 1980 26);
    [vm_compute; reflexivity | lia].
Qed.

Lemma two_digits_written n :
  1 <= n <= 31 -> written 2 n (padStart 2 (toString n)) = true.
Proof.
  intros H.
  apply (checked_in_range (fun n => written 2 n (padStart 2 (toString n))) 1 31);
    [vm_compute; reflexivity | lia].
Qed.

Lemma sequence_written n :
  1 <= n <= 999 -> written 3 n (padStart 3 (toString n)) = true.
Proof.
  intros H.
  apply (checked_in_range (fun n => written 3 n (padStart 3 (toString n))) 1 999);
    [vm_compute; reflexivity | lia].
Qed.

Lemma area_codes_written :
  Forall (fun code => String.length code = 6%nat /\ all_digits code = true) AREA_CODES.
Proof. unfold AREA_CODES. repeat constructor. Qed.

Lemma randomChoice_listed (r : UnitFrac) (array : list string) :
  array <> [] -> In (randomChoice r array) array.
Proof.
  intros Hne. unfold randomChoice. apply nth_In.
  assert (0 < Z.of_nat (List.length array)).
  { destruct array; [contradiction | cbn; lia]. }
  pose proof (randomBelow_range r _ H). lia.
Qed.

Lemma getDaysInMonth_range y m :
  1 <= m <= 12 -> exists maxDay, getDaysInMonth y m = Some maxDay /\ 28 <= maxDay <= 31.
Proof.
  intros H. unfold getDaysInMonth.
  destruct (Z.eqb m 2 && isLeapYear y); [exists 29; split; [reflexivity | lia]|].
  destruct (Z.ltb_spec (m - 1) 0); [lia|].
  assert (Hk : (Z.to_nat (m - 1) < 12)%nat) by lia.
  destruct (Z.to_nat (m - 1)) as [|k]; [eexists; split; [reflexivity | lia]|].
  do 11 (destruct k as [|k]; [eexists; split; [reflexivity | lia]|]).
  lia.
Qed.

(** A number of 17 digits, in its five parts. *)
Lemma parts_of_17 (area yyyy mm dd sequence : string) (checkCode : ascii) :
  String.length area = 6%nat -> String.length yyyy = 4%nat ->
  String.length mm = 2%nat -> String.length dd = 2%nat ->
  String.length sequence = 3%nat ->
  let idCard := (area ++ (yyyy ++ mm ++ dd) ++ sequence) ++ String checkCode "" in
  String.substring 0 6 idCard = area /\
  String.substring 6 4 idCard = yyyy /\
  String.substring 10 2 idCard = mm /\
  String.substring 12 2 idCard = dd /\
  String.substring 14 3 idCard = sequence /\
  String.get 17 idCard = Some checkCode.
Proof.
  intros Ha Hy Hm Hd Hs. cbv zeta.
  assert (cut : forall p b rest,
             String.substring (String.length p) (String.length b) (p ++ b ++ rest) = b).
  { intros p b rest. rewrite substring_skip. apply substring_take. }
  repeat split.
  - rewrite !append_assoc. rewrite <- Ha. apply substring_take.
  - pose proof (cut area yyyy (mm ++ dd ++ sequence ++ String checkCode "")) as H.
    rewrite Ha, Hy in H. rewrite !append_assoc. exact H.
  - pose proof (cut (area ++ yyyy) mm (dd ++ sequence ++ String checkCode "")) as H.
    rewrite length_append, Ha, Hy, Hm, !append_assoc in H.
    rewrite !append_assoc. exact H.
  - pose proof (cut (area ++ yyyy ++ mm) dd (sequence ++ String checkCode "")) as H.
    rewrite !length_append, Ha, Hy, Hm, Hd, !append_assoc in H.
    rewrite !append_assoc. exact H.
  - pose proof (cut (area ++ yyyy ++ mm ++ dd) sequence (String checkCode "")) as H.
    rewrite !length_append, Ha, Hy, Hm, Hd, Hs, !append_assoc in H.
    rewrite !append_assoc. exact H.
  - pose proof (get_skip (area ++ yyyy ++ mm ++ dd ++ sequence) (String checkCode "") 0)
      as H.
    rewrite !length_append, Ha, Hy, Hm, Hd, Hs, !append_assoc in H.
    cbn [Nat.add] in H. rewrite !append_assoc. exact H.
Qed.

(** The parts of the number a turn makes. *)
Record Parts : Type := {
  p_area : string;
  p_year : Z;
  p_month : Z;
  p_day : Z;
  p_maxDay : Z;
  p_sequence : string;
  p_check : ascii
}.

Definition yyyy (p : Parts) : string := toString (p_year p).
Definition mm (p : Parts) : string := padStart 2 (toString (p_month p)).
Definition dd (p : Parts) : string := padStart 2 (toString (p_day p)).

Definition idCard17_of (p : Parts) : string :=
  p_area p ++ (yyyy p ++ mm p ++ dd p) ++ p_sequence p.

Lemma idCardOf_parts (d : Draw) :
  exists p,
    idCardOf d = idCard17_of p ++ String (p_check p) "" /\
    In (p_area p) AREA_CODES /\
    1980 <= p_year p <= 2005 /\ 1 <= p_month p <= 12 /\
    getDaysInMonth (p_year p) (p_month p) = Some (p_maxDay p) /\
    1 <= p_day p <= p_maxDay p /\ p_maxDay p <= 31 /\
    String.length (p_sequence p) = 3%nat /\ all_digits (p_sequence p) = true /\
    calculateCheckCode (idCard17_of p) = Some (p_check p) /\
    toUpperCase (p_check p) = p_check p.
Proof.
  unfold idCardOf, idCard17Of, randomBirthDate, randomSequenceCode. cbv zeta.
  set (area := randomChoice (forArea d) AREA_CODES).
  set (y := randomBelow (forYear d) (2005 - 1980 + 1) + 1980).
  set (m := randomBelow (forMonth d) 12 + 1).
  assert (Hy : 1980 <= y <= 2005).
  { pose proof (randomBelow_range (forYear d) (2005 - 1980 + 1) ltac:(lia)).
    unfold y. lia. }
  assert (Hm : 1 <= m <= 12).
  { pose proof (randomBelow_range (forMonth d) 12 ltac:(lia)). unfold m. lia. }
  destruct (getDaysInMonth_range y m Hm) as (maxDay & Emax & Hmax).
  rewrite Emax.
  set (day := randomBelow (forDay d) maxDay + 1).
  assert (Hday : 1 <= day <= maxDay).
  { pose proof (randomBelow_range (forDay d) maxDay ltac:(lia)). unfold day. lia. }
  set (n := randomBelow (forSequence d) 999 + 1).
  assert (Hn : 1 <= n <= 999).
  { pose proof (randomBelow_range (forSequence d) 999 ltac:(lia)). unfold n. lia. }
  assert (Harea : In area AREA_CODES).
  { apply randomChoice_listed. discriminate. }
  destruct (proj1 (List.Forall_forall _ _) area_codes_written area Harea) as [La Da].
  destruct (written_spec _ _ _ (year_written y Hy)) as (Ly & Dy & _).
  destruct (written_spec _ _ _ (two_digits_written m ltac:(lia))) as (Lm & Dm & _).
  destruct (written_spec _ _ _ (two_digits_written day ltac:(lia))) as (Ld & Dd & _).
  destruct (written_spec _ _ _ (sequence_written n Hn)) as (Ls & Ds & _).
  set (idCard17 := area ++ (toString y ++ padStart 2 (toString m)
                            ++ padStart 2 (toString day))
                   ++ padStart 3 (toString n)).
  assert (L17 : String.length idCard17 = 17%nat).
  { unfold idCard17. rewrite !length_append, La, Ly, Lm, Ld, Ls. reflexivity. }
  assert (D17 : all_digits idCard17 = true).
  { unfold idCard17. rewrite !all_digits_append, Da, Dy, Dm, Dd, Ds. reflexivity. }
  destruct (calculateCheckCode_digits idCard17 L17 D17) as (c & Ec & Hup & _).
  unfold withCheckCode. rewrite Ec.
  exists {| p_area := area; p_year := y; p_month := m; p_day := day;
            p_maxDay := maxDay; p_sequence := padStart 3 (toString n);
            p_check := c |}.
  cbn [p_area p_year p_month p_day p_maxDay p_sequence p_check].
  repeat split; try assumption; try lia; reflexivity.
Qed.

Lemma parts_written (p : Parts) :
  In (p_area p) AREA_CODES ->
  1980 <= p_year p <= 2005 -> 1 <= p_month p <= 12 -> 1 <= p_day p <= 31 ->
  String.length (p_sequence p) = 3%nat -> all_digits (p_sequence p) = true ->
  String.length (p_area p) = 6%nat /\ String.length (yyyy p) = 4%nat /\
  String.length (mm p) = 2%nat /\ String.length (dd p) = 2%nat /\
  String.length (idCard17_of p) = 17%nat /\ all_digits (idCard17_of p) = true /\
  parseInt (yyyy p) = Some (p_year p) /\ parseInt (mm p) = Some (p_month p) /\
  parseInt (dd p) = Some (p_day p).
Proof.
  intros Harea Hy Hm Hd Ls Ds.
  destruct (proj1 (List.Forall_forall _ _) area_codes_written _ Harea) as [La Da].
  destruct (written_spec _ _ _ (year_written _ Hy)) as (Ly & Dy & Py).
  destruct (written_spec _ _ _ (two_digits_written (p_month p) ltac:(lia)))
    as (Lm & Dm & Pm).
  destruct (written_spec _ _ _ (two_digits_written (p_day p) Hd)) as (Ld & Dd & Pd).
  unfold idCard17_of. fold (yyyy p) in Ly, Dy, Py. fold (mm p) in Lm, Dm, Pm.
  fold (dd p) in Ld, Dd, Pd.
  rewrite !length_append, !all_digits_append, La, Ly, Lm, Ld, Ls, Da, Dy, Dm, Dd, Ds.
  repeat split; assumption.
Qed.

Lemma idCardOf_valid (d : Draw) : validate (idCardOf d) = true.
Proof.
  destruct (idCardOf_parts d)
    as (p & -> & Harea & Hy & Hm & _ & Hd & Hmax & Ls & Ds & Ec & Hup).
  destruct (parts_written p Harea Hy Hm ltac:(lia) Ls Ds)
    as (_ & _ & _ & _ & L17 & D17 & _).
  rewrite (validate_with _ _ L17), D17, Ec, Hup. apply Ascii.eqb_refl.
Qed.

(** Property X26.  Whatever [Math.random()] returns, the number a turn of the
    generator makes has 18 characters and passes [validate];
    [parseIdCard] does not return null on it, and gives back one of the
    listed area codes and a birth date with a year from 1980 to 2005, a
    month from 1 to 12 and a day that this month of this year has. *)
Theorem generated_number_is_valid_and_parses (d : Draw) :
  String.length (idCardOf d) = 18%nat /\
  validate (idCardOf d) = true /\
  exists info y m dd maxDay,
    parseIdCard (idCardOf d) = Some info /\
    In (areaCode info) AREA_CODES /\
    year info = Some y /\ month info = Some m /\ day info = Some dd /\
    1980 <= y <= 2005 /\ 1 <= m <= 12 /\
    getDaysInMonth y m = Some maxDay /\ 1 <= dd <= maxDay.
Proof.
  pose proof (idCardOf_valid d) as Hvalid.
  destruct (idCardOf_parts d)
    as (p & E & Harea & Hy & Hm & Emax & Hd & Hmax & Ls & Ds & Ec & Hup).
  destruct (parts_written p Harea Hy Hm ltac:(lia) Ls Ds)
    as (La & Ly & Lm & Ld & L17 & D17 & Py & Pm & Pd).
  split; [rewrite E, length_append, L17; reflexivity|].
  split; [exact Hvalid|].
  unfold parseIdCard. rewrite Hvalid. cbn [negb]. cbv zeta. rewrite E.
  destruct (parts_of_17 (p_area p) (yyyy p) (mm p) (dd p) (p_sequence p) (p_check p)
              La Ly Lm Ld Ls) as (S1 & S2 & S3 & S4 & S5 & S6).
  fold (idCard17_of p) in S1, S2, S3, S4, S5, S6.
  rewrite S1, S2, S3, S4, S5, S6.
  eexists _, (p_year p), (p_month p), (p_day p), (p_maxDay p).
  split; [reflexivity|]. cbn [areaCode year month day].
  repeat split; try assumption; lia.
Qed.

(** *** Numbers that have been generated *)

Lemma has_In idCard generated : has idCard generated = true <-> In idCard generated.
Proof.
  unfold has. rewrite existsb_exists. split.
  - intros (x & Hx & E). apply String.eqb_eq in E. subst x. exact Hx.
  - intros H. exists idCard. split; [exact H | apply String.eqb_refl].
Qed.

Lemma has_not_In idCard generated :
  has idCard generated = false <-> ~ In idCard generated.
Proof.
  split.
  - intros H Hin. apply has_In in Hin. congruence.
  - intros H. destruct (has idCard generated) eqn:E; [|reflexivity].
    exfalso. apply H, has_In, E.
Qed.

Lemma add_new idCard generated :
  has idCard generated = false -> add idCard generated = (generated ++ [idCard])%list.
Proof. intros H. unfold add. rewrite H. reflexivity. Qed.

Lemma loadGenerated_loaded g : loaded (loadGenerated g) = true.
Proof. unfold loadGenerated. destruct (loaded g) eqn:E; [exact E | reflexivity]. Qed.

Lemma loadGenerated_again g : loaded g = true -> loadGenerated g = g.
Proof. intros H. unfold loadGenerated. rewrite H. reflexivity. Qed.

Lemma loadGenerated_keeps g :
  dataFile (loadGenerated g) = dataFile g /\ drawn (loadGenerated g) = drawn g.
Proof. unfold loadGenerated. destruct (loaded g); split; reflexivity. Qed.

Section Generated.

Variable env : Env.

(** The number the turn after [k] more turns makes. *)
Definition turn (g : Generator) (k : nat) : string :=
  idCardOf (Math_random env (drawn g + k)).

(** What the loop of [generateNext] comes to. *)
Lemma attempt_spec (retries : nat) :
  forall g,
    match attempt env retries g with
    | (Some idCard, g') =>
        has idCard (generatedIdCards g) = false /\
        generatedIdCards g' = (generatedIdCards g ++ [idCard])%list /\
        dataFile g' = Some (generatedIdCards g') /\
        loaded g' = loaded g /\
        exists k, (k < retries)%nat /\ idCard = turn g k /\
                  drawn g' = S (drawn g + k) /\
                  forall j, (j < k)%nat -> has (turn g j) (generatedIdCards g) = true
    | (None, g') =>
        loaded g' = loaded g /\ dataFile g' = dataFile g /\
        ((generatedIdCards g' = generatedIdCards g /\
          forall j, (j < retries)%nat -> has (turn g j) (generatedIdCards g) = true)
         \/
         exists idCard,
           has idCard (generatedIdCards g) = false /\
           generatedIdCards g' = (generatedIdCards g ++ [idCard])%list)
    end.
Proof.
  induction retries as [|retries IH]; intros g; cbn [attempt].
  - split; [reflexivity|]. split; [reflexivity|]. left. split; [reflexivity|].
    intros j Hj. lia.
  - cbv zeta. cbn [generatedIdCards loaded dataFile drawn].
    destruct (has (idCardOf (Math_random env (drawn g))) (generatedIdCards g)) eqn:Ehas;
      cbn [negb].
    + set (g1 := {| generatedIdCards := generatedIdCards g; loaded := loaded g;
                    dataFile := dataFile g; drawn := S (drawn g) |}).
      specialize (IH g1).
      assert (Hturn : forall j, turn g1 j = turn g (S j)).
      { intros j. unfold turn, g1. cbn [drawn]. f_equal. f_equal. lia. }
      destruct (attempt env retries g1) as [[idCard|] g'].
      * destruct IH as (H1 & H2 & H3 & H4 & k & Hk & Ek & Ed & Hj).
        cbn [generatedIdCards loaded dataFile drawn g1] in *.
        repeat (split; [assumption|]).
        exists (S k). split; [lia|]. split; [rewrite <- Hturn; exact Ek|].
        split; [lia|].
        intros [|j] Hlt.
        -- unfold turn. rewrite Nat.add_0_r. exact Ehas.
        -- rewrite <- Hturn. apply Hj. lia.
      * destruct IH as (H1 & H2 & H3).
        cbn [generatedIdCards loaded dataFile drawn g1] in *.
        split; [assumption|]. split; [assumption|].
        destruct H3 as [[H3 Hj] | H3]; [left | right; exact H3].
        split; [exact H3|].
        intros [|j] Hlt.
        -- unfold turn. rewrite Nat.add_0_r. exact Ehas.
        -- rewrite <- Hturn. apply Hj. lia.
    + unfold saveGenerated. cbn [generatedIdCards loaded dataFile drawn].
      rewrite (add_new _ _ Ehas).
      destruct (writeFile_fails env _); cbn [generatedIdCards loaded dataFile drawn].
      * split; [reflexivity|]. split; [reflexivity|]. right.
        eexists. split; [exact Ehas | reflexivity].
      * split; [exact Ehas|]. split; [reflexivity|]. split; [reflexivity|].
        split; [reflexivity|].
        exists 0%nat. split; [lia|]. unfold turn. rewrite Nat.add_0_r.
        split; [reflexivity|]. split; [lia|]. intros j Hj. lia.
Qed.

(** Property X27.  A number [generateNext] returns is valid and was not in the set of
    generated numbers; it is then the last element of that set, and the
    data file holds the set.  When [generateNext] throws, either every
    turn made a number that was in the set, which is then unchanged, or
    saving failed: the new number is in the set in memory and the file
    is as it was. *)
Theorem generateNext_returns_a_new_number (maxRetries : option nat) (g : Generator) :
  let known := generatedIdCards (loadGenerated g) in
  match generateNext env maxRetries g with
  | (Some idCard, g') =>
      ~ In idCard known /\ validate idCard = true /\
      generatedIdCards g' = (known ++ [idCard])%list /\
      dataFile g' = Some (known ++ [idCard])%list /\
      loaded g' = true
  | (None, g') =>
      loaded g' = true /\ dataFile g' = dataFile g /\
      ((generatedIdCards g' = known /\
        forall j, (j < match maxRetries with Some n => n | None => 100 end)%nat ->
                  In (turn g j) known)
       \/
       exists idCard, ~ In idCard known /\
                      generatedIdCards g' = (known ++ [idCard])%list)
  end.
Proof.
  cbv zeta. unfold generateNext.
  pose proof (attempt_spec (match maxRetries with Some n => n | None => 100%nat end)
                (loadGenerated g)) as H.
  pose proof (loadGenerated_loaded g) as Hl.
  destruct (loadGenerated_keeps g) as [Hf Hd].
  destruct (attempt env _ (loadGenerated g)) as [[idCard|] g'].
  - destruct H as (H1 & H2 & H3 & H4 & k & _ & Ek & _).
    split; [apply has_not_In; exact H1|].
    split.
    { rewrite Ek. unfold turn. apply idCardOf_valid. }
    split; [exact H2|]. split; [rewrite H3, H2; reflexivity|].
    rewrite H4. exact Hl.
  - destruct H as (H1 & H2 & H3).
    split; [rewrite H1; exact Hl|]. split; [rewrite H2; exact Hf|].
    destruct H3 as [[H3 Hj] | (idCard & Hnew & H3)].
    + left. split; [exact H3|]. intros j Hlt. apply has_In.
      specialize (Hj j Hlt). unfold turn in *. rewrite Hd in Hj. exact Hj.
    + right. exists idCard. split; [apply has_not_In; exact Hnew | exact H3].
Qed.

Lemma generateNext_spec (g : Generator) :
  let known := generatedIdCards (loadGenerated g) in
  match generateNext env None g with
  | (Some idCard, g') =>
      ~ In idCard known /\ validate idCard = true /\
      generatedIdCards g' = (known ++ [idCard])%list /\ loaded g' = true
  | (None, _) => True
  end.
Proof.
  cbv zeta. unfold generateNext.
  pose proof (attempt_spec 100 (loadGenerated g)) as H.
  pose proof (loadGenerated_loaded g) as Hl.
  destruct (attempt env 100 (loadGenerated g)) as [[idCard|] g']; [|exact I].
  destruct H as (H1 & H2 & H3 & H4 & k & _ & Ek & _).
  split; [apply has_not_In; exact H1|].
  split; [rewrite Ek; unfold turn; apply idCardOf_valid|].
  split; [exact H2 | rewrite H4; exact Hl].
Qed.

(** Property X28.  When [generateBatch(count)] returns, it returns [count] numbers
    that are valid, pairwise distinct and were not in the set of
    generated numbers; they are appended to that set in the order they
    are returned.  [generateBatch(0)] does nothing. *)
Theorem generateBatch_numbers_are_new_and_distinct (count : nat) (g : Generator) :
  let known := generatedIdCards (loadGenerated g) in
  match generateBatch env count g with
  | (Some idCards, g') =>
      List.length idCards = count /\
      NoDup idCards /\
      Forall (fun idCard => ~ In idCard known /\ validate idCard = true) idCards /\
      (count = 0%nat -> g' = g) /\
      (count <> 0%nat -> generatedIdCards g' = (known ++ idCards)%list)
  | (None, _) => True
  end.
Proof.
  cbv zeta. revert g. induction count as [|count IH]; intros g; cbn [generateBatch].
  - split; [reflexivity|]. split; [constructor|]. split; [constructor|].
    split; [reflexivity|]. intros H. contradiction.
  - pose proof (generateNext_spec g) as Hnext. cbv zeta in Hnext.
    destruct (generateNext env None g) as [[idCard|] g1]; [|exact I].
    destruct Hnext as (Hnew & Hvalid & Hset & Hloaded).
    specialize (IH g1). rewrite (loadGenerated_again g1 Hloaded) in IH.
    destruct (generateBatch env count g1) as [[idCards|] g2]; [|exact I].
    destruct IH as (Hlen & Hdistinct & Hall & Hzero & Hrest).
    rewrite Hset in Hall.
    split; [cbn; rewrite Hlen; reflexivity|].
    split.
    { constructor; [|exact Hdistinct].
      intros Hin. rewrite List.Forall_forall in Hall.
      destruct (Hall idCard Hin) as [Hnot _]. apply Hnot.
      apply in_or_app. right. left. reflexivity. }
    split.
    { constructor; [split; assumption|].
      eapply List.Forall_impl; [|exact Hall].
      intros x [Hnot Hv]. split; [|exact Hv].
      intros Hin. apply Hnot. apply in_or_app. left. exact Hin. }
    split; [discriminate|].
    intros _. destruct count as [|count].
    + rewrite (Hzero eq_refl). destruct idCards; [|discriminate Hlen]. exact Hset.
    + rewrite (Hrest ltac:(discriminate)), Hset, <- app_assoc. reflexivity.
Qed.

End Generated.

End IdCardFacts.

(** ** Random strings *)

Module RandomStringFacts.
Import JS JSFacts RandomString StringFacts.

(** Every character of [s] is one of [CHARS]. *)
Fixpoint in_CHARS (s : string) : bool :=
  match s with
  | EmptyString => true
  | String c rest =>
      existsb (Ascii.eqb c) (list_ascii_of_string CHARS) && in_CHARS rest
  end.

Lemma in_CHARS_append (s t : string) : in_CHARS (s ++ t) = in_CHARS s && in_CHARS t.
Proof.
  induction s as [|c s IH]; rewrite ?append_nil, ?append_cons; cbn [in_CHARS];
    [reflexivity|].
  rewrite IH, andb_assoc. reflexivity.
Qed.

Lemma charAt_CHARS (i : Z) :
  0 <= i < 36 ->
  String.length (charAt CHARS i) = 1%nat /\ in_CHARS (charAt CHARS i) = true.
Proof.
  intros H.
  pose proof (checked_in_range
                (fun i => Nat.eqb (String.length (charAt CHARS i)) 1
                          && in_CHARS (charAt CHARS i)) 0 36
                ltac:(vm_compute; reflexivity) i ltac:(lia)) as Hc.
  cbv beta in Hc. apply andb_prop in Hc as [H1 H2]. apply Nat.eqb_eq in H1. auto.
Qed.

Section Strings.

Variable env : Env.

Lemma randomBelow_call (k : Z) (g : Generator) :
  0 < k ->
  0 <= fst (randomBelow env k g) < k /\
  generatedStrings (snd (randomBelow env k g)) = generatedStrings g /\
  loaded (snd (randomBelow env k g)) = loaded g /\
  dataFile (snd (randomBelow env k g)) = dataFile g.
Proof.
  intros Hk. unfold randomBelow. cbn.
  destruct (Math_random env (calls g)) as [n d Hnd]; cbn [num den].
  repeat split; try reflexivity.
  - apply Z.div_pos; nia.
  - apply Z.div_lt_upper_bound; nia.
Qed.

Lemma generateRandomStringFrom_spec (todo : nat) :
  forall result g,
    exists suffix,
      fst (generateRandomStringFrom env todo result g) = result ++ suffix /\
      String.length suffix = todo /\ in_CHARS suffix = true /\
      generatedStrings (snd (generateRandomStringFrom env todo result g))
      = generatedStrings g /\
      loaded (snd (generateRandomStringFrom env todo result g)) = loaded g /\
      dataFile (snd (generateRandomStringFrom env todo result g)) = dataFile g.
Proof.
  induction todo as [|todo IH]; intros result g; cbn [generateRandomStringFrom].
  - exists "". cbn. repeat split; try reflexivity.
    clear. induction result as [|c r IHr]; [reflexivity|].
    rewrite append_cons, <- IHr. reflexivity.
  - destruct (randomBelow_call (Z.of_nat (String.length CHARS)) g ltac:(cbn; lia))
      as (Hi & Hs & Hl & Hf).
    destruct (randomBelow env (Z.of_nat (String.length CHARS)) g) as [i g1].
    cbn [fst snd] in *.
    destruct (charAt_CHARS i ltac:(cbn in Hi; lia)) as [L1 C1].
    destruct (IH (result ++ charAt CHARS i) g1) as (suffix & E & L & C & Hs' & Hl' & Hf').
    exists (charAt CHARS i ++ suffix).
    rewrite E, append_assoc, length_append, L1, L, in_CHARS_append, C1, C.
    rewrite Hs', Hl', Hf', Hs, Hl, Hf. repeat split; reflexivity.
Qed.

(** What a string the generator makes for [length] looks like. *)
Definition as_asked (length : option Z) (str : string) : Prop :=
  in_CHARS str = true /\
  match length with
  | Some l => Z.of_nat (String.length str) = l
  | None => 1 <= Z.of_nat (String.length str) <= 6
  end.

Lemma string_attempt_spec (length : option Z) (retries : nat) :
  match length with Some l => 0 <= l | None => True end ->
  forall g,
    match attempt env length retries g with
    | (Some str, g') =>
        has str (generatedStrings g) = false /\ as_asked length str /\
        generatedStrings g' = (generatedStrings g ++ [str])%list /\
        dataFile g' = Some (generatedStrings g') /\
        loaded g' = loaded g
    | (None, g') =>
        loaded g' = loaded g /\ dataFile g' = dataFile g /\
        (generatedStrings g' = generatedStrings g \/
         exists str, has str (generatedStrings g) = false /\ as_asked length str /\
                     generatedStrings g' = (generatedStrings g ++ [str])%list)
    end.
Proof.
  intros Hlen. induction retries as [|retries IH]; intros g; cbn [attempt].
  - auto.
  - set (chosen := match length with
                   | Some l => (l, g)
                   | None => let (n, g') := randomBelow env 6 g in (n + 1, g')
                   end).
    assert (Hchosen : (match length with
                       | Some l => fst chosen = l
                       | None => 1 <= fst chosen <= 6
                       end) /\
                      generatedStrings (snd chosen) = generatedStrings g /\
                      loaded (snd chosen) = loaded g /\
                      dataFile (snd chosen) = dataFile g).
    { unfold chosen. destruct length as [l|]; [auto|].
      destruct (randomBelow_call 6 g ltac:(lia)) as (Hi & Hs & Hl & Hf).
      destruct (randomBelow env 6 g) as [n g']. cbn [fst snd] in *.
      repeat split; try assumption; lia. }
    destruct chosen as [actualLength g1]. cbn [fst snd] in Hchosen.
    destruct Hchosen as (Hactual & Hs1 & Hl1 & Hf1).
    unfold generateRandomString.
    destruct (generateRandomStringFrom_spec (Z.to_nat actualLength) "" g1)
      as (str & E & L & C & Hs2 & Hl2 & Hf2).
    destruct (generateRandomStringFrom env (Z.to_nat actualLength) "" g1) as [str' g2].
    cbn [fst snd] in *. rewrite append_nil in E. subst str'.
    assert (Hasked : as_asked length str).
    { split; [exact C|]. rewrite L. destruct length as [l|]; lia. }
    destruct (has str (generatedStrings g2)) eqn:Ehas; cbn [negb].
    + specialize (IH g2). destruct (attempt env length retries g2) as [[s|] g'].
      * destruct IH as (H1 & H2 & H3 & H4 & H5).
        rewrite Hs2, Hs1 in H1, H3. rewrite Hl2, Hl1 in H5. auto.
      * destruct IH as (H1 & H2 & H3).
        rewrite Hl2, Hl1 in H1. rewrite Hf2, Hf1 in H2. rewrite Hs2, Hs1 in H3. auto.
    + unfold saveGenerated. cbn [generatedStrings loaded dataFile calls].
      unfold add. rewrite Ehas. rewrite Hs2, Hs1 in Ehas |- *.
      destruct (writeFile_fails env _); cbn [generatedStrings loaded dataFile calls].
      * rewrite Hl2, Hl1, Hf2, Hf1. split; [reflexivity|]. split; [reflexivity|].
        right. exists str. auto.
      * rewrite Hl2, Hl1. auto.
Qed.

Lemma has_string_In str generated : has str generated = true <-> In str generated.
Proof.
  unfold has. rewrite existsb_exists. split.
  - intros (x & Hx & E). apply String.eqb_eq in E. subst x. exact Hx.
  - intros H. exists str. split; [exact H | apply String.eqb_refl].
Qed.

(** Property X29.  [generateNext(length)] throws for a length below 1 or above 6,
    before it draws anything and with the set as it was loaded.  A
    string it returns is made of the characters of [CHARS], has the
    length asked for, or a length from 1 to 6 when none is asked for,
    was not in the set of generated strings, and is then the last
    element of the set and of the data file. *)
Theorem generateNext_returns_a_new_string_as_asked
    (length : option Z) (maxRetries : option nat) (g : Generator) :
  let known := generatedStrings (loadGenerated g) in
  (forall l, length = Some l -> l < 1 \/ 6 < l ->
             generateNext env length maxRetries g = (None, loadGenerated g)) /\
  match generateNext env length maxRetries g with
  | (Some str, g') =>
      ~ In str known /\ as_asked length str /\
      match length with Some l => 1 <= l <= 6 | None => True end /\
      generatedStrings g' = (known ++ [str])%list /\
      dataFile g' = Some (known ++ [str])%list
  | (None, g') =>
      generatedStrings g' = known \/
      exists str, ~ In str known /\ generatedStrings g' = (known ++ [str])%list
  end.
Proof.
  cbv zeta. split.
  - intros l -> Hl. unfold generateNext.
    destruct (Z.ltb_spec l 1); [reflexivity|].
    destruct (Z.ltb_spec 6 l); [reflexivity | lia].
  - unfold generateNext. cbv zeta.
    set (retries := match maxRetries with Some n => n | None => 1000%nat end).
    assert (Hnot : forall str l, has str l = false -> ~ In str l).
    { intros str l H Hin. apply has_string_In in Hin. congruence. }
    destruct length as [l|].
    + destruct (Z.ltb_spec l 1) as [Hlow|Hlow]; cbn [orb]; [left; reflexivity|].
      destruct (Z.ltb_spec 6 l) as [Hhigh|Hhigh]; [left; reflexivity|].
      pose proof (string_attempt_spec (Some l) retries ltac:(cbn; lia) (loadGenerated g)) as H.
      destruct (attempt env (Some l) retries (loadGenerated g)) as [[str|] g'].
      * destruct H as (H1 & H2 & H3 & H4 & _).
        split; [apply Hnot; exact H1|]. split; [exact H2|]. split; [lia|].
        split; [exact H3 | rewrite H4, H3; reflexivity].
      * destruct H as (_ & _ & [H | (str & H1 & _ & H3)]); [left; exact H|].
        right. exists str. split; [apply Hnot; exact H1 | exact H3].
    + pose proof (string_attempt_spec None retries I (loadGenerated g)) as H.
      destruct (attempt env None retries (loadGenerated g)) as [[str|] g'].
      * destruct H as (H1 & H2 & H3 & H4 & _).
        split; [apply Hnot; exact H1|]. split; [exact H2|]. split; [exact I|].
        split; [exact H3 | rewrite H4, H3; reflexivity].
      * destruct H as (_ & _ & [H | (str & H1 & _ & H3)]); [left; exact H|].
        right. exists str. split; [apply Hnot; exact H1 | exact H3].
Qed.

End Strings.

End RandomStringFacts.
